(** * tcping_mcp: the probing engine, embedded and verified

    Shallow embedding of [src/utils/validators.ts] (hostname / port
    validation), [src/utils/tcp.ts] (the single-probe connector [tcpConnect]
    and the repeated-probe aggregator [tcping]) and of [src/index.ts]: the
    three tool handlers ([handleTcping], [handleFirewallValidation],
    [handleNetworkScan]), the list of tools and the dispatcher.

    Modelling conventions
    - JavaScript strings are [string]s of 8-bit characters; regular
      expressions are abstract syntax trees run on their character lists by
      a derivative matcher, proved to decide the language of the expression.
    - Millisecond counts, ports, counters and timeouts are integers ([Z]);
      a [number] that may fail [Number.isInteger] is a [jsnumber].  A run of
      [tcping] with a [count] that is not an integer is outside the model.
    - The success rate [successfulAttempts / attempts * 100] is computed as
      JavaScript does, each operation rounded to the nearest double; the
      mean [sum / length] is computed exactly, in [Q].
    - The socket layer of Node is the environment: for each connection
      attempt it says when the attempt started and which of the three
      callbacks registered by [tcpConnect] ran first.  [socket.connect]
      throws ERR_SOCKET_BAD_PORT for a port outside [0, 65535] before any
      attempt is made; the promise of [tcpConnect] then rejects, and the
      rejection goes up to the [catch] of the dispatcher.
    - The handlers run in a state and exception monad: the state is the log
      of the effects of the run, the calls to the connector and the pauses;
      a computation resolves with a value or rejects with what was thrown. *)

From Stdlib Require Import ZArith NArith QArith Qround Qabs List Sorted Bool Ascii String Lia.
From Stdlib Require Import DecimalString.
Import ListNotations.

Local Open Scope Z_scope.

(* ================================================================== *)
(** * Part I: definitions                                             *)
(* ================================================================== *)

(** ** Characters and strings *)

Definition chars (s : string) : list ascii := list_ascii_of_string s.

Definition in_range (lo hi c : ascii) : bool :=
  (N_of_ascii lo <=? N_of_ascii c)%N && (N_of_ascii c <=? N_of_ascii hi)%N.

Definition is_char (a c : ascii) : bool := (N_of_ascii a =? N_of_ascii c)%N.

(** [\d] *)
Definition is_digit (c : ascii) : bool := in_range "0" "9" c.
(** [[a-zA-Z0-9]] *)
Definition is_alnum (c : ascii) : bool :=
  in_range "a" "z" c || in_range "A" "Z" c || in_range "0" "9" c.
(** [[a-zA-Z0-9\-]] *)
Definition is_alnum_dash (c : ascii) : bool :=
  in_range "a" "z" c || in_range "A" "Z" c || in_range "0" "9" c || is_char "-" c.
(** [[0-9a-fA-F]] *)
Definition is_hex (c : ascii) : bool :=
  in_range "0" "9" c || in_range "a" "f" c || in_range "A" "F" c.

(** [String.prototype.split] with a one-character separator. *)
Fixpoint split_on (sep : ascii) (s : list ascii) : list (list ascii) :=
  match s with
  | [] => [[]]
  | c :: t =>
      if is_char sep c then [] :: split_on sep t
      else match split_on sep t with
           | piece :: rest => (c :: piece) :: rest
           | [] => [[c]]
           end
  end.

(** [Array.prototype.join] with a one-character separator. *)
Fixpoint join_with (sep : ascii) (pieces : list (list ascii)) : list ascii :=
  match pieces with
  | [] => []
  | [p] => p
  | p :: rest => p ++ sep :: join_with sep rest
  end.

(** A piece free of the separator. *)
Definition free_of (sep : ascii) (p : list ascii) : bool :=
  forallb (fun c => negb (is_char sep c)) p.

(** Decimal rendering of an integer, as a template literal does. *)
Definition show_Z (z : Z) : string := NilZero.string_of_int (Z.to_int z).

(** ** Numbers *)

(** A JavaScript [number] seen through [Number.isInteger]: an integer, or a
    value that is none (a fraction, [NaN], an infinity). *)
Inductive jsnumber : Type :=
| JInt (z : Z)
| JNotInt.

Definition Number_isInteger (n : jsnumber) : bool :=
  match n with JInt _ => true | JNotInt => false end.

Definition digit_value (c : ascii) : Z := Z.of_N (N_of_ascii c) - 48.

(** [parseInt(s, 10)] on an unsigned string: the value of the longest prefix
    of decimal digits, [None] (NaN) when there is none. *)
Fixpoint parse_digits (acc : Z) (s : list ascii) : Z :=
  match s with
  | c :: t => if is_digit c then parse_digits (10 * acc + digit_value c) t else acc
  | [] => acc
  end.

Definition parseInt10 (s : list ascii) : option Z :=
  match s with
  | c :: _ => if is_digit c then Some (parse_digits 0 s) else None
  | [] => None
  end.

(** [x < k] and [x > k] where [x] may be NaN: comparisons with NaN are false. *)
Definition nan_ltb (x : option Z) (k : Z) : bool :=
  match x with Some v => v <? k | None => false end.
Definition nan_gtb (x : option Z) (k : Z) : bool :=
  match x with Some v => v >? k | None => false end.

(** ** Regular expressions *)

Module Regex.

Inductive regex : Type :=
| Void
| Eps
| Class (p : ascii -> bool)
| Cat (r1 r2 : regex)
| Alt (r1 r2 : regex)
| Star (r : regex).

Definition Lit (c : ascii) : regex := Class (is_char c).

Fixpoint Word (w : list ascii) : regex :=
  match w with
  | [] => Eps
  | [c] => Lit c
  | c :: t => Cat (Lit c) (Word t)
  end.

(** [r{n}] *)
Fixpoint Times (n : nat) (r : regex) : regex :=
  match n with
  | O => Eps
  | S O => r
  | S n' => Cat r (Times n' r)
  end.

(** [r{0,n}] *)
Fixpoint UpTo (n : nat) (r : regex) : regex :=
  match n with
  | O => Eps
  | S n' => Alt Eps (Cat r (UpTo n' r))
  end.

(** [r{m,n}], for [m <= n] *)
Definition Between (m n : nat) (r : regex) : regex :=
  match m with
  | O => UpTo n r
  | _ => Cat (Times m r) (UpTo (n - m) r)
  end.

(** [r{m,}] *)
Definition AtLeast (m : nat) (r : regex) : regex :=
  match m with
  | O => Star r
  | _ => Cat (Times m r) (Star r)
  end.

(** The language of a regular expression. *)
Inductive lang : regex -> list ascii -> Prop :=
| lang_eps : lang Eps []
| lang_class p c : p c = true -> lang (Class p) [c]
| lang_cat r1 r2 s1 s2 : lang r1 s1 -> lang r2 s2 -> lang (Cat r1 r2) (s1 ++ s2)
| lang_alt_l r1 r2 s : lang r1 s -> lang (Alt r1 r2) s
| lang_alt_r r1 r2 s : lang r2 s -> lang (Alt r1 r2) s
| lang_star_nil r : lang (Star r) []
| lang_star_more r s1 s2 : lang r s1 -> lang (Star r) s2 -> lang (Star r) (s1 ++ s2).

(** Matching by derivatives. *)
Fixpoint nullable (r : regex) : bool :=
  match r with
  | Void => false
  | Eps => true
  | Class _ => false
  | Cat r1 r2 => nullable r1 && nullable r2
  | Alt r1 r2 => nullable r1 || nullable r2
  | Star _ => true
  end.

Definition cat (r1 r2 : regex) : regex :=
  match r1, r2 with
  | Void, _ => Void
  | _, Void => Void
  | Eps, _ => r2
  | _, _ => Cat r1 r2
  end.

Definition alt (r1 r2 : regex) : regex :=
  match r1, r2 with
  | Void, _ => r2
  | _, Void => r1
  | _, _ => Alt r1 r2
  end.

Fixpoint deriv (c : ascii) (r : regex) : regex :=
  match r with
  | Void => Void
  | Eps => Void
  | Class p => if p c then Eps else Void
  | Cat r1 r2 =>
      if nullable r1 then alt (cat (deriv c r1) r2) (deriv c r2)
      else cat (deriv c r1) r2
  | Alt r1 r2 => alt (deriv c r1) (deriv c r2)
  | Star r1 => cat (deriv c r1) (Star r1)
  end.

Fixpoint matches (r : regex) (s : list ascii) : bool :=
  match s with
  | [] => nullable r
  | c :: t => matches (deriv c r) t
  end.

(** [/^r$/.test(s)] *)
Definition test (r : regex) (s : string) : bool := matches r (chars s).

(** A sufficient condition, read off the expression, for every word of [r]
    to hold a character of the class [q]. *)
Definition all_ascii : list ascii := map ascii_of_nat (seq 0 256).

Fixpoint needs (q : ascii -> bool) (r : regex) : bool :=
  match r with
  | Void => true
  | Eps => false
  | Class p => forallb (fun c => implb (p c) (q c)) all_ascii
  | Cat r1 r2 => needs q r1 || needs q r2
  | Alt r1 r2 => needs q r1 && needs q r2
  | Star _ => false
  end.

(** A sufficient condition, read off the expression, for every word of [r]
    to be made of characters of the class [q] only. *)
Fixpoint within (q : ascii -> bool) (r : regex) : bool :=
  match r with
  | Void => true
  | Eps => true
  | Class p => forallb (fun c => implb (p c) (q c)) all_ascii
  | Cat r1 r2 => within q r1 && within q r2
  | Alt r1 r2 => within q r1 && within q r2
  | Star r1 => within q r1
  end.

End Regex.

Import Regex.

(** ** src/utils/validators.ts *)

Module Validators.

Definition digit : regex := Class is_digit.
Definition dot : regex := Lit ".".
Definition colon : regex := Lit ":".

(** [/^(\d{1,3})\.(\d{1,3})\.(\d{1,3})\.(\d{1,3})$/] *)
Definition ipv4Pattern : regex :=
  Cat (Between 1 3 digit) (Cat dot
  (Cat (Between 1 3 digit) (Cat dot
  (Cat (Between 1 3 digit) (Cat dot
       (Between 1 3 digit)))))).

Definition hex4 : regex := Between 1 4 (Class is_hex).      (* [0-9a-fA-F]{1,4} *)
Definition hex4_colon : regex := Cat hex4 colon.             (* ([0-9a-fA-F]{1,4}:) *)
Definition colon_hex4 : regex := Cat colon hex4.             (* (:[0-9a-fA-F]{1,4}) *)

(** [(25[0-5]|(2[0-4]|1{0,1}[0-9]){0,1}[0-9])] *)
Definition v4octet : regex :=
  Alt (Cat (Word (chars "25")) (Class (in_range "0" "5")))
      (Cat (Between 0 1 (Alt (Cat (Lit "2") (Class (in_range "0" "4")))
                             (Cat (Between 0 1 (Lit "1")) (Class is_digit))))
           (Class is_digit)).

(** [((25[0-5]|...)\.){3,3}(25[0-5]|...)] *)
Definition v4tail : regex := Cat (Between 3 3 (Cat v4octet dot)) v4octet.

(** The twelve alternatives of [ipv6Regex], in source order. *)
Definition ipv6_alternatives : list regex :=
  [ Cat (Between 7 7 hex4_colon) hex4
  ; Cat (Between 1 7 hex4_colon) colon
  ; Cat (Between 1 6 hex4_colon) (Cat colon hex4)
  ; Cat (Between 1 5 hex4_colon) (Between 1 2 colon_hex4)
  ; Cat (Between 1 4 hex4_colon) (Between 1 3 colon_hex4)
  ; Cat (Between 1 3 hex4_colon) (Between 1 4 colon_hex4)
  ; Cat (Between 1 2 hex4_colon) (Between 1 5 colon_hex4)
  ; Cat hex4 (Cat colon (Between 1 6 colon_hex4))
  ; Cat colon (Alt (Between 1 7 colon_hex4) colon)
  ; Cat (Word (chars "fe80:"))
        (Cat (Between 0 4 (Cat colon (Between 0 4 (Class is_hex))))
             (Cat (Lit "%") (AtLeast 1 (Class is_alnum))))
  ; Cat (Word (chars "::"))
        (Cat (Between 0 1 (Cat (Word (chars "ffff"))
                               (Cat (Between 0 1 (Cat colon (Between 1 4 (Lit "0")))) colon)))
             v4tail)
  ; Cat (Between 1 4 hex4_colon) (Cat colon v4tail) ].

Fixpoint any_of (rs : list regex) : regex :=
  match rs with
  | [] => Void
  | [r] => r
  | r :: rest => Alt r (any_of rest)
  end.

Definition ipv6Regex : regex := any_of ipv6_alternatives.

(** [/^(\d{1,3}\.){0,3}\d{1,3}$/] *)
Definition incompleteIpv4 : regex :=
  Cat (Between 0 3 (Cat (Between 1 3 digit) dot)) (Between 1 3 digit).

(** [/^(\d{1,3}\.){4,}\d{1,3}$/] *)
Definition overlongIpv4 : regex :=
  Cat (AtLeast 4 (Cat (Between 1 3 digit) dot)) (Between 1 3 digit).

(** [([a-zA-Z0-9]|[a-zA-Z0-9][a-zA-Z0-9\-]*[a-zA-Z0-9])] *)
Definition hostLabel : regex :=
  Alt (Class is_alnum)
      (Cat (Class is_alnum) (Cat (Star (Class is_alnum_dash)) (Class is_alnum))).

(** [/^((label)\.)*(label)$/] *)
Definition hostnameRegex : regex :=
  Cat (Star (Cat hostLabel dot)) hostLabel.

(** [host.match(ipv4Pattern)]: the pattern is anchored at both ends and its
    four groups cannot contain a dot, so on a match element 0 is the host
    and elements 1 to 4 are the pieces between the dots. *)
Definition match_ipv4 (host : string) : option (list (list ascii)) :=
  if test ipv4Pattern host then Some (chars host :: split_on "." (chars host))
  else None.

Definition isValidHost (host : string) : bool :=
  if String.eqb host "" then false
  else
    match match_ipv4 host with
    | Some ipv4Match =>
        if negb (Nat.eqb (List.length (split_on "." (nth 0 ipv4Match []))) 4) then false
        else if existsb (fun i =>
                   let octet := parseInt10 (nth i ipv4Match []) in
                   nan_ltb octet 0 || nan_gtb octet 255)
                 (seq 1 4)
        then false
        else true
    | None =>
        if test ipv6Regex host then true
        else if test incompleteIpv4 host
                && Nat.ltb (List.length (split_on "." (chars host))) 4
        then false
        else if test overlongIpv4 host then false
        else test hostnameRegex host
    end.

Definition isValidPort (port : jsnumber) : bool :=
  Number_isInteger port &&
  match port with JInt p => (p >=? 1) && (p <=? 65535) | JNotInt => false end.

Record Validation : Type := { isValid : bool; error : option string }.

Definition validateConnection (host : string) (port : jsnumber) : Validation :=
  if String.eqb host "" then
    {| isValid := false; error := Some "Host must be a non-empty string"%string |}
  else if negb (isValidHost host) then
    {| isValid := false; error := Some "Invalid hostname or IP address format"%string |}
  else if negb (isValidPort port) then
    {| isValid := false; error := Some "Port must be an integer between 1 and 65535"%string |}
  else {| isValid := true; error := None |}.

End Validators.

Import Validators.

(** ** The environment: sockets, timers and the clock *)

Module Net.

(** What [tcpConnect] asks of the socket layer. *)
Record Call : Type := { call_host : string; call_port : Z; call_timeout : Z }.

(** An observable effect of a run: a call of the connector, which hands [c]
    to [socket.connect], or a pause between two attempts
    ([setTimeout(resolve, interval)]). *)
Inductive Effect : Type :=
| Probe (c : Call)
| Sleep (ms : Z).

(** [socket.connect] checks the port first ([validatePort] of Node): an
    integer of [0, 65535], or it throws ERR_SOCKET_BAD_PORT. *)
Definition isLegalPort (port : Z) : bool := (0 <=? port) && (port <=? 65535).

(** What is thrown in the server: the RangeError of [socket.connect], and
    [new Error(message)]. *)
Inductive Exception : Type :=
| ERR_SOCKET_BAD_PORT (port : Z)
| Error (message : string).

(** A settled promise. *)
Inductive Promise (A : Type) : Type :=
| Resolved (a : A)
| Rejected (e : Exception).

Arguments Resolved {A} a.
Arguments Rejected {A} e.

(** The first callback of a connection attempt to run; it settles the
    promise, and it disarms the other two. *)
Inductive SocketEvent : Type :=
| OnConnect (now : Z)            (* the connect listener; [now] is [Date.now()] there *)
| OnError (message : string)     (* the 'error' listener, with [error.message] *)
| OnTimeout.                     (* the timer armed with [setTimeout(..., timeout)] *)

Record Attempt : Type := { startTime : Z; settledBy : SocketEvent }.

(** The network decides each attempt from the history of the run. *)
Definition Network : Type := list Effect -> Call -> Attempt.

(** Handlers are computations over the log of effects; [await] of a
    rejected promise throws, and what is thrown ends the computation unless
    it is caught. *)
Definition IO (A : Type) : Type := list Effect -> Promise A * list Effect.

Definition ret {A} (a : A) : IO A := fun log => (Resolved a, log).
Definition throw {A} (e : Exception) : IO A := fun log => (Rejected e, log).
Definition bind {A B} (m : IO A) (k : A -> IO B) : IO B :=
  fun log =>
    match m log with
    | (Resolved a, log') => k a log'
    | (Rejected e, log') => (Rejected e, log')
    end.

(** [try { m } catch (error) { handler(error) }] *)
Definition try_catch {A} (m : IO A) (handler : Exception -> IO A) : IO A :=
  fun log =>
    match m log with
    | (Resolved a, log') => (Resolved a, log')
    | (Rejected e, log') => handler e log'
    end.

Definition sleep (ms : Z) : IO unit := fun log => (Resolved tt, log ++ [Sleep ms]).

(** The calls to the connector recorded in a log, oldest first. *)
Fixpoint probes (log : list Effect) : list Call :=
  match log with
  | [] => []
  | Probe c :: rest => c :: probes rest
  | Sleep _ :: rest => probes rest
  end.

(** [for (let i = start; cond(i); i++) acc = body(i, acc)], unrolled at most
    [fuel] times. *)
Fixpoint for_loop {A} (fuel : nat) (cond : Z -> bool) (i : Z)
  (body : Z -> A -> IO A) (acc : A) : IO A :=
  match fuel with
  | O => ret acc
  | S fuel' =>
      if cond i
      then bind (body i acc) (fun acc' => for_loop fuel' cond (i + 1) body acc')
      else ret acc
  end.

(** [for (const x of xs) acc = body(x, acc)] *)
Fixpoint for_of {A X} (xs : list X) (body : X -> A -> IO A) (acc : A) : IO A :=
  match xs with
  | [] => ret acc
  | x :: rest => bind (body x acc) (fun acc' => for_of rest body acc')
  end.

End Net.

Import Net.

Declare Scope io_scope.
Delimit Scope io_scope with io.
Notation "x <- m ;; k" := (bind m (fun x => k))
  (at level 61, m at next level, right associativity) : io_scope.
Notation "m ;;; k" := (bind m (fun _ => k))
  (at level 61, right associativity) : io_scope.

Local Open Scope string_scope.
Local Open Scope list_scope.
Local Open Scope Z_scope.

Infix "+++" := String.append (right associativity, at level 60).

(** ** JavaScript helpers used by the aggregator and the renderers *)

Definition default_to {A} (d : A) (o : option A) : A :=
  match o with Some a => a | None => d end.

(** Truthiness of an optional number: [undefined] and [0] are falsy. *)
Definition truthy (o : option Z) : bool :=
  match o with Some t => negb (t =? 0) | None => false end.

(** [xs.reduce(f)] without an initial value; [None] is the TypeError on [[]]. *)
Definition reduce {A} (f : A -> A -> A) (xs : list A) : option A :=
  match xs with
  | [] => None
  | x :: rest => Some (fold_left f rest x)
  end.

(** [Math.round]: the nearest integer, a tie going up. *)
Definition Math_round (q : Q) : Z := Qfloor (q + (1 # 2)).

(** A double: a rational, or one of the three values that are none. *)
Inductive jsfloat : Type :=
| Finite (q : Q)
| NaN
| PlusInfinity
| MinusInfinity.

(** [q / 2^e] and [m * 2^e]. *)
Definition scale_down (q : Q) (e : Z) : Q :=
  if e <=? 0 then (q * inject_Z (2 ^ (- e)))%Q else (q / inject_Z (2 ^ e))%Q.
Definition scale_up (m : Z) (e : Z) : Q :=
  if 0 <=? e then inject_Z (m * 2 ^ e) else (inject_Z m / inject_Z (2 ^ (- e)))%Q.

(** The integer [k] with [2^k <= q < 2^(k+1)], for [q > 0]. *)
Definition floor_log2 (q : Q) : Z :=
  let n := Qnum q in
  let d := Z.pos (Qden q) in
  let k := Z.log2 n - Z.log2 d in
  if (if 0 <=? k then 2 ^ k * d <=? n else d <=? n * 2 ^ (- k)) then k else k - 1.

(** The nearest integer, a tie going to the even one. *)
Definition round_half_even (y : Q) : Z :=
  let f := Qfloor y in
  match (y - inject_Z f ?= 1 # 2)%Q with
  | Lt => f
  | Gt => f + 1
  | Eq => if Z.even f then f else f + 1
  end.

(** The double nearest to [q], as every arithmetic operation of JavaScript
    rounds its exact result (binary64, round to nearest, ties to even): 53
    significant bits, the last one worth at least [2^-1074], and an infinity
    from [2^1024] on. *)
Definition round_double (q : Q) : jsfloat :=
  if Qnum q =? 0 then Finite 0
  else
    let a := Qabs q in
    let e := Z.max (-1074) (floor_log2 a - 52) in
    let m := round_half_even (scale_down a e) in
    if (971 <? e) || ((e =? 971) && (m =? 2 ^ 53))
    then if 0 <? Qnum q then PlusInfinity else MinusInfinity
    else Finite (if 0 <? Qnum q then scale_up m e else (- scale_up m e)%Q).

(** [a / b] for integers [a], [b]. *)
Definition js_div (a b : Z) : jsfloat :=
  if b =? 0 then
    if a =? 0 then NaN else if a >? 0 then PlusInfinity else MinusInfinity
  else round_double (inject_Z a / inject_Z b)%Q.

(** [x * k] for an integer [k]. *)
Definition js_mul (x : jsfloat) (k : Z) : jsfloat :=
  match x with
  | Finite q => round_double (q * inject_Z k)%Q
  | NaN => NaN
  | PlusInfinity => if k >? 0 then PlusInfinity else if k =? 0 then NaN else MinusInfinity
  | MinusInfinity => if k >? 0 then MinusInfinity else if k =? 0 then NaN else PlusInfinity
  end.

(** [`${Math.round(x)}`] *)
Definition show_rounded (x : jsfloat) : string :=
  match x with
  | Finite q => show_Z (Math_round q)
  | NaN => "NaN"
  | PlusInfinity => "Infinity"
  | MinusInfinity => "-Infinity"
  end.

(** [`${x}`] for an optional number and an optional string. *)
Definition show_opt_Z (o : option Z) : string :=
  match o with Some z => show_Z z | None => "undefined" end.
Definition show_opt_string (o : option string) : string :=
  match o with Some s => s | None => "undefined" end.

Definition newline : string := String (ascii_of_nat 10) EmptyString.

(** [s.repeat(n)] *)
Fixpoint repeat_string (s : string) (n : nat) : string :=
  match n with O => "" | S n' => s +++ repeat_string s n' end.

(** [for (const x of xs) output += f(x)], from the empty string. *)
Definition concat_map {X} (f : X -> string) (xs : list X) : string :=
  fold_right (fun x output => f x +++ output) "" xs.

(** ** src/utils/tcp.ts *)

Module Tcp.

Record ConnResult : Type :=
  { success : bool; responseTime : option Z; error : option string }.

(** The options of [tcping]; the numbers are integers. *)
Record TcpingOptions : Type :=
  { opt_host : string; opt_port : Z;
    opt_timeout : option Z; opt_count : option Z; opt_interval : option Z }.

Section WithNetwork.

Variable net : Network.

(** The three [resolve] calls of [tcpConnect]: what the promise resolves
    with, by the callback that runs first. *)
Definition outcome (timeout : Z) (attempt : Attempt) : ConnResult :=
  match settledBy attempt with
  | OnTimeout =>
      {| success := false; responseTime := None;
         error := Some ("Connection timeout after " +++ show_Z timeout +++ "ms") |}
  | OnConnect now =>
      {| success := true; responseTime := Some (now - startTime attempt);
         error := None |}
  | OnError message =>
      {| success := false; responseTime := None; error := Some message |}
  end.

(** The executor arms the timer and calls [socket.connect]; when that call
    throws, the promise rejects with what was thrown, and the timer, which
    stays armed, finds the promise settled. *)
Definition tcpConnect (host : string) (port : Z) (timeout : option Z) : IO ConnResult :=
  fun log =>
    let timeout := default_to 3000 timeout in
    let call := {| call_host := host; call_port := port; call_timeout := timeout |} in
    if isLegalPort port
    then (Resolved (outcome timeout (net log call)), log ++ [Probe call])
    else (Rejected (ERR_SOCKET_BAD_PORT port), log ++ [Probe call]).

(** The object returned by [tcping]; [ok] is its [success] field. *)
Record TcpingResult : Type :=
  { host : string; port : Z; ok : bool; attempts : Z; successfulAttempts : Z;
    averageTime : option Z; minTime : option Z; maxTime : option Z;
    results : list ConnResult }.

(** [results.filter(r => r.responseTime).map(r => r.responseTime!)] *)
Definition responseTimesOf (results : list ConnResult) : list Z :=
  map (fun r => default_to 0 (responseTime r))
      (filter (fun r => truthy (responseTime r)) results).

(** The object literal returned by [tcping], from the attempts made. *)
Definition summarise (host : string) (port count : Z) (results : list ConnResult)
  : TcpingResult :=
  let successfulAttempts := Z.of_nat (List.length (filter success results)) in
  let responseTimes := responseTimesOf results in
  let n := Z.of_nat (List.length responseTimes) in
  {| host := host;
     port := port;
     ok := successfulAttempts >? 0;
     attempts := count;
     successfulAttempts := successfulAttempts;
     averageTime :=
       if n >? 0
       then option_map (fun sum => Math_round (inject_Z sum / inject_Z n))
                       (reduce Z.add responseTimes)
       else None;
     minTime := if n >? 0 then reduce Z.min responseTimes else None;
     maxTime := if n >? 0 then reduce Z.max responseTimes else None;
     results := results |}.

(** The body of the loop over the attempts: probe, record the outcome, and
    pause unless this was the last attempt. *)
Definition attempt (host : string) (port timeout count interval : Z)
  (i : Z) (results : list ConnResult) : IO (list ConnResult) :=
  (result <- tcpConnect host port (Some timeout) ;;
   let results := results ++ [result] in
   (if i <? count - 1 then sleep interval else ret tt) ;;;
   ret results)%io.

Definition tcping (options : TcpingOptions) : IO TcpingResult :=
  let host := opt_host options in
  let port := opt_port options in
  let timeout := default_to 3000 (opt_timeout options) in
  let count := default_to 4 (opt_count options) in
  let interval := default_to 1000 (opt_interval options) in
  (results <-
     for_loop (Z.to_nat count) (fun i => i <? count) 0
       (attempt host port timeout count interval) [] ;;
   ret (summarise host port count results))%io.

End WithNetwork.

End Tcp.

(** ** src/index.ts: the tool handlers *)

Module Server.

Import Tcp.

(** The input schemas of the ListTools reply, without the descriptions. *)
#[warnings="-register-all"]
Inductive Schema : Type :=
| SString
| SNumber (default : option Z)
| SBoolean
| SArray (items : Schema)
| SObject (properties : list (string * Schema)) (required : list string).

Record Tool : Type := { tool_name : string; inputSchema : Schema }.

Definition ListTools : list Tool :=
  [ {| tool_name := "tcping";
       inputSchema :=
         SObject [("host", SString);
                  ("port", SNumber None);
                  ("timeout", SNumber (Some 3000));
                  ("count", SNumber (Some 4));
                  ("interval", SNumber (Some 1000))]
                 ["host"; "port"] |};
    {| tool_name := "validate_firewall_rule";
       inputSchema :=
         SObject [("rules",
                   SArray (SObject [("name", SString);
                                    ("host", SString);
                                    ("port", SNumber None);
                                    ("expected", SBoolean)]
                                   ["name"; "host"; "port"; "expected"]));
                  ("timeout", SNumber (Some 3000))]
                 ["rules"] |};
    {| tool_name := "network_scan";
       inputSchema :=
         SObject [("host", SString);
                  ("startPort", SNumber None);
                  ("endPort", SNumber None);
                  ("timeout", SNumber (Some 1000))]
                 ["host"; "startPort"; "endPort"] |} ].

Section WithNetwork.

Variable net : Network.

(** One line of the [forEach] over [result.results]; [index] counts from 0. *)
Definition attempt_line (index : Z) (attemptResult : ConnResult) : string :=
  if success attemptResult
  then "  Attempt " +++ show_Z (index + 1) +++ ": Connected - "
       +++ show_opt_Z (responseTime attemptResult) +++ "ms" +++ newline
  else "  Attempt " +++ show_Z (index + 1) +++ ": Failed - "
       +++ show_opt_string (error attemptResult) +++ newline.

Fixpoint attempt_lines (index : Z) (rs : list ConnResult) : string :=
  match rs with
  | [] => ""
  | r :: rest => attempt_line index r +++ attempt_lines (index + 1) rest
  end.

(** The "Success Rate" line of the summary. *)
Definition success_rate_line (result : TcpingResult) : string :=
  "  Success Rate: " +++ show_Z (successfulAttempts result) +++ "/"
  +++ show_Z (attempts result) +++ " ("
  +++ show_rounded (js_mul (js_div (successfulAttempts result) (attempts result)) 100)
  +++ "%)" +++ newline.

Definition response_times_line (result : TcpingResult) : string :=
  "  Response Times: min=" +++ show_opt_Z (minTime result) +++ "ms, avg="
  +++ show_opt_Z (averageTime result) +++ "ms, max="
  +++ show_opt_Z (maxTime result) +++ "ms" +++ newline.

(** The text of the tool reply built from the aggregate. *)
Definition render_tcping (result : TcpingResult) : string :=
  let output := "TCPING " +++ host result +++ ":" +++ show_Z (port result) +++ newline in
  let output := output +++ newline +++ "Results:" +++ newline in
  let output := output +++ attempt_lines 0 (results result) in
  let output := output +++ newline +++ "Summary:" +++ newline in
  let output := output +++ success_rate_line result in
  if truthy (averageTime result) then output +++ response_times_line result else output.

Definition handleTcping (options : TcpingOptions) : IO string :=
  (result <- tcping net options ;;
   ret (render_tcping result))%io.

Record FirewallRule : Type :=
  { rule_name : string; rule_host : string; rule_port : Z; rule_expected : bool }.

Record FirewallRuleResult : Type :=
  { name : string; fw_host : string; fw_port : Z; expected : bool;
    actual : bool; passed : bool;
    fw_responseTime : option Z; fw_error : option string }.

(** The text appended to [output] for one rule. *)
Definition rule_block (rule : FirewallRule) (result : ConnResult) : string :=
  let status := if Bool.eqb (success result) (rule_expected rule)
                then "✅ PASS" else "❌ FAIL" in
  let actualResult := if success result then "CONNECTED" else "BLOCKED/FAILED" in
  let expectedResult := if rule_expected rule then "CONNECTED" else "BLOCKED" in
  "Rule: " +++ rule_name rule +++ newline
  +++ "  Target: " +++ rule_host rule +++ ":" +++ show_Z (rule_port rule) +++ newline
  +++ "  Expected: " +++ expectedResult +++ newline
  +++ "  Actual: " +++ actualResult +++ newline
  +++ "  Status: " +++ status +++ newline
  +++ (if success result && truthy (responseTime result)
       then "  Response Time: " +++ show_opt_Z (responseTime result) +++ "ms" +++ newline
       else if negb (success result)
               && match error result with Some e => negb (String.eqb e "") | None => false end
       then "  Error: " +++ show_opt_string (error result) +++ newline
       else "")
  +++ newline.

Definition rule_result (rule : FirewallRule) (result : ConnResult) : FirewallRuleResult :=
  {| name := rule_name rule;
     fw_host := rule_host rule;
     fw_port := rule_port rule;
     expected := rule_expected rule;
     actual := success result;
     passed := Bool.eqb (success result) (rule_expected rule);
     fw_responseTime := responseTime result;
     fw_error := error result |}.

(** The body of the loop over the rules: one probe, one block of text, one
    entry pushed on [results]. *)
Definition rule_step (timeout : Z) (rule : FirewallRule)
  (st : list FirewallRuleResult * string) : IO (list FirewallRuleResult * string) :=
  let '(results, output) := st in
  (result <- tcpConnect net (rule_host rule) (rule_port rule) (Some timeout) ;;
   ret (results ++ [rule_result rule result], output +++ rule_block rule result))%io.

(** The handler returns the text only; the embedding also returns the
    [results] array the handler builds, which the summary is computed from. *)
Definition handleFirewallValidation (rules : list FirewallRule) (timeout : option Z)
  : IO (list FirewallRuleResult * string) :=
  let timeout := default_to 3000 timeout in
  let output := "Firewall Rule Validation Results:" +++ newline in
  let output := output +++ repeat_string "=" 50 +++ newline +++ newline in
  (st <- for_of rules (rule_step timeout) ([], output) ;;
   let '(results, output) := st in
   let passedRules := Z.of_nat (List.length (filter passed results)) in
   let output := output +++ "Overall Result: " +++ show_Z passedRules +++ "/"
                 +++ show_Z (Z.of_nat (List.length results)) +++ " rules passed" +++ newline in
   ret (results, output))%io.

Record OpenPort : Type := { op_port : Z; op_responseTime : option Z }.

(** The body of the loop over the ports: one probe, and for an open port an
    entry pushed on [openPorts] and a line of text. *)
Definition scan_step (host : string) (timeout : Z) (port : Z)
  (st : list OpenPort * string) : IO (list OpenPort * string) :=
  let '(openPorts, output) := st in
  (result <- tcpConnect net host port (Some timeout) ;;
   if success result
   then ret (openPorts ++ [{| op_port := port; op_responseTime := responseTime result |}],
             output +++ "Port " +++ show_Z port +++ ": OPEN ("
             +++ show_opt_Z (responseTime result) +++ "ms)" +++ newline)
   else ret (openPorts, output))%io.

(** As for the firewall handler, the [openPorts] array is returned next to
    the text. *)
Definition handleNetworkScan (host : string) (startPort endPort : Z) (timeout : option Z)
  : IO (list OpenPort * string) :=
  let timeout := default_to 1000 timeout in
  let output := "Network Scan: " +++ host +++ ":" +++ show_Z startPort +++ "-"
                +++ show_Z endPort +++ newline in
  let output := output +++ repeat_string "=" 50 +++ newline +++ newline in
  (st <- for_loop (Z.to_nat (endPort - startPort + 1)) (fun port => port <=? endPort)
           startPort (scan_step host timeout) ([], output) ;;
   let '(openPorts, output) := st in
   let output :=
     if Nat.eqb (List.length openPorts) 0
     then output +++ "No open ports found in the specified range." +++ newline
     else output +++ newline +++ "Summary: Found "
          +++ show_Z (Z.of_nat (List.length openPorts)) +++ " open ports" +++ newline in
   ret (openPorts, output))%io.

(** [handleTcping] of the single-file revision of the server
    ([src/index.ts] before the split into [utils/]): the private [tcpConnect]
    method and the loop have the text of the exported ones, the aggregate is
    computed in place, and the last line is guarded by
    [responseTimes.length > 0]. *)
Definition handleTcping_inline (options : TcpingOptions) : IO string :=
  let host := opt_host options in
  let port := opt_port options in
  let timeout := default_to 3000 (opt_timeout options) in
  let count := default_to 4 (opt_count options) in
  let interval := default_to 1000 (opt_interval options) in
  (results <-
     for_loop (Z.to_nat count) (fun i => i <? count) 0
       (attempt net host port timeout count interval) [] ;;
   let tcpingResult := summarise host port count results in
   let output := "TCPING " +++ host +++ ":" +++ show_Z port +++ newline in
   let output := output +++ newline +++ "Results:" +++ newline in
   let output := output +++ attempt_lines 0 results in
   let output := output +++ newline +++ "Summary:" +++ newline in
   let output := output +++ success_rate_line tcpingResult in
   ret (if Z.of_nat (List.length (responseTimesOf results)) >? 0
        then output +++ response_times_line tcpingResult
        else output))%io.

(** [request.params.arguments], with the properties the three schemas
    declare: the required ones as given, the others [None] when left out.
    A handler reads the properties of its own schema only. *)
Record ToolArguments : Type :=
  { arg_host : string; arg_port : Z;
    arg_timeout : option Z; arg_count : option Z; arg_interval : option Z;
    arg_rules : list FirewallRule;
    arg_startPort : Z; arg_endPort : Z }.

(** The reply to a CallTool request: the text of its one content item, and
    [isError], which only the [catch] branch sets. *)
Record ToolReply : Type := { isError : bool; text : string }.

(** [error.message]: the text given to [new Error], or the wording of Node
    for a refused port, which differs between its versions. *)
Variable badPortMessage : Z -> string.

Definition message (error : Exception) : string :=
  match error with
  | ERR_SOCKET_BAD_PORT port => badPortMessage port
  | Error text => text
  end.

Definition CallTool (name : string) (args : ToolArguments) : IO ToolReply :=
  try_catch
    (if String.eqb name "tcping" then
       (output <- handleTcping {| opt_host := arg_host args; opt_port := arg_port args;
                                  opt_timeout := arg_timeout args;
                                  opt_count := arg_count args;
                                  opt_interval := arg_interval args |} ;;
        ret {| isError := false; text := output |})%io
     else if String.eqb name "validate_firewall_rule" then
       (st <- handleFirewallValidation (arg_rules args) (arg_timeout args) ;;
        ret {| isError := false; text := snd st |})%io
     else if String.eqb name "network_scan" then
       (st <- handleNetworkScan (arg_host args) (arg_startPort args) (arg_endPort args)
                (arg_timeout args) ;;
        ret {| isError := false; text := snd st |})%io
     else throw (Error ("Unknown tool: " +++ name)))
    (fun error => ret {| isError := true; text := "Error: " +++ message error |}).

End WithNetwork.

End Server.

(** ** The vocabulary of the specification *)

Module Spec.

Import Tcp.

(** The response times of the successful attempts, in order. *)
Definition successTimes (results : list ConnResult) : list Z :=
  flat_map (fun r => if success r
                     then match responseTime r with Some t => [t] | None => [] end
                     else [])
           results.

(** The arithmetic mean of a non-empty list, rounded to the nearest integer. *)
Definition rounded_mean (ts : list Z) : Z :=
  Math_round (inject_Z (fold_right Z.add 0 ts) / inject_Z (Z.of_nat (List.length ts))).

Definition minimum (ts : list Z) : option Z :=
  match ts with [] => None | t :: rest => Some (fold_right Z.min t rest) end.
Definition maximum (ts : list Z) : option Z :=
  match ts with [] => None | t :: rest => Some (fold_right Z.max t rest) end.

(** The value of a string of decimal digits. *)
Definition decimal (s : list ascii) : Z :=
  fold_left (fun acc c => 10 * acc + digit_value c) s 0.

Definition all_digits (s : list ascii) : bool :=
  negb (Nat.eqb (List.length s) 0) && forallb is_digit s.

(** An octet: a decimal numeral with a value in [0, 255]. *)
Definition octet (s : list ascii) : bool := all_digits s && (decimal s <=? 255).

(** Shape (a): four octets separated by dots. *)
Definition ipv4_shape (h : string) : bool :=
  let parts := split_on "." (chars h) in
  Nat.eqb (List.length parts) 4 && forallb octet parts.

(** A label [[A-Za-z0-9]([A-Za-z0-9-]*[A-Za-z0-9])?]. *)
Definition label (l : list ascii) : bool :=
  match l with
  | [] => false
  | c :: rest =>
      is_alnum c &&
      match rest with
      | [] => true
      | _ => forallb is_alnum_dash (removelast rest) && is_alnum (last rest c)
      end
  end.

(** Shape (c): labels separated by dots. *)
Definition hostname_shape (h : string) : bool :=
  forallb label (split_on "." (chars h)).

(** A string made only of numerals of one to three digits separated by dots:
    what the validator reads as an attempt at an IPv4 address. *)
Definition short_numeral (s : list ascii) : bool :=
  all_digits s && Nat.leb (List.length s) 3.
Definition ipv4_like (h : string) : bool :=
  forallb short_numeral (split_on "." (chars h)).

(** A group of an IPv6 literal: one to four hexadecimal digits. *)
Definition hex_group (g : list ascii) : bool :=
  Nat.leb 1 (List.length g) && Nat.leb (List.length g) 4 && forallb is_hex g.

(** Shape (b), in hexadecimal notation: the eight groups, or the groups left
    and right of one [::] that stands for the groups left out. *)
Definition ipv6_hex_shape (h : string) : Prop :=
  (exists gs, List.length gs = 8%nat /\ forallb hex_group gs = true /\
              chars h = join_with ":" gs)
  \/
  (exists front back,
      (List.length front + List.length back <= 7)%nat /\
      forallb hex_group front = true /\ forallb hex_group back = true /\
      chars h = join_with ":" front ++ chars "::" ++ join_with ":" back).

(** The ports of [start..end], ascending. *)
Definition ports_from (first : Z) (n : nat) : list Z :=
  map (fun k => first + Z.of_nat k) (seq 0 n).
Definition port_range (first last : Z) : list Z :=
  ports_from first (Z.to_nat (last - first + 1)).

(** A probe outcome as the connector makes them: a success with its
    response time and no message, or a failure with its message and no
    response time. *)
Definition from_connector (r : ConnResult) : Prop :=
  (success r = true /\ (exists t, responseTime r = Some t) /\ error r = None) \/
  (success r = false /\ responseTime r = None /\ exists m, error r = Some m).

(** The outcomes of connector calls made one after the other, the first one
    with [log] behind it. *)
Fixpoint probe_all (net : Network) (log : list Effect) (calls : list Call)
  : list ConnResult :=
  match calls with
  | [] => []
  | c :: rest =>
      outcome (call_timeout c) (net log c) :: probe_all net (log ++ [Probe c]) rest
  end.

(** The connector call made for a firewall rule, and for a port of a scan. *)
Definition rule_call (timeout : Z) (rule : Server.FirewallRule) : Call :=
  {| call_host := Server.rule_host rule; call_port := Server.rule_port rule;
     call_timeout := timeout |}.
Definition scan_call (host : string) (timeout : Z) (port : Z) : Call :=
  {| call_host := host; call_port := port; call_timeout := timeout |}.

(** The entry of [openPorts] for a port and the outcome of its probe. *)
Definition open_port (po : Z * ConnResult) : Server.OpenPort :=
  {| Server.op_port := fst po; Server.op_responseTime := responseTime (snd po) |}.

(** The characters a host name or address is written with: letters, digits,
    the hyphen, the dot, the colon and the percent sign. *)
Definition host_char (c : ascii) : bool :=
  is_alnum c || is_char "-" c || is_char "." c || is_char ":" c || is_char "%" c.

(** The default a tool advertises for a numeric property of its arguments. *)
Definition default_of (tool property : string) : option Z :=
  match find (fun t => String.eqb (Server.tool_name t) tool) Server.ListTools with
  | Some {| Server.inputSchema := Server.SObject properties _ |} =>
      match find (fun p => String.eqb (fst p) property) properties with
      | Some (_, Server.SNumber default) => default
      | _ => None
      end
  | _ => None
  end.

(** [{...args, [property]: value}] for the optional numeric properties. *)
Definition with_number (property : string) (value : option Z) (args : Server.ToolArguments)
  : Server.ToolArguments :=
  let timeout := if String.eqb property "timeout" then value else Server.arg_timeout args in
  let count := if String.eqb property "count" then value else Server.arg_count args in
  let interval := if String.eqb property "interval" then value else Server.arg_interval args in
  {| Server.arg_host := Server.arg_host args; Server.arg_port := Server.arg_port args;
     Server.arg_timeout := timeout; Server.arg_count := count;
     Server.arg_interval := interval;
     Server.arg_rules := Server.arg_rules args;
     Server.arg_startPort := Server.arg_startPort args;
     Server.arg_endPort := Server.arg_endPort args |}.

(** The effects of [n] attempts on one target: a pause after each probe but
    the last. *)
Fixpoint schedule (call : Call) (interval : Z) (n : nat) : list Effect :=
  match n with
  | O => []
  | S O => [Probe call]
  | S n' => Probe call :: Sleep interval :: schedule call interval n'
  end.

(** The rules whose ports [socket.connect] accepts. *)
Definition legal_rules (rules : list Server.FirewallRule) : bool :=
  forallb (fun rule => isLegalPort (Server.rule_port rule)) rules.

(** The IPv4-shaped strings: digits and dots. *)
Definition digits_and_dots (h : string) : bool :=
  forallb (fun c => is_digit c || is_char "." c) (chars h).

(** An octet at the end of an IPv6 literal: one or two digits, or three
    digits with a value in [100, 255]. *)
Definition v4_octet (s : list ascii) : bool :=
  all_digits s && Nat.leb (List.length s) 3 && (decimal s <=? 255)
  && (Nat.leb (List.length s) 2 || (100 <=? decimal s)).

(** Shape (b) with the last two groups written as a dotted quad: four such
    octets after [::], after [::ffff:], after [::ffff:0:] (one to four
    zeros), or after one to four groups and [::]. *)
Definition ipv6_mixed_shape (h : string) : Prop :=
  exists lead quad,
    List.length quad = 4%nat /\ forallb v4_octet quad = true /\
    chars h = lead ++ join_with "." quad /\
    (lead = chars "::" \/
     lead = chars "::ffff:" \/
     (exists zeros,
         (1 <= List.length zeros <= 4)%nat /\ forallb (is_char "0") zeros = true /\
         lead = chars "::ffff:" ++ zeros ++ chars ":") \/
     (exists front,
         (1 <= List.length front <= 4)%nat /\ forallb hex_group front = true /\
         lead = join_with ":" front ++ chars "::")).

(** Shape (b) with a zone: [fe80:], at most four times a colon and at most
    four hexadecimal digits, then [%] and a zone of letters and digits. *)
Definition ipv6_zone_shape (h : string) : Prop :=
  exists groups zone,
    (List.length groups <= 4)%nat /\
    forallb (fun g => Nat.leb (List.length g) 4 && forallb is_hex g) groups = true /\
    zone <> [] /\ forallb is_alnum zone = true /\
    chars h = chars "fe80:" ++ List.concat (map (fun g => ":"%char :: g) groups)
              ++ "%"%char :: zone.

(** Shape (b), as far as the validator knows it. *)
Definition ipv6_shape (h : string) : Prop :=
  ipv6_hex_shape h \/ ipv6_mixed_shape h \/ ipv6_zone_shape h.

End Spec.

(** ** Networks to run the handlers against *)

Module Scenario.

(** A listener on the machine itself: the first handshake completes within
    the millisecond it started in, the later ones take 10 ms. *)
Definition local_listener : Network :=
  fun log _ =>
    match probes log with
    | [] => {| startTime := 1000; settledBy := OnConnect 1000 |}
    | _ => {| startTime := 2000; settledBy := OnConnect 2010 |}
    end.

(** A target that accepts every connection in 42 ms. *)
Definition steady : Network :=
  fun _ _ => {| startTime := 500; settledBy := OnConnect 542 |}.

(** A target that refuses every connection. *)
Definition refusing : Network :=
  fun _ _ => {| startTime := 0; settledBy := OnError "connect ECONNREFUSED" |}.

(** A target that never answers. *)
Definition silent : Network :=
  fun _ _ => {| startTime := 0; settledBy := OnTimeout |}.

End Scenario.

(* ================================================================== *)
(** * Part II: lemmas and theorems                                     *)
(* ================================================================== *)

(** ** Regular expressions: the matcher decides the language *)

Module RegexFacts.

Lemma lang_void_inv s : lang Void s -> False.
Proof. inversion 1. Qed.

Lemma lang_eps_inv s : lang Eps s -> s = [].
Proof. inversion 1; reflexivity. Qed.

Lemma lang_class_inv p s : lang (Class p) s -> exists c, s = [c] /\ p c = true.
Proof. inversion 1; subst; eauto. Qed.

Lemma lang_cat_inv r1 r2 s :
  lang (Cat r1 r2) s -> exists s1 s2, s = s1 ++ s2 /\ lang r1 s1 /\ lang r2 s2.
Proof. inversion 1; subst; eauto. Qed.

Lemma lang_alt_inv r1 r2 s : lang (Alt r1 r2) s -> lang r1 s \/ lang r2 s.
Proof. inversion 1; subst; auto. Qed.

Lemma nullable_lang r : nullable r = true <-> lang r [].
Proof.
  induction r; simpl; split; intro H;
    try discriminate; try (now constructor).
  - now apply lang_void_inv in H.
  - apply lang_class_inv in H as (c & E & _); discriminate.
  - apply andb_true_iff in H as [H1 H2].
    change (@nil ascii) with (@nil ascii ++ []).
    constructor; [now apply IHr1 | now apply IHr2].
  - apply lang_cat_inv in H as (s1 & s2 & E & H1 & H2).
    symmetry in E; apply app_eq_nil in E as [-> ->].
    apply andb_true_iff; split; [now apply IHr1 | now apply IHr2].
  - apply orb_true_iff in H as [H | H];
      [apply lang_alt_l; now apply IHr1 | apply lang_alt_r; now apply IHr2].
  - apply orb_true_iff.
    apply lang_alt_inv in H as [H | H]; [left; now apply IHr1 | right; now apply IHr2].
Qed.

Lemma lang_cat_smart r1 r2 s : lang (cat r1 r2) s <-> lang (Cat r1 r2) s.
Proof.
  split; intro H.
  - destruct r1; destruct r2; simpl in H;
      try exact H; try (now apply lang_void_inv in H);
      (change s with ([] ++ s); apply lang_cat; [apply lang_eps | exact H]).
  - apply lang_cat_inv in H as (s1 & s2 & -> & H1 & H2).
    destruct r1; destruct r2; simpl;
      try (now apply lang_void_inv in H1); try (now apply lang_void_inv in H2);
      try (apply lang_eps_inv in H1; subst; exact H2);
      now constructor.
Qed.

Lemma lang_alt_smart r1 r2 s : lang (alt r1 r2) s <-> lang (Alt r1 r2) s.
Proof.
  split; intro H.
  - destruct r1; destruct r2; simpl in H;
      try exact H;
      try (apply lang_alt_r; exact H); try (apply lang_alt_l; exact H).
  - apply lang_alt_inv in H as [H | H];
      destruct r1; destruct r2; simpl;
      try (now apply lang_void_inv in H);
      try exact H; try (now apply lang_alt_l); try (now apply lang_alt_r).
Qed.

(** A non-empty word of [Star r] starts with a non-empty word of [r]. *)
Lemma lang_star_cons_inv r c s :
  lang (Star r) (c :: s) ->
  exists s1 s2, s = s1 ++ s2 /\ lang r (c :: s1) /\ lang (Star r) s2.
Proof.
  intro H. remember (Star r) as r' eqn:Er. remember (c :: s) as w eqn:Ew.
  revert c s Ew. induction H; intros c' s' Ew; try discriminate.
  injection Er as ->.
  destruct s1 as [| a s1].
  - simpl in Ew. now apply IHlang2.
  - simpl in Ew. injection Ew as -> <-. eauto.
Qed.

Lemma deriv_lang c r s : lang (deriv c r) s <-> lang r (c :: s).
Proof.
  revert s. induction r; intro s; simpl.
  - split; intro H; now apply lang_void_inv in H.
  - split; intro H; [now apply lang_void_inv in H | apply lang_eps_inv in H; discriminate].
  - destruct (p c) eqn:E; split; intro H.
    + apply lang_eps_inv in H; subst. now constructor.
    + apply lang_class_inv in H as (c' & E' & Hp). injection E' as _ ->. constructor.
    + now apply lang_void_inv in H.
    + apply lang_class_inv in H as (c' & E' & Hp). injection E' as -> _. congruence.
  - assert (Hl : lang (cat (deriv c r1) r2) s ->  lang (Cat r1 r2) (c :: s)).
    { intro H. apply lang_cat_smart, lang_cat_inv in H as (s1 & s2 & -> & H1 & H2).
      change (c :: s1 ++ s2) with ((c :: s1) ++ s2). constructor; [now apply IHr1 | assumption]. }
    assert (Hr : forall s1 s2, lang r1 (c :: s1) -> lang r2 s2 ->
                               lang (cat (deriv c r1) r2) (s1 ++ s2)).
    { intros s1 s2 H1 H2. apply lang_cat_smart. constructor; [now apply IHr1 | assumption]. }
    destruct (nullable r1) eqn:N; split; intro H.
    + apply lang_alt_smart, lang_alt_inv in H as [H | H]; [now apply Hl |].
      change (c :: s) with ([] ++ c :: s). constructor; [now apply nullable_lang | now apply IHr2].
    + apply lang_alt_smart.
      apply lang_cat_inv in H as (s1 & s2 & E & H1 & H2).
      destruct s1 as [| a s1]; simpl in E.
      * subst s2. apply lang_alt_r. now apply IHr2.
      * injection E as <- ->. apply lang_alt_l. now apply Hr.
    + now apply Hl.
    + apply lang_cat_inv in H as (s1 & s2 & E & H1 & H2).
      destruct s1 as [| a s1]; simpl in E.
      * apply nullable_lang in H1. congruence.
      * injection E as <- ->. now apply Hr.
  - split; intro H.
    + apply lang_alt_smart, lang_alt_inv in H as [H | H];
        [apply lang_alt_l; now apply IHr1 | apply lang_alt_r; now apply IHr2].
    + apply lang_alt_smart.
      apply lang_alt_inv in H as [H | H];
        [apply lang_alt_l; now apply IHr1 | apply lang_alt_r; now apply IHr2].
  - split; intro H.
    + apply lang_cat_smart, lang_cat_inv in H as (s1 & s2 & -> & H1 & H2).
      change (c :: s1 ++ s2) with ((c :: s1) ++ s2). constructor; [now apply IHr | assumption].
    + apply lang_star_cons_inv in H as (s1 & s2 & -> & H1 & H2).
      apply lang_cat_smart. constructor; [now apply IHr | assumption].
Qed.

Lemma matches_lang r s : matches r s = true <-> lang r s.
Proof.
  revert r. induction s as [| c s IH]; intro r; simpl.
  - apply nullable_lang.
  - rewrite IH. apply deriv_lang.
Qed.

(** *** Bounded and unbounded repetition *)

Lemma lang_times_step n r s : lang (Times (S n) r) s <-> lang (Cat r (Times n r)) s.
Proof.
  destruct n as [| n]; [| reflexivity]. simpl. split; intro H.
  - rewrite <- (app_nil_r s). constructor; [assumption | constructor].
  - apply lang_cat_inv in H as (s1 & s2 & -> & H1 & H2).
    apply lang_eps_inv in H2; subst. now rewrite app_nil_r.
Qed.

Lemma lang_times_intro r ss :
  Forall (lang r) ss -> lang (Times (List.length ss) r) (List.concat ss).
Proof.
  induction 1 as [| x ss Hx _ IH]; [constructor |].
  cbn [List.length List.concat]. apply lang_times_step. now constructor.
Qed.

Lemma lang_times_inv n r s :
  lang (Times n r) s ->
  exists ss, List.length ss = n /\ Forall (lang r) ss /\ s = List.concat ss.
Proof.
  revert s. induction n as [| n IH]; intros s H.
  - apply lang_eps_inv in H; subst. exists []; auto.
  - apply lang_times_step, lang_cat_inv in H as (s1 & s2 & -> & H1 & H2).
    apply IH in H2 as (ss & <- & Hss & ->).
    exists (s1 :: ss); auto.
Qed.

Lemma lang_upto_intro n r ss :
  Forall (lang r) ss -> (List.length ss <= n)%nat -> lang (UpTo n r) (List.concat ss).
Proof.
  intro H. revert n. induction H as [| x ss Hx _ IH]; intros n Hn.
  - destruct n; simpl; [constructor | apply lang_alt_l; constructor].
  - destruct n as [| n]; simpl in Hn; [lia |].
    simpl. apply lang_alt_r. constructor; [assumption | apply IH; lia].
Qed.

Lemma lang_upto_inv n r s :
  lang (UpTo n r) s ->
  exists ss, (List.length ss <= n)%nat /\ Forall (lang r) ss /\ s = List.concat ss.
Proof.
  revert s. induction n as [| n IH]; intros s H; simpl in H.
  - apply lang_eps_inv in H; subst. exists []; auto.
  - apply lang_alt_inv in H as [H | H].
    + apply lang_eps_inv in H; subst. exists []; simpl; repeat split; auto; lia.
    + apply lang_cat_inv in H as (s1 & s2 & -> & H1 & H2).
      apply IH in H2 as (ss & Hn & Hss & ->).
      exists (s1 :: ss); simpl; repeat split; auto; lia.
Qed.

Lemma lang_star_intro r ss : Forall (lang r) ss -> lang (Star r) (List.concat ss).
Proof. induction 1; simpl; now constructor. Qed.

Lemma lang_star_inv r s :
  lang (Star r) s -> exists ss, Forall (lang r) ss /\ s = List.concat ss.
Proof.
  intro H. remember (Star r) as r' eqn:E.
  induction H; try discriminate; injection E as ->.
  - exists []; auto.
  - destruct (IHlang2 eq_refl) as (ss & Hss & ->).
    exists (s1 :: ss); auto.
Qed.

Lemma lang_between_intro m n r ss :
  Forall (lang r) ss -> (m <= List.length ss <= n)%nat ->
  lang (Between m n r) (List.concat ss).
Proof.
  intros H [Hm Hn]. destruct m as [| m]; [now apply lang_upto_intro |].
  unfold Between.
  pose proof H as H'. rewrite <- (firstn_skipn (S m) ss) in H'.
  apply Forall_app in H' as [F1 F2].
  rewrite <- (firstn_skipn (S m) ss), concat_app.
  assert (Hf : List.length (firstn (S m) ss) = S m) by (rewrite length_firstn; lia).
  constructor.
  - rewrite <- Hf at 1. now apply lang_times_intro.
  - apply lang_upto_intro; [assumption | rewrite length_skipn; lia].
Qed.

Lemma lang_between_inv m n r s :
  lang (Between m n r) s ->
  exists ss, (m <= List.length ss <= m + (n - m))%nat /\ Forall (lang r) ss /\ s = List.concat ss.
Proof.
  destruct m as [| m]; intro H.
  - apply lang_upto_inv in H as (ss & Hn & Hss & ->).
    exists ss; repeat split; auto; lia.
  - unfold Between in H. apply lang_cat_inv in H as (s1 & s2 & -> & H1 & H2).
    apply lang_times_inv in H1 as (ss1 & L1 & F1 & ->).
    apply lang_upto_inv in H2 as (ss2 & L2 & F2 & ->).
    exists (ss1 ++ ss2). rewrite length_app, concat_app.
    repeat split; try lia; auto. apply Forall_app; auto.
Qed.

Lemma lang_atleast_intro m r ss :
  Forall (lang r) ss -> (m <= List.length ss)%nat -> lang (AtLeast m r) (List.concat ss).
Proof.
  intros H Hm. destruct m as [| m]; [now apply lang_star_intro |].
  unfold AtLeast.
  pose proof H as H'. rewrite <- (firstn_skipn (S m) ss) in H'.
  apply Forall_app in H' as [F1 F2].
  rewrite <- (firstn_skipn (S m) ss), concat_app.
  assert (Hf : List.length (firstn (S m) ss) = S m) by (rewrite length_firstn; lia).
  constructor.
  - rewrite <- Hf at 1. now apply lang_times_intro.
  - now apply lang_star_intro.
Qed.

Lemma lang_atleast_inv m r s :
  lang (AtLeast m r) s ->
  exists ss, (m <= List.length ss)%nat /\ Forall (lang r) ss /\ s = List.concat ss.
Proof.
  destruct m as [| m]; intro H.
  - apply lang_star_inv in H as (ss & Hss & ->).
    exists ss; repeat split; auto; lia.
  - unfold AtLeast in H. apply lang_cat_inv in H as (s1 & s2 & -> & H1 & H2).
    apply lang_times_inv in H1 as (ss1 & L1 & F1 & ->).
    apply lang_star_inv in H2 as (ss2 & F2 & ->).
    exists (ss1 ++ ss2). rewrite length_app, concat_app.
    repeat split; try lia; auto. apply Forall_app; auto.
Qed.

(** *** Character classes and literals *)

Lemma is_char_eq a c : is_char a c = true <-> a = c.
Proof.
  unfold is_char. rewrite N.eqb_eq. split; [| now intros ->].
  intro H. rewrite <- (ascii_N_embedding a), <- (ascii_N_embedding c). now f_equal.
Qed.

Lemma lang_lit c s : lang (Lit c) s <-> s = [c].
Proof.
  unfold Lit. split; intro H.
  - apply lang_class_inv in H as (c' & -> & H). apply is_char_eq in H. now subst.
  - subst. constructor. now apply is_char_eq.
Qed.

Lemma class_pieces_inv p ss :
  Forall (lang (Class p)) ss ->
  List.length (List.concat ss) = List.length ss /\ forallb p (List.concat ss) = true.
Proof.
  induction 1 as [| x ss Hx _ [IHl IHf]]; [auto |].
  apply lang_class_inv in Hx as (c & -> & Hc). simpl. rewrite IHl, Hc, IHf. auto.
Qed.

Lemma class_pieces_intro p s :
  forallb p s = true ->
  exists ss, List.length ss = List.length s /\ Forall (lang (Class p)) ss /\ List.concat ss = s.
Proof.
  induction s as [| c s IH]; simpl; intro H.
  - exists []; auto.
  - apply andb_true_iff in H as [Hc Hs].
    destruct (IH Hs) as (ss & L & F & E).
    exists ([c] :: ss). simpl. rewrite L, E. repeat split; auto.
    constructor; [now constructor | assumption].
Qed.

Lemma lang_between_class m n p s :
  (m <= n)%nat ->
  lang (Between m n (Class p)) s <->
  (m <= List.length s <= n)%nat /\ forallb p s = true.
Proof.
  intro Hmn. split.
  - intro H. apply lang_between_inv in H as (ss & L & F & ->).
    apply class_pieces_inv in F as [Hl Hf]. rewrite Hl. split; [lia | assumption].
  - intros [L F]. apply class_pieces_intro in F as (ss & Hl & F & <-).
    apply lang_between_intro; [assumption | lia].
Qed.

(** *** Items that end with a separator *)

Lemma sep_pieces_intro r sep items :
  Forall (lang r) items ->
  Forall (lang (Cat r (Lit sep))) (map (fun a => a ++ [sep]) items).
Proof.
  induction 1; simpl; constructor; auto.
  constructor; [assumption | now apply lang_lit].
Qed.

Lemma sep_pieces_inv r sep ss :
  Forall (lang (Cat r (Lit sep))) ss ->
  exists items, ss = map (fun a => a ++ [sep]) items /\ Forall (lang r) items.
Proof.
  induction 1 as [| x ss Hx _ (items & -> & F)].
  - exists []; auto.
  - apply lang_cat_inv in Hx as (a & b & -> & Ha & Hb). apply lang_lit in Hb; subst.
    exists (a :: items); auto.
Qed.

Lemma concat_sep_join sep items last :
  List.concat (map (fun a => a ++ [sep]) items) ++ last = join_with sep (items ++ [last]).
Proof.
  induction items as [| a items IH]; [reflexivity |].
  cbn [map List.concat app]. rewrite <- !app_assoc, IH. simpl.
  destruct (items ++ [last]) eqn:E; [now destruct items | reflexivity].
Qed.

End RegexFacts.

(** ** Splitting and joining *)

Module StringFacts.

Lemma split_on_not_nil sep s : split_on sep s <> [].
Proof.
  destruct s as [| c s]; simpl; [discriminate |].
  destruct (is_char sep c); [discriminate |].
  destruct (split_on sep s); discriminate.
Qed.

Lemma join_split sep s : join_with sep (split_on sep s) = s.
Proof.
  induction s as [| c s IH]; [reflexivity |]. simpl.
  destruct (is_char sep c) eqn:E.
  - apply RegexFacts.is_char_eq in E; subst c.
    pose proof (split_on_not_nil sep s) as N.
    destruct (split_on sep s) as [| p rest]; [contradiction |].
    change (join_with sep ([] :: p :: rest)) with ([] ++ sep :: join_with sep (p :: rest)).
    now rewrite IH.
  - pose proof (split_on_not_nil sep s) as N.
    destruct (split_on sep s) as [| p rest]; [contradiction |].
    destruct rest as [| q rest]; simpl in *; now rewrite <- IH.
Qed.

Lemma split_free sep p : free_of sep p = true -> split_on sep p = [p].
Proof.
  induction p as [| c p IH]; simpl; [reflexivity |].
  intro H. apply andb_true_iff in H as [Hc Hp].
  apply negb_true_iff in Hc. rewrite Hc, (IH Hp). reflexivity.
Qed.

Lemma split_app_sep sep p s :
  free_of sep p = true -> split_on sep (p ++ sep :: s) = p :: split_on sep s.
Proof.
  induction p as [| c p IH]; simpl; intro H.
  - replace (is_char sep sep) with true by (symmetry; now apply RegexFacts.is_char_eq).
    reflexivity.
  - apply andb_true_iff in H as [Hc Hp].
    apply negb_true_iff in Hc. rewrite Hc, (IH Hp). reflexivity.
Qed.

Lemma split_join sep pieces :
  pieces <> [] -> forallb (free_of sep) pieces = true ->
  split_on sep (join_with sep pieces) = pieces.
Proof.
  induction pieces as [| p rest IH]; [contradiction |].
  intros _ H. simpl in H. apply andb_true_iff in H as [Hp Hrest].
  destruct rest as [| q rest].
  - simpl. now apply split_free.
  - change (join_with sep (p :: q :: rest)) with (p ++ sep :: join_with sep (q :: rest)).
    rewrite split_app_sep by assumption. f_equal. apply IH; [discriminate | assumption].
Qed.

Lemma split_pieces_free sep s : forallb (free_of sep) (split_on sep s) = true.
Proof.
  induction s as [| c s IH]; [reflexivity |]. simpl.
  destruct (is_char sep c) eqn:E; [exact IH |].
  destruct (split_on sep s) as [| p rest]; simpl in *; rewrite E; simpl; auto.
Qed.

(** A string is cut at its separators in one way only. *)
Lemma split_unique sep s pieces :
  pieces <> [] -> forallb (free_of sep) pieces = true ->
  s = join_with sep pieces -> split_on sep s = pieces.
Proof. intros N F ->. now apply split_join. Qed.

Lemma forallb_impl {A} (p q : A -> bool) l :
  (forall x, p x = true -> q x = true) -> forallb p l = true -> forallb q l = true.
Proof.
  intro Hpq. induction l as [| x l IH]; simpl; [reflexivity |].
  intro H. apply andb_true_iff in H as [Hx Hl]. rewrite (Hpq _ Hx), (IH Hl). reflexivity.
Qed.

Lemma forallb_Forall {A} (p : A -> bool) l :
  forallb p l = true <-> Forall (fun x => p x = true) l.
Proof.
  induction l as [| x l IH]; simpl; split; intro H; auto.
  - apply andb_true_iff in H as [Hx Hl]. constructor; [assumption | now apply IH].
  - inversion H; subst. apply andb_true_iff; split; [assumption | now apply IH].
Qed.

(** Facts on the character classes, by inspection of the 256 characters. *)
Lemma digit_alnum c : is_digit c = true -> is_alnum c = true.
Proof. now destruct c as [[] [] [] [] [] [] [] []]. Qed.

Lemma digit_not_dot c : is_digit c = true -> negb (is_char "." c) = true.
Proof. now destruct c as [[] [] [] [] [] [] [] []]. Qed.

Lemma alnum_dash_not_dot c : is_alnum_dash c = true -> negb (is_char "." c) = true.
Proof. now destruct c as [[] [] [] [] [] [] [] []]. Qed.

Lemma alnum_alnum_dash c : is_alnum c = true -> is_alnum_dash c = true.
Proof. now destruct c as [[] [] [] [] [] [] [] []]. Qed.

Lemma hex_not_dot c : is_hex c = true -> negb (is_char "." c) = true.
Proof. now destruct c as [[] [] [] [] [] [] [] []]. Qed.

Lemma digit_value_bounds c : is_digit c = true -> 0 <= digit_value c <= 9.
Proof.
  destruct c as [[] [] [] [] [] [] [] []]; intro H; try discriminate;
    vm_compute; split; discriminate.
Qed.

End StringFacts.

(** ** The patterns of the validator, as sets of strings *)

Module ValidatorFacts.

Import RegexFacts StringFacts Spec.

Lemma short_numeral_lang s :
  lang (Between 1 3 digit) s <-> short_numeral s = true.
Proof.
  unfold digit, short_numeral, all_digits.
  rewrite lang_between_class by lia.
  rewrite !andb_true_iff, negb_true_iff, Nat.eqb_neq, Nat.leb_le. intuition lia.
Qed.

Lemma hex_group_lang g : lang hex4 g <-> hex_group g = true.
Proof.
  unfold hex4, hex_group.
  rewrite lang_between_class by lia.
  rewrite !andb_true_iff, !Nat.leb_le. intuition lia.
Qed.

Lemma short_numeral_free p : short_numeral p = true -> free_of "." p = true.
Proof.
  unfold short_numeral, all_digits, free_of. rewrite !andb_true_iff.
  intros [[_ H] _]. revert H. apply forallb_impl, digit_not_dot.
Qed.

Lemma label_free l : label l = true -> free_of "." l = true.
Proof.
  destruct l as [| c rest]; [discriminate |]. cbn [label].
  intro H. apply andb_true_iff in H as [Hc H].
  unfold free_of. cbn [forallb].
  rewrite (alnum_dash_not_dot c (alnum_alnum_dash c Hc)). cbn [andb].
  destruct rest as [| d rest]; [reflexivity |].
  apply andb_true_iff in H as [Hmid Hlast].
  rewrite (app_removelast_last c (l := d :: rest)) by discriminate.
  rewrite forallb_app. apply andb_true_iff; split.
  - revert Hmid. apply forallb_impl, alnum_dash_not_dot.
  - cbn [forallb]. rewrite (alnum_dash_not_dot _ (alnum_alnum_dash _ Hlast)). reflexivity.
Qed.

Lemma label_lang l : label l = true -> lang hostLabel l.
Proof.
  destruct l as [| c rest]; [discriminate |]. cbn [label].
  intro H. apply andb_true_iff in H as [Hc H].
  destruct rest as [| d rest].
  - apply lang_alt_l. now constructor.
  - apply andb_true_iff in H as [Hmid Hlast].
    apply lang_alt_r.
    rewrite (app_removelast_last c (l := d :: rest)) by discriminate.
    apply (lang_cat _ _ [c]); [now constructor |].
    constructor; [| now constructor].
    apply class_pieces_intro in Hmid as (ss & _ & F & <-).
    now apply lang_star_intro.
Qed.

(** The four-group pattern: four short numerals between three dots. *)
Lemma ipv4Pattern_lang s :
  lang ipv4Pattern s <->
  exists a b c d, forallb short_numeral [a; b; c; d] = true /\
                  s = join_with "." [a; b; c; d].
Proof.
  unfold ipv4Pattern, dot. split.
  - intro H.
    do 6 (apply lang_cat_inv in H as (? & ? & -> & ? & H)).
    repeat match goal with
           | X : lang (Lit _) _ |- _ => apply lang_lit in X; subst
           | X : lang (Between 1 3 digit) _ |- _ => apply short_numeral_lang in X
           end.
    do 4 eexists. split; [| reflexivity]. cbn [forallb].
    repeat match goal with
           | X : short_numeral _ = true |- _ => rewrite X; clear X
           end.
    reflexivity.
  - intros (a & b & c & d & F & ->). cbn [forallb] in F.
    do 4 (apply andb_true_iff in F as [? F]).
    cbn [join_with].
    apply lang_cat; [now apply short_numeral_lang |].
    apply (lang_cat _ _ ["."%char]); [now apply lang_lit |].
    apply lang_cat; [now apply short_numeral_lang |].
    apply (lang_cat _ _ ["."%char]); [now apply lang_lit |].
    apply lang_cat; [now apply short_numeral_lang |].
    apply (lang_cat _ _ ["."%char]); [now apply lang_lit |].
    now apply short_numeral_lang.
Qed.

(** Numerals that end with a dot, then a last numeral. *)
Lemma dotted_inv r ss last :
  Forall (lang (Cat r dot)) ss -> lang r last ->
  exists pieces, pieces <> [] /\ Forall (lang r) pieces /\
                 List.length pieces = S (List.length ss) /\
                 List.concat ss ++ last = join_with "." pieces.
Proof.
  intros F Hl. apply sep_pieces_inv in F as (items & -> & F).
  exists (items ++ [last]). rewrite length_app, length_map, concat_sep_join. simpl.
  repeat split.
  - now destruct items.
  - apply Forall_app; auto.
  - lia.
Qed.

Lemma dotted_intro r pieces :
  pieces <> [] -> Forall (lang r) pieces ->
  exists ss last, Forall (lang (Cat r dot)) ss /\ lang r last /\
                  S (List.length ss) = List.length pieces /\
                  join_with "." pieces = List.concat ss ++ last.
Proof.
  intros N F.
  destruct (exists_last N) as (items & last & ->).
  apply Forall_app in F as [Fi Fl]. inversion Fl; subst.
  exists (map (fun a => a ++ ["."%char]) items), last.
  rewrite length_map, length_app, concat_sep_join. simpl.
  repeat split; auto; [now apply sep_pieces_intro | lia].
Qed.

Lemma Forall_short pieces :
  Forall (lang (Between 1 3 digit)) pieces <-> forallb short_numeral pieces = true.
Proof.
  rewrite forallb_Forall. split; intro H; eapply Forall_impl; try exact H;
    intros a Ha; now apply short_numeral_lang.
Qed.

Lemma incompleteIpv4_lang s :
  lang incompleteIpv4 s <->
  exists pieces, (1 <= List.length pieces <= 4)%nat /\
                 forallb short_numeral pieces = true /\ s = join_with "." pieces.
Proof.
  unfold incompleteIpv4. split.
  - intro H. apply lang_cat_inv in H as (s1 & s2 & -> & H1 & H2).
    apply lang_between_inv in H1 as (ss & L & F & ->).
    destruct (dotted_inv _ _ _ F H2) as (pieces & N & Fp & Lp & E).
    exists pieces. rewrite <- Forall_short. repeat split; auto; lia.
  - intros (pieces & L & F & ->).
    apply Forall_short in F.
    destruct (dotted_intro (Between 1 3 digit) pieces) as (ss & last & Fs & Hl & Ls & ->); auto.
    { destruct pieces; simpl in L; [lia | discriminate]. }
    constructor; [| assumption].
    apply lang_between_intro; [assumption | lia].
Qed.

Lemma overlongIpv4_lang s :
  lang overlongIpv4 s <->
  exists pieces, (5 <= List.length pieces)%nat /\
                 forallb short_numeral pieces = true /\ s = join_with "." pieces.
Proof.
  unfold overlongIpv4. split.
  - intro H. apply lang_cat_inv in H as (s1 & s2 & -> & H1 & H2).
    apply lang_atleast_inv in H1 as (ss & L & F & ->).
    destruct (dotted_inv _ _ _ F H2) as (pieces & N & Fp & Lp & E).
    exists pieces. rewrite <- Forall_short. repeat split; auto; lia.
  - intros (pieces & L & F & ->).
    apply Forall_short in F.
    destruct (dotted_intro (Between 1 3 digit) pieces) as (ss & last & Fs & Hl & Ls & ->); auto.
    { destruct pieces; simpl in L; [lia | discriminate]. }
    constructor; [| assumption].
    apply lang_atleast_intro; [assumption | lia].
Qed.

Lemma hostnameRegex_lang pieces :
  pieces <> [] -> forallb label pieces = true ->
  lang hostnameRegex (join_with "." pieces).
Proof.
  intros N F. unfold hostnameRegex.
  assert (Fl : Forall (lang hostLabel) pieces).
  { apply forallb_Forall in F. eapply Forall_impl; [| exact F].
    intros a Ha. now apply label_lang. }
  destruct (dotted_intro _ pieces N Fl) as (ss & last & Fs & Hl & _ & ->).
  constructor; [| assumption]. now apply lang_star_intro.
Qed.

End ValidatorFacts.

(** ** What [isValidHost] answers *)

Module HostFacts.

Import RegexFacts StringFacts ValidatorFacts Spec.

Lemma test_true r h : test r h = true <-> lang r (chars h).
Proof. apply matches_lang. Qed.

(** Strings of short numerals are recognised by looking at their pieces. *)
Lemma numerals_by_split (P : nat -> Prop) s :
  (forall n, P n -> (1 <= n)%nat) ->
  (exists pieces, P (List.length pieces) /\ forallb short_numeral pieces = true /\
                  s = join_with "." pieces)
  <-> P (List.length (split_on "." s)) /\ forallb short_numeral (split_on "." s) = true.
Proof.
  intro HP. split.
  - intros (pieces & Hn & F & E).
    rewrite (split_unique "." s pieces); auto.
    + apply HP in Hn. destruct pieces; simpl in Hn; [lia | discriminate].
    + revert F. apply forallb_impl, short_numeral_free.
  - intros [Hn F]. exists (split_on "." s). repeat split; auto.
    symmetry. apply join_split.
Qed.

Lemma ipv4Pattern_test h :
  test ipv4Pattern h =
  Nat.eqb (List.length (split_on "." (chars h))) 4
  && forallb short_numeral (split_on "." (chars h)).
Proof.
  apply eq_true_iff_eq.
  rewrite test_true, ipv4Pattern_lang, andb_true_iff, Nat.eqb_eq.
  rewrite <- (numerals_by_split (fun n => n = 4%nat)) by (intros; lia).
  split.
  - intros (a & b & c & d & F & E). exists [a; b; c; d]. auto.
  - intros (pieces & L & F & E).
    destruct pieces as [| a [| b [| c [| d [| e rest]]]]]; try discriminate.
    exists a, b, c, d. auto.
Qed.

Lemma incompleteIpv4_test h :
  test incompleteIpv4 h =
  Nat.leb (List.length (split_on "." (chars h))) 4
  && forallb short_numeral (split_on "." (chars h)).
Proof.
  apply eq_true_iff_eq.
  rewrite test_true, incompleteIpv4_lang, andb_true_iff, Nat.leb_le.
  rewrite (numerals_by_split (fun n => (1 <= n <= 4)%nat)) by (intros; lia).
  pose proof (split_on_not_nil "." (chars h)) as N.
  destruct (split_on "." (chars h)); [contradiction |]. simpl. intuition lia.
Qed.

Lemma overlongIpv4_test h :
  test overlongIpv4 h =
  Nat.leb 5 (List.length (split_on "." (chars h)))
  && forallb short_numeral (split_on "." (chars h)).
Proof.
  apply eq_true_iff_eq.
  rewrite test_true, overlongIpv4_lang, andb_true_iff, Nat.leb_le.
  apply (numerals_by_split (fun n => (5 <= n)%nat)). intros; lia.
Qed.

Lemma hostnameRegex_test h : hostname_shape h = true -> test hostnameRegex h = true.
Proof.
  unfold hostname_shape. intro F. apply test_true.
  rewrite <- (join_split "." (chars h)).
  apply hostnameRegex_lang; [apply split_on_not_nil | assumption].
Qed.

(** [parseInt] on a numeral. *)
Lemma parse_digits_fold s acc :
  forallb is_digit s = true ->
  parse_digits acc s = fold_left (fun a c => 10 * a + digit_value c) s acc.
Proof.
  revert acc. induction s as [| c s IH]; simpl; intros acc H; [reflexivity |].
  apply andb_true_iff in H as [Hc Hs]. rewrite Hc. now apply IH.
Qed.

Lemma parseInt10_numeral s : all_digits s = true -> parseInt10 s = Some (decimal s).
Proof.
  unfold all_digits, decimal. intro H. apply andb_true_iff in H as [N D].
  destruct s as [| c s]; [discriminate |].
  unfold parseInt10. pose proof D as D'. simpl in D'.
  apply andb_true_iff in D' as [Hc _]. rewrite Hc.
  now rewrite parse_digits_fold.
Qed.

Lemma fold_digits_nonneg s acc :
  forallb is_digit s = true -> 0 <= acc ->
  0 <= fold_left (fun a c => 10 * a + digit_value c) s acc.
Proof.
  revert acc. induction s as [| c s IH]; cbn [fold_left forallb];
    intros acc H Hacc; [assumption |].
  apply andb_true_iff in H as [Hc Hs].
  apply IH; [assumption |]. pose proof (digit_value_bounds c Hc). lia.
Qed.

Lemma decimal_nonneg s : all_digits s = true -> 0 <= decimal s.
Proof.
  unfold all_digits. intro H. apply andb_true_iff in H as [_ D].
  apply fold_digits_nonneg; [assumption | lia].
Qed.

(** The range check of the loop over the four groups accepts an octet. *)
Lemma octet_in_range s :
  octet s = true ->
  nan_ltb (parseInt10 s) 0 || nan_gtb (parseInt10 s) 255 = false.
Proof.
  unfold octet. intro H. apply andb_true_iff in H as [D V].
  rewrite (parseInt10_numeral s D). unfold nan_ltb, nan_gtb.
  pose proof (decimal_nonneg s D). apply Z.leb_le in V.
  apply orb_false_iff; split; [apply Z.ltb_ge; lia |].
  rewrite Z.gtb_ltb. apply Z.ltb_ge; lia.
Qed.

Lemma not_empty_host h : split_on "." (chars h) <> [[]] -> String.eqb h "" = false.
Proof.
  intro H. apply String.eqb_neq. intros ->. now apply H.
Qed.

(** Four octets of at most three digits each: the IPv4 branch accepts. *)
Lemma isValidHost_octets_short h :
  ipv4_shape h = true -> ipv4_like h = true -> isValidHost h = true.
Proof.
  unfold ipv4_shape, ipv4_like. intros S L.
  apply andb_true_iff in S as [Len Oct].
  unfold isValidHost.
  rewrite not_empty_host by (intro E; rewrite E in Len; discriminate).
  unfold match_ipv4. rewrite ipv4Pattern_test, Len, L. cbn [andb nth].
  rewrite Len. cbn [negb].
  destruct (split_on "." (chars h)) as [| a [| b [| c [| d [| e rest]]]]]; try discriminate.
  cbn [forallb] in Oct.
  do 4 (apply andb_true_iff in Oct as [?Ho Oct]).
  cbn [seq existsb nth].
  now rewrite !octet_in_range.
Qed.

(** A hostname that is not a string of short numerals reaches the hostname
    pattern, unless the IPv6 pattern has accepted it before. *)
Lemma isValidHost_hostname h :
  hostname_shape h = true -> ipv4_like h = false -> isValidHost h = true.
Proof.
  intros S L. unfold ipv4_like in L.
  unfold isValidHost.
  rewrite not_empty_host by (intro E; unfold hostname_shape in S; rewrite E in S; discriminate).
  unfold match_ipv4.
  rewrite ipv4Pattern_test, incompleteIpv4_test, overlongIpv4_test, L, !andb_false_r.
  cbn [andb]. rewrite (hostnameRegex_test h S).
  now destruct (test ipv6Regex h).
Qed.

Lemma octet_label s : octet s = true -> label s = true.
Proof.
  unfold octet, all_digits. intro H.
  apply andb_true_iff in H as [H _]. apply andb_true_iff in H as [N D].
  destruct s as [| c rest]; [discriminate N |]. cbn [label].
  cbn [forallb] in D. apply andb_true_iff in D as [Hc Hrest].
  rewrite (digit_alnum c Hc). cbn [andb].
  destruct rest as [| d rest]; [reflexivity |].
  rewrite (app_removelast_last c (l := d :: rest)) in Hrest by discriminate.
  rewrite forallb_app in Hrest. apply andb_true_iff in Hrest as [Hmid Hlast].
  cbn [forallb] in Hlast. rewrite andb_true_r in Hlast.
  rewrite (digit_alnum _ Hlast), andb_true_r.
  revert Hmid. apply forallb_impl. intros x Hx. now apply alnum_alnum_dash, digit_alnum.
Qed.

(** Shape (a) is accepted, whatever the number of digits of its octets. *)
Lemma isValidHost_ipv4_shape h : ipv4_shape h = true -> isValidHost h = true.
Proof.
  intro S. destruct (ipv4_like h) eqn:L.
  - now apply isValidHost_octets_short.
  - apply isValidHost_hostname; [| assumption].
    unfold ipv4_shape in S. apply andb_true_iff in S as [_ Oct].
    unfold hostname_shape. revert Oct. apply forallb_impl, octet_label.
Qed.

End HostFacts.

(** ** IPv6 literals in hexadecimal notation *)

Module Ipv6Facts.

Import RegexFacts StringFacts ValidatorFacts HostFacts Spec.

Lemma lang_any_of_nth k rs s :
  (k < List.length rs)%nat -> lang (nth k rs Void) s -> lang (any_of rs) s.
Proof.
  revert k. induction rs as [| r rs IH]; intros k Hk H; [simpl in Hk; lia |].
  destruct rs as [| r' rs].
  - destruct k as [| k]; [exact H | simpl in Hk; lia].
  - change (any_of (r :: r' :: rs)) with (Alt r (any_of (r' :: rs))).
    destruct k as [| k]; [now apply lang_alt_l |].
    apply lang_alt_r. apply (IH k); [simpl in *; lia | exact H].
Qed.

Lemma Forall_hex gs : forallb hex_group gs = true -> Forall (lang hex4) gs.
Proof.
  intro F. apply forallb_Forall in F. eapply Forall_impl; [| exact F].
  intros g Hg. now apply hex_group_lang.
Qed.

(** Groups, each followed by a colon. *)
Lemma groups_then_colon m n gs :
  forallb hex_group gs = true -> (m <= List.length gs <= n)%nat ->
  lang (Between m n hex4_colon) (List.concat (map (fun g => g ++ [":"%char]) gs)).
Proof.
  intros F L. apply lang_between_intro; [| now rewrite length_map].
  apply sep_pieces_intro. now apply Forall_hex.
Qed.

(** Groups, each preceded by a colon. *)
Lemma colon_then_groups m n gs :
  forallb hex_group gs = true -> (m <= List.length gs <= n)%nat ->
  lang (Between m n colon_hex4) (List.concat (map (fun g => ":"%char :: g) gs)).
Proof.
  intros F L. apply lang_between_intro; [| now rewrite length_map].
  apply Forall_hex in F. clear L.
  induction F as [| g gs Hg _ IH]; cbn [map]; constructor; [| exact IH].
  apply (lang_cat _ _ [":"%char]); [now apply lang_lit | assumption].
Qed.

Lemma join_then_colon gs :
  gs <> [] ->
  join_with ":" gs ++ [":"%char] = List.concat (map (fun g => g ++ [":"%char]) gs).
Proof.
  induction gs as [| g gs IH]; [contradiction |]. intros _.
  destruct gs as [| g' gs].
  - simpl. now rewrite app_nil_r.
  - change (join_with ":" (g :: g' :: gs)) with (g ++ ":"%char :: join_with ":" (g' :: gs)).
    change (List.concat (map (fun g => g ++ [":"%char]) (g :: g' :: gs)))
      with ((g ++ [":"%char]) ++ List.concat (map (fun g => g ++ [":"%char]) (g' :: gs))).
    rewrite <- IH by discriminate.
    now rewrite <- !app_assoc.
Qed.

Lemma colon_then_join gs :
  gs <> [] ->
  ":"%char :: join_with ":" gs = List.concat (map (fun g => ":"%char :: g) gs).
Proof.
  induction gs as [| g gs IH]; [contradiction |]. intros _.
  destruct gs as [| g' gs].
  - simpl. now rewrite app_nil_r.
  - change (join_with ":" (g :: g' :: gs)) with (g ++ ":"%char :: join_with ":" (g' :: gs)).
    change (List.concat (map (fun g => ":"%char :: g) (g :: g' :: gs)))
      with ((":"%char :: g) ++ List.concat (map (fun g => ":"%char :: g) (g' :: gs))).
    rewrite <- IH by discriminate. reflexivity.
Qed.

(** The eight groups. *)
Lemma full_form_lang gs :
  List.length gs = 8%nat -> forallb hex_group gs = true ->
  lang ipv6Regex (join_with ":" gs).
Proof.
  intros L F.
  assert (N : gs <> []) by (intros ->; discriminate).
  destruct (exists_last N) as (front & g & ->).
  rewrite length_app in L. simpl in L.
  rewrite forallb_app in F. apply andb_true_iff in F as [Ff Fg].
  cbn [forallb] in Fg. rewrite andb_true_r in Fg.
  rewrite <- concat_sep_join.
  apply (lang_any_of_nth 0); [simpl; lia |].
  cbn [nth ipv6_alternatives].
  constructor; [apply groups_then_colon; [assumption | lia] | now apply hex_group_lang].
Qed.

(** Groups, [::], groups. *)
Lemma compressed_form_lang front back :
  (List.length front + List.length back <= 7)%nat ->
  forallb hex_group front = true -> forallb hex_group back = true ->
  lang ipv6Regex (join_with ":" front ++ chars "::" ++ join_with ":" back).
Proof.
  intros L Ff Fb. change (chars "::") with ([":"%char] ++ [":"%char]).
  destruct front as [| f front]; destruct back as [| b back].
  - (* "::" *)
    apply (lang_any_of_nth 8); [simpl; lia |]. cbn [nth ipv6_alternatives].
    apply (lang_cat _ _ [":"%char] [":"%char]); [now apply lang_lit |].
    apply lang_alt_r. now apply lang_lit.
  - (* "::" then groups *)
    apply (lang_any_of_nth 8); [simpl; lia |]. cbn [nth ipv6_alternatives].
    change (join_with ":" [] ++ ([":"%char] ++ [":"%char]) ++ join_with ":" (b :: back))
      with ([":"%char] ++ (":"%char :: join_with ":" (b :: back))).
    rewrite colon_then_join by discriminate.
    apply lang_cat; [now apply lang_lit |].
    apply lang_alt_l. apply colon_then_groups; [assumption | simpl in *; lia].
  - (* groups then "::" *)
    apply (lang_any_of_nth 1); [simpl; lia |]. cbn [nth ipv6_alternatives].
    change (join_with ":" []) with (@nil ascii).
    rewrite app_nil_r, app_assoc.
    rewrite join_then_colon by discriminate.
    constructor; [| now apply lang_lit].
    apply groups_then_colon; [assumption | simpl in *; lia].
  - (* groups, "::", groups *)
    rewrite <- app_assoc, app_assoc.
    rewrite join_then_colon by discriminate.
    change ([":"%char] ++ join_with ":" (b :: back))
      with (":"%char :: join_with ":" (b :: back)).
    rewrite colon_then_join by discriminate.
    remember (f :: front) as fs eqn:Efs. remember (b :: back) as bs eqn:Ebs.
    assert (La : (1 <= List.length fs)%nat) by (subst; simpl; lia).
    assert (Lb : (1 <= List.length bs)%nat) by (subst; simpl; lia).
    assert (Cases : (List.length fs = 1 \/ List.length fs = 2 \/ List.length fs = 3 \/
                     List.length fs = 4 \/ List.length fs = 5 \/ List.length fs = 6)%nat)
      by lia.
    destruct Cases as [C | [C | [C | [C | [C | C]]]]].
    + apply (lang_any_of_nth 7); [simpl; lia |]. cbn [nth ipv6_alternatives].
      destruct fs as [| g [| g' fs']]; try discriminate.
      cbn [map List.concat]. rewrite app_nil_r, <- app_assoc.
      constructor; [apply forallb_Forall in Ff; inversion Ff; now apply hex_group_lang |].
      apply (lang_cat _ _ [":"%char]); [now apply lang_lit |].
      apply colon_then_groups; [assumption | simpl in *; lia].
    + apply (lang_any_of_nth 6); [simpl; lia |]. cbn [nth ipv6_alternatives].
      constructor; [apply groups_then_colon | apply colon_then_groups]; auto; lia.
    + apply (lang_any_of_nth 5); [simpl; lia |]. cbn [nth ipv6_alternatives].
      constructor; [apply groups_then_colon | apply colon_then_groups]; auto; lia.
    + apply (lang_any_of_nth 4); [simpl; lia |]. cbn [nth ipv6_alternatives].
      constructor; [apply groups_then_colon | apply colon_then_groups]; auto; lia.
    + apply (lang_any_of_nth 3); [simpl; lia |]. cbn [nth ipv6_alternatives].
      constructor; [apply groups_then_colon | apply colon_then_groups]; auto; lia.
    + apply (lang_any_of_nth 2); [simpl; lia |]. cbn [nth ipv6_alternatives].
      constructor; [apply groups_then_colon; auto; lia |].
      destruct bs as [| h [| h' bs']]; try discriminate; [| simpl in *; lia].
      cbn [map List.concat]. rewrite app_nil_r.
      apply (lang_cat _ _ [":"%char]); [now apply lang_lit |].
      cbn [forallb] in Fb. rewrite andb_true_r in Fb. now apply hex_group_lang.
Qed.

Lemma ipv6_hex_shape_lang h : ipv6_hex_shape h -> lang ipv6Regex (chars h).
Proof.
  intros [(gs & L & F & ->) | (front & back & L & Ff & Fb & ->)].
  - now apply full_form_lang.
  - now apply compressed_form_lang.
Qed.

(** Such a literal holds a colon and no dot. *)
Lemma hex_groups_free gs :
  forallb hex_group gs = true -> free_of "." (join_with ":" gs) = true.
Proof.
  induction gs as [| g gs IH]; [reflexivity |].
  cbn [forallb]. intro F. apply andb_true_iff in F as [Fg Fgs].
  assert (Hg : free_of "." g = true).
  { unfold hex_group in Fg. apply andb_true_iff in Fg as [_ Fg].
    revert Fg. apply forallb_impl, hex_not_dot. }
  destruct gs as [| g' gs]; [exact Hg |].
  change (join_with ":" (g :: g' :: gs)) with (g ++ ":"%char :: join_with ":" (g' :: gs)).
  unfold free_of in *. rewrite forallb_app, Hg. cbn [forallb andb].
  rewrite IH by assumption. reflexivity.
Qed.

Lemma ipv6_hex_shape_free h :
  ipv6_hex_shape h -> free_of "." (chars h) = true /\ chars h <> [].
Proof.
  intros [(gs & L & F & ->) | (front & back & L & Ff & Fb & ->)].
  - split; [now apply hex_groups_free |].
    destruct gs as [| g gs]; [discriminate |].
    cbn [forallb] in F. apply andb_true_iff in F as [Fg _].
    destruct g; [discriminate |]. destruct gs; discriminate.
  - split.
    + unfold free_of. rewrite !forallb_app.
      pose proof (hex_groups_free _ Ff) as H1. pose proof (hex_groups_free _ Fb) as H2.
      unfold free_of in H1, H2. rewrite H1, H2. reflexivity.
    + intro E. apply app_eq_nil in E as [_ E]. discriminate.
Qed.

Lemma isValidHost_ipv6_hex h : ipv6_hex_shape h -> isValidHost h = true.
Proof.
  intro S. destruct (ipv6_hex_shape_free h S) as [Free NE].
  unfold isValidHost.
  replace (String.eqb h "") with false
    by (symmetry; apply String.eqb_neq; intros ->; now apply NE).
  unfold match_ipv4. rewrite ipv4Pattern_test, (split_free "." _ Free).
  cbn [List.length Nat.eqb andb].
  replace (test ipv6Regex h) with true; [reflexivity |].
  symmetry. apply test_true. now apply ipv6_hex_shape_lang.
Qed.

End Ipv6Facts.

(** ** Strings of short numerals *)

Module NumeralFacts.

Import RegexFacts StringFacts ValidatorFacts HostFacts Spec.

Lemma in_all_ascii c : In c all_ascii.
Proof.
  unfold all_ascii. rewrite <- (ascii_nat_embedding c).
  apply in_map, in_seq. pose proof (nat_ascii_bounded c). lia.
Qed.

Lemma needs_sound q r s : needs q r = true -> lang r s -> existsb q s = true.
Proof.
  intros N H. induction H; cbn [needs] in N; try discriminate.
  - rewrite forallb_forall in N. specialize (N c (in_all_ascii c)).
    rewrite H in N. cbn [implb existsb] in *. now rewrite N.
  - rewrite existsb_app. apply orb_true_iff in N as [N | N];
      [rewrite IHlang1 | rewrite IHlang2, orb_true_r]; auto.
  - apply andb_true_iff in N as [N _]. auto.
  - apply andb_true_iff in N as [_ N]. auto.
Qed.

Lemma ipv6Regex_needs_colon : needs (is_char ":") ipv6Regex = true.
Proof. vm_compute. reflexivity. Qed.

Lemma digit_not_colon c : is_digit c = true -> is_char ":" c = false.
Proof. now destruct c as [[] [] [] [] [] [] [] []]. Qed.

Lemma numerals_no_colon pieces :
  forallb short_numeral pieces = true -> existsb (is_char ":") (join_with "." pieces) = false.
Proof.
  induction pieces as [| p rest IH]; [reflexivity |].
  cbn [forallb]. intro F. apply andb_true_iff in F as [Fp Frest].
  assert (Hp : existsb (is_char ":") p = false).
  { unfold short_numeral, all_digits in Fp.
    apply andb_true_iff in Fp as [Fp _]. apply andb_true_iff in Fp as [_ Fp].
    clear - Fp. induction p as [| c p IHp]; [reflexivity |].
    cbn [forallb existsb] in *. apply andb_true_iff in Fp as [Hc Hp].
    now rewrite (digit_not_colon c Hc), IHp. }
  destruct rest as [| q rest]; [exact Hp |].
  change (join_with "." (p :: q :: rest)) with (p ++ "."%char :: join_with "." (q :: rest)).
  rewrite existsb_app, Hp. cbn [existsb orb]. now apply IH.
Qed.

Lemma ipv6Regex_rejects_numerals h : ipv4_like h = true -> test ipv6Regex h = false.
Proof.
  unfold ipv4_like. intro L.
  destruct (test ipv6Regex h) eqn:E; [| reflexivity].
  apply test_true, (needs_sound _ _ _ ipv6Regex_needs_colon) in E.
  rewrite <- (join_split "." (chars h)), numerals_no_colon in E by assumption.
  discriminate.
Qed.

Lemma short_numeral_range s :
  short_numeral s = true ->
  nan_ltb (parseInt10 s) 0 || nan_gtb (parseInt10 s) 255 = negb (decimal s <=? 255).
Proof.
  unfold short_numeral. intro H. apply andb_true_iff in H as [D _].
  rewrite (parseInt10_numeral s D). unfold nan_ltb, nan_gtb.
  pose proof (decimal_nonneg s D).
  replace (decimal s <? 0) with false by (symmetry; apply Z.ltb_ge; lia).
  rewrite Z.gtb_ltb, Z.leb_antisym, negb_involutive. reflexivity.
Qed.

(** On a string of short numerals the validator answers: four of them, and
    none above 255. *)
Lemma isValidHost_numerals h :
  ipv4_like h = true ->
  isValidHost h =
  Nat.eqb (List.length (split_on "." (chars h))) 4
  && forallb (fun p => decimal p <=? 255) (split_on "." (chars h)).
Proof.
  intro L. pose proof (ipv6Regex_rejects_numerals h L) as V6.
  unfold ipv4_like in L. unfold isValidHost.
  rewrite not_empty_host by (intro E; rewrite E in L; discriminate).
  unfold match_ipv4.
  rewrite ipv4Pattern_test, incompleteIpv4_test, overlongIpv4_test, V6, L, !andb_true_r.
  destruct (Nat.eqb (List.length (split_on "." (chars h))) 4) eqn:Len.
  - cbn [nth]. rewrite Len. cbn [negb andb].
    destruct (split_on "." (chars h)) as [| a [| b [| c [| d [| e rest]]]]]; try discriminate.
    cbn [forallb] in L. do 4 (apply andb_true_iff in L as [?Hs L]).
    cbn [seq existsb nth forallb].
    rewrite !short_numeral_range by assumption.
    destruct (decimal a <=? 255), (decimal b <=? 255), (decimal c <=? 255),
      (decimal d <=? 255); reflexivity.
  - cbn [andb]. apply Nat.eqb_neq in Len.
    destruct (Nat.leb (List.length (split_on "." (chars h))) 4) eqn:Le4.
    + apply Nat.leb_le in Le4.
      replace (Nat.ltb (List.length (split_on "." (chars h))) 4) with true
        by (symmetry; apply Nat.ltb_lt; lia).
      reflexivity.
    + apply Nat.leb_gt in Le4. cbn [andb].
      replace (Nat.leb 5 (List.length (split_on "." (chars h)))) with true
        by (symmetry; apply Nat.leb_le; lia).
      reflexivity.
Qed.

End NumeralFacts.

(** ** The validator, decided *)

Module DecisionFacts.

Import RegexFacts StringFacts ValidatorFacts HostFacts NumeralFacts Spec.

Lemma within_sound q r s : within q r = true -> lang r s -> forallb q s = true.
Proof.
  intros W H. induction H; cbn [within] in W; try reflexivity.
  - rewrite forallb_forall in W. specialize (W c (in_all_ascii c)).
    rewrite H in W. cbn [implb forallb] in *. now rewrite W.
  - apply andb_true_iff in W as [W1 W2]. rewrite forallb_app.
    now rewrite IHlang1, IHlang2.
  - apply andb_true_iff in W as [W1 _]. auto.
  - apply andb_true_iff in W as [_ W2]. auto.
  - rewrite forallb_app. rewrite IHlang1 by assumption.
    apply IHlang2. exact W.
Qed.

(** The three patterns that can accept a host are written with host
    characters only, and the hostname pattern without a colon. *)
Lemma patterns_within :
  within host_char ipv4Pattern = true /\ within host_char ipv6Regex = true /\
  within host_char hostnameRegex = true /\
  within (fun c => negb (is_char ":" c)) hostnameRegex = true.
Proof. vm_compute. repeat split. Qed.

Lemma accepted_by_a_pattern h :
  isValidHost h = true ->
  test ipv4Pattern h = true \/ test ipv6Regex h = true \/ test hostnameRegex h = true.
Proof.
  unfold isValidHost, match_ipv4.
  destruct (String.eqb h ""); [discriminate |].
  destruct (test ipv4Pattern h); [auto |].
  destruct (test ipv6Regex h); [auto |].
  destruct (test incompleteIpv4 h && _); [discriminate |].
  destruct (test overlongIpv4 h); [discriminate |]. auto.
Qed.

(** The hostname pattern, read backwards. *)
Lemma lang_label l : lang hostLabel l -> label l = true.
Proof.
  unfold hostLabel. intro H. apply lang_alt_inv in H as [H | H].
  - apply lang_class_inv in H as (c & -> & Hc). cbn [label]. now rewrite Hc.
  - apply lang_cat_inv in H as (s1 & s2 & -> & H1 & H2).
    apply lang_class_inv in H1 as (c & -> & Hc).
    apply lang_cat_inv in H2 as (mid & s3 & -> & Hm & H3).
    apply lang_class_inv in H3 as (z & -> & Hz).
    apply lang_star_inv in Hm as (ss & F & ->).
    apply class_pieces_inv in F as [_ F].
    cbn [app label]. rewrite Hc. cbn [andb].
    rewrite removelast_last, last_last, F, Hz.
    now destruct (List.concat ss).
Qed.

Lemma hostnameRegex_decides h : test hostnameRegex h = hostname_shape h.
Proof.
  apply eq_true_iff_eq. split; [| apply hostnameRegex_test].
  intro T. apply test_true in T. unfold hostnameRegex in T.
  apply lang_cat_inv in T as (s1 & s2 & E & H1 & H2).
  apply lang_star_inv in H1 as (ss & F & ->).
  destruct (dotted_inv _ _ _ F H2) as (pieces & N & Fp & _ & Ej).
  rewrite Ej in E.
  assert (Fl : forallb label pieces = true).
  { apply forallb_Forall. eapply Forall_impl; [| exact Fp].
    intros a Ha. now apply lang_label. }
  unfold hostname_shape.
  rewrite (split_unique "." (chars h) pieces); auto.
  revert Fl. apply forallb_impl, label_free.
Qed.

Lemma no_colon_in_hostname h :
  existsb (is_char ":") (chars h) = true -> hostname_shape h = false.
Proof.
  intro C. rewrite <- hostnameRegex_decides.
  destruct (test hostnameRegex h) eqn:T; [| reflexivity].
  apply test_true in T.
  destruct patterns_within as (_ & _ & _ & W).
  pose proof (within_sound _ _ _ W T) as F.
  clear - C F. induction (chars h) as [| c l IH]; [discriminate |].
  cbn [existsb forallb] in *. apply andb_true_iff in F as [Fc Fl].
  apply negb_true_iff in Fc. rewrite Fc in C. cbn [orb] in C. auto.
Qed.

Lemma no_colon_in_numerals h :
  existsb (is_char ":") (chars h) = true -> ipv4_like h = false.
Proof.
  intro C. destruct (ipv4_like h) eqn:L; [| reflexivity].
  unfold ipv4_like in L. apply numerals_no_colon in L.
  rewrite join_split in L. congruence.
Qed.

Lemma ipv6Regex_needs_a_colon h :
  existsb (is_char ":") (chars h) = false -> test ipv6Regex h = false.
Proof.
  intro C. destruct (test ipv6Regex h) eqn:T; [| reflexivity].
  apply test_true, (needs_sound _ _ _ ipv6Regex_needs_colon) in T. congruence.
Qed.

Lemma numeral_label s : all_digits s = true -> label s = true.
Proof.
  unfold all_digits. intro H. apply andb_true_iff in H as [N D].
  destruct s as [| c rest]; [discriminate N |]. cbn [label].
  cbn [forallb] in D. apply andb_true_iff in D as [Hc Hrest].
  rewrite (digit_alnum c Hc). cbn [andb].
  destruct rest as [| d rest]; [reflexivity |].
  rewrite (app_removelast_last c (l := d :: rest)) in Hrest by discriminate.
  rewrite forallb_app in Hrest. apply andb_true_iff in Hrest as [Hmid Hlast].
  cbn [forallb] in Hlast. rewrite andb_true_r in Hlast.
  rewrite (digit_alnum _ Hlast), andb_true_r.
  revert Hmid. apply forallb_impl. intros x Hx. now apply alnum_alnum_dash, digit_alnum.
Qed.

Lemma short_numerals_are_labels h : ipv4_like h = true -> hostname_shape h = true.
Proof.
  unfold ipv4_like, hostname_shape. apply forallb_impl.
  intros p Hp. apply numeral_label. unfold short_numeral in Hp.
  now apply andb_true_iff in Hp as [D _].
Qed.

Lemma short_numerals_octets h :
  ipv4_like h = true ->
  forallb octet (split_on "." (chars h))
  = forallb (fun p => decimal p <=? 255) (split_on "." (chars h)).
Proof.
  unfold ipv4_like. induction (split_on "." (chars h)) as [| p ps IH];
    [reflexivity |].
  cbn [forallb]. intro H. apply andb_true_iff in H as [Hp Hps].
  rewrite (IH Hps). f_equal. unfold octet, short_numeral in *.
  apply andb_true_iff in Hp as [D _]. now rewrite D.
Qed.

End DecisionFacts.

(** ** IPv6 literals that end with a dotted quad, or with a zone *)

Module MixedFacts.

Import RegexFacts StringFacts ValidatorFacts HostFacts Ipv6Facts NumeralFacts
  DecisionFacts Spec.

(** With a colon in it, a host is judged by the IPv6 pattern alone. *)
Lemma colon_host h :
  existsb (is_char ":") (chars h) = true -> isValidHost h = test ipv6Regex h.
Proof.
  intro C.
  pose proof (no_colon_in_hostname h C) as Hn.
  pose proof (no_colon_in_numerals h C) as Hl. unfold ipv4_like in Hl.
  assert (NE : String.eqb h "" = false).
  { apply String.eqb_neq. intros ->. discriminate C. }
  unfold isValidHost, match_ipv4.
  rewrite NE, ipv4Pattern_test, incompleteIpv4_test, overlongIpv4_test, Hl, !andb_false_r.
  cbn [andb]. rewrite hostnameRegex_decides, Hn.
  now destruct (test ipv6Regex h).
Qed.

Lemma ipv6Regex_accepted h : lang ipv6Regex (chars h) -> isValidHost h = true.
Proof.
  intro L.
  rewrite colon_host by exact (needs_sound _ _ _ ipv6Regex_needs_colon L).
  now apply test_true.
Qed.

Lemma lang_word w : lang (Word w) w.
Proof.
  induction w as [| c w IH]; [constructor |].
  destruct w as [| d w]; [now apply lang_lit |].
  change (Word (c :: d :: w)) with (Cat (Lit c) (Word (d :: w))).
  apply (lang_cat _ _ [c]); [now apply lang_lit | exact IH].
Qed.

(** *** The octets of the pattern *)

Lemma digit_cases c : is_digit c = true -> In c (chars "0123456789").
Proof.
  intro D.
  assert (T : forallb (fun c => implb (is_digit c)
                                  (existsb (Ascii.eqb c) (chars "0123456789")))
                all_ascii = true) by (vm_compute; reflexivity).
  rewrite forallb_forall in T. specialize (T c (in_all_ascii c)).
  rewrite D in T. cbn [implb] in T.
  apply existsb_exists in T as (d & I & E). apply Ascii.eqb_eq in E. now subst.
Qed.

Lemma v4_octet_table :
  forallb (fun a =>
    implb (v4_octet [a]) (matches v4octet [a]) &&
    forallb (fun b =>
      implb (v4_octet [a; b]) (matches v4octet [a; b]) &&
      forallb (fun c => implb (v4_octet [a; b; c]) (matches v4octet [a; b; c]))
              (chars "0123456789"))
      (chars "0123456789"))
    (chars "0123456789") = true.
Proof. vm_compute. reflexivity. Qed.

Lemma v4_octet_lang s : v4_octet s = true -> lang v4octet s.
Proof.
  intro V. apply matches_lang.
  pose proof V as V'. unfold v4_octet, all_digits in V'.
  apply andb_true_iff in V' as [V' _]. apply andb_true_iff in V' as [V' _].
  apply andb_true_iff in V' as [V' L]. apply andb_true_iff in V' as [N D].
  pose proof v4_octet_table as T. rewrite forallb_forall in T.
  destruct s as [| a [| b [| c [| d s]]]]; try discriminate.
  - cbn [forallb] in D. apply andb_true_iff in D as [Da _].
    specialize (T a (digit_cases a Da)). apply andb_true_iff in T as [T _].
    rewrite V in T. exact T.
  - cbn [forallb] in D. apply andb_true_iff in D as [Da D].
    apply andb_true_iff in D as [Db _].
    specialize (T a (digit_cases a Da)). apply andb_true_iff in T as [_ T].
    rewrite forallb_forall in T. specialize (T b (digit_cases b Db)).
    apply andb_true_iff in T as [T _]. rewrite V in T. exact T.
  - cbn [forallb] in D. apply andb_true_iff in D as [Da D].
    apply andb_true_iff in D as [Db D]. apply andb_true_iff in D as [Dc _].
    specialize (T a (digit_cases a Da)). apply andb_true_iff in T as [_ T].
    rewrite forallb_forall in T. specialize (T b (digit_cases b Db)).
    apply andb_true_iff in T as [_ T].
    rewrite forallb_forall in T. specialize (T c (digit_cases c Dc)).
    rewrite V in T. exact T.
Qed.

Lemma v4tail_lang quad :
  List.length quad = 4%nat -> forallb v4_octet quad = true ->
  lang v4tail (join_with "." quad).
Proof.
  intros L F.
  destruct quad as [| o1 [| o2 [| o3 [| o4 [| o5 quad]]]]]; try discriminate.
  apply forallb_Forall in F.
  assert (F' : Forall (lang v4octet) [o1; o2; o3; o4]).
  { eapply Forall_impl; [| exact F]. intros a Ha. now apply v4_octet_lang. }
  change [o1; o2; o3; o4] with ([o1; o2; o3] ++ [o4]).
  rewrite <- concat_sep_join. unfold v4tail.
  inversion F' as [| ? ? H1 F1]; subst. inversion F1 as [| ? ? H2 F2]; subst.
  inversion F2 as [| ? ? H3 F3]; subst. inversion F3 as [| ? ? H4 _]; subst.
  constructor; [| exact H4].
  apply lang_between_intro; [| cbn; lia].
  apply sep_pieces_intro.
  repeat (apply Forall_cons; [assumption |]). apply Forall_nil.
Qed.

(** *** The two alternatives with a dotted quad *)

Lemma lang_optional r s : lang r s -> lang (Between 0 1 r) s.
Proof.
  intro H. cbn [Between UpTo]. apply lang_alt_r.
  rewrite <- (app_nil_r s). apply lang_cat; [exact H | constructor].
Qed.

Lemma lang_optional_nil r : lang (Between 0 1 r) [].
Proof. cbn [Between UpTo]. apply lang_alt_l. constructor. Qed.

Lemma mixed_form_lang h : ipv6_mixed_shape h -> lang ipv6Regex (chars h).
Proof.
  intros (lead & quad & L & F & -> & Lead).
  pose proof (v4tail_lang quad L F) as T.
  destruct Lead as [-> | [-> | [(zeros & Lz & Fz & ->) | (front & Lf & Ff & ->)]]].
  - (* "::" *)
    apply (lang_any_of_nth 10); [simpl; lia |]. cbn [nth ipv6_alternatives].
    apply lang_cat; [apply lang_word |].
    apply (lang_cat _ _ []); [apply lang_optional_nil | exact T].
  - (* "::ffff:" *)
    apply (lang_any_of_nth 10); [simpl; lia |]. cbn [nth ipv6_alternatives].
    match goal with
    | |- lang ?R _ =>
        change (lang R (chars "::" ++ (chars "ffff" ++ [] ++ [":"%char])
                        ++ join_with "." quad))
    end.
    apply lang_cat; [apply lang_word |].
    apply lang_cat; [| exact T].
    apply lang_optional.
    apply lang_cat; [apply lang_word |].
    apply lang_cat; [apply lang_optional_nil | now apply lang_lit].
  - (* "::ffff:", zeros, ":" *)
    apply (lang_any_of_nth 10); [simpl; lia |]. cbn [nth ipv6_alternatives].
    match goal with
    | |- lang ?R _ =>
        change (lang R (chars "::"
                        ++ (chars "ffff" ++ ([":"%char] ++ zeros) ++ [":"%char])
                        ++ join_with "." quad))
    end.
    apply lang_cat; [apply lang_word |].
    apply lang_cat; [| exact T].
    apply lang_optional.
    apply lang_cat; [apply lang_word |].
    apply lang_cat; [| now apply lang_lit].
    apply lang_optional.
    apply lang_cat; [now apply lang_lit |].
    apply lang_between_class; [lia |]. split; [lia | exact Fz].
  - (* groups, "::" *)
    apply (lang_any_of_nth 11); [simpl; lia |]. cbn [nth ipv6_alternatives].
    match goal with
    | |- lang ?R _ =>
        change (lang R ((join_with ":" front ++ [":"%char] ++ [":"%char])
                        ++ join_with "." quad))
    end.
    rewrite (app_assoc (join_with ":" front)), <- app_assoc.
    rewrite join_then_colon by (intros ->; cbn in Lf; lia).
    apply lang_cat; [apply groups_then_colon; [assumption | lia] |].
    apply (lang_cat _ _ [":"%char]); [now apply lang_lit | exact T].
Qed.

(** *** The alternative with a zone *)

Lemma zone_form_lang h : ipv6_zone_shape h -> lang ipv6Regex (chars h).
Proof.
  intros (groups & zone & L & F & NE & Fz & ->).
  apply (lang_any_of_nth 9); [simpl; lia |]. cbn [nth ipv6_alternatives].
  apply lang_cat; [apply lang_word |].
  apply lang_cat.
  - apply lang_between_intro; [| rewrite length_map; lia].
    apply forallb_Forall in F. clear L.
    induction F as [| g gs Hg _ IH]; cbn [map]; constructor; [| exact IH].
    apply andb_true_iff in Hg as [Lg Hg]. apply Nat.leb_le in Lg.
    apply (lang_cat _ _ [":"%char]); [now apply lang_lit |].
    apply lang_between_class; [lia |]. split; [lia | exact Hg].
  - apply (lang_cat _ _ ["%"%char]); [now apply lang_lit |].
    destruct (class_pieces_intro _ _ Fz) as (ss & Ls & Fs & <-).
    apply lang_atleast_intro; [exact Fs |].
    rewrite Ls. destruct (List.concat ss); [contradiction | cbn; lia].
Qed.

Lemma isValidHost_ipv6_shape h : ipv6_shape h -> isValidHost h = true.
Proof.
  intros [S | [S | S]]; apply ipv6Regex_accepted.
  - now apply ipv6_hex_shape_lang.
  - now apply mixed_form_lang.
  - now apply zone_form_lang.
Qed.

(** *** Hostnames that are not made of digits and dots *)

Lemma numerals_digits_and_dots h : ipv4_like h = true -> digits_and_dots h = true.
Proof.
  unfold ipv4_like, digits_and_dots. intro F.
  rewrite <- (join_split "." (chars h)).
  induction (split_on "." (chars h)) as [| p rest IH]; [reflexivity |].
  cbn [forallb] in F. apply andb_true_iff in F as [Fp Frest].
  assert (Hp : forallb (fun c => is_digit c || is_char "." c) p = true).
  { unfold short_numeral, all_digits in Fp.
    apply andb_true_iff in Fp as [Fp _]. apply andb_true_iff in Fp as [_ Fp].
    revert Fp. apply forallb_impl. intros c Hc. now rewrite Hc. }
  destruct rest as [| q rest]; [exact Hp |].
  change (join_with "." (p :: q :: rest)) with (p ++ "."%char :: join_with "." (q :: rest)).
  rewrite forallb_app, Hp. cbn [forallb andb].
  replace (is_char "." ".") with true by reflexivity.
  rewrite orb_true_r. cbn [andb]. now apply IH.
Qed.

Lemma isValidHost_named h :
  hostname_shape h = true -> digits_and_dots h = false -> isValidHost h = true.
Proof.
  intros S D. apply isValidHost_hostname; [exact S |].
  destruct (ipv4_like h) eqn:L; [| reflexivity].
  rewrite (numerals_digits_and_dots h L) in D. discriminate.
Qed.

End MixedFacts.

(** ** The handlers as computations over the log *)

Module IOFacts.

Import Tcp Spec.

Lemma probes_app l1 l2 : probes (l1 ++ l2) = probes l1 ++ probes l2.
Proof.
  induction l1 as [| [c | ms] l1 IH]; simpl; [reflexivity | now rewrite IH | exact IH].
Qed.

Lemma probes_map_Probe calls : probes (map Probe calls) = calls.
Proof. induction calls; simpl; congruence. Qed.

Lemma isLegalPort_spec port : isLegalPort port = true <-> 0 <= port <= 65535.
Proof. unfold isLegalPort. rewrite andb_true_iff, !Z.leb_le. reflexivity. Qed.

(** The list that has an element out of [legal] has a first one. *)
Lemma first_illegal {X} (legal : X -> bool) xs :
  forallb legal xs = true \/
  exists good bad rest,
    xs = good ++ bad :: rest /\ forallb legal good = true /\ legal bad = false.
Proof.
  induction xs as [| x xs IH]; [now left |].
  cbn [forallb]. destruct (legal x) eqn:Lx.
  - destruct IH as [F | (good & bad & rest & -> & Fg & Lb)]; [now left |].
    right. exists (x :: good), bad, rest. cbn [forallb app]. now rewrite Lx.
  - right. exists [], x, xs. auto.
Qed.

(** A loop whose guard holds [fuel] times and whose body resolves each time
    runs its body [fuel] times, and resolves. *)
Lemma for_loop_counted {A} (I : nat -> A -> list Effect -> Prop)
  fuel cond i (body : Z -> A -> IO A) acc log :
  (forall k, (k < fuel)%nat -> cond (i + Z.of_nat k) = true) ->
  I 0%nat acc log ->
  (forall k acc log, (k < fuel)%nat -> I k acc log ->
     exists acc' log',
       body (i + Z.of_nat k) acc log = (Resolved acc', log') /\ I (S k) acc' log') ->
  exists acc' log',
    for_loop fuel cond i body acc log = (Resolved acc', log') /\ I fuel acc' log'.
Proof.
  revert I i acc log. induction fuel as [| fuel IH]; intros I i acc log Hc H0 Hs.
  - exists acc, log. split; [reflexivity | exact H0].
  - cbn [for_loop].
    pose proof (Hc 0%nat ltac:(lia)) as C0. rewrite Z.add_0_r in C0. rewrite C0.
    unfold bind.
    destruct (Hs 0%nat acc log ltac:(lia) H0) as (acc1 & log1 & E & H1).
    rewrite Z.add_0_r in E. rewrite E.
    apply (IH (fun k => I (S k))).
    + intros k Hk. replace (i + 1 + Z.of_nat k) with (i + Z.of_nat (S k)) by lia.
      apply Hc. lia.
    + exact H1.
    + intros k a l Hk HI.
      replace (i + 1 + Z.of_nat k) with (i + Z.of_nat (S k)) by lia.
      apply Hs; [lia | exact HI].
Qed.

(** Fuel beyond the point where the guard fails is not used. *)
Lemma for_loop_fuel {A} fuel extra cond i (body : Z -> A -> IO A) acc log :
  cond (i + Z.of_nat fuel) = false ->
  for_loop (fuel + extra) cond i body acc log = for_loop fuel cond i body acc log.
Proof.
  revert i acc log. induction fuel as [| fuel IH]; intros i acc log Hc.
  - rewrite Z.add_0_r in Hc. destruct extra; cbn [for_loop Nat.add]; [reflexivity |].
    now rewrite Hc.
  - cbn [for_loop Nat.add]. destruct (cond i); [| reflexivity].
    unfold bind. destruct (body i acc log) as [[acc' | e] log']; [| reflexivity].
    apply IH. replace (i + 1 + Z.of_nat fuel) with (i + Z.of_nat (S fuel)) by lia.
    exact Hc.
Qed.

Lemma ports_from_cons first k :
  ports_from first (S k) = first :: ports_from (first + 1) k.
Proof.
  unfold ports_from. cbn [seq map]. rewrite Z.add_0_r. f_equal.
  rewrite <- seq_shift, map_map. apply map_ext. intro j. lia.
Qed.

(** The loop over the ports of an interval is the loop over their list. *)
Lemma for_loop_for_of {A} n last (body : Z -> A -> IO A) :
  forall first acc log,
    Z.of_nat n = Z.max 0 (last - first + 1) ->
    for_loop n (fun port => port <=? last) first body acc log
    = for_of (ports_from first n) body acc log.
Proof.
  induction n as [| n IH]; intros first acc log E; [reflexivity |].
  rewrite ports_from_cons. cbn [for_loop for_of].
  replace (first <=? last) with true by (symmetry; apply Z.leb_le; lia).
  unfold bind. destruct (body first acc log) as [[acc' | e] log']; [| reflexivity].
  apply IH. lia.
Qed.

Lemma for_of_app {A X} (xs ys : list X) (body : X -> A -> IO A) acc log :
  for_of (xs ++ ys) body acc log
  = bind (for_of xs body acc) (fun acc' => for_of ys body acc') log.
Proof.
  revert acc log. induction xs as [| x xs IH]; intros acc log; [reflexivity |].
  cbn [app for_of]. unfold bind.
  destruct (body x acc log) as [[acc' | e] log']; [| reflexivity].
  rewrite IH. unfold bind. reflexivity.
Qed.

Section WithNetwork.

Variable net : Network.

Lemma tcpConnect_legal host port timeout log :
  isLegalPort port = true ->
  tcpConnect net host port timeout log
  = (Resolved (outcome (default_to 3000 timeout)
                 (net log {| call_host := host; call_port := port;
                             call_timeout := default_to 3000 timeout |})),
     log ++ [Probe {| call_host := host; call_port := port;
                      call_timeout := default_to 3000 timeout |}]).
Proof. intro L. unfold tcpConnect. now rewrite L. Qed.

Lemma tcpConnect_illegal host port timeout log :
  isLegalPort port = false ->
  tcpConnect net host port timeout log
  = (Rejected (ERR_SOCKET_BAD_PORT port),
     log ++ [Probe {| call_host := host; call_port := port;
                      call_timeout := default_to 3000 timeout |}]).
Proof. intro L. unfold tcpConnect. now rewrite L. Qed.

Lemma tcpConnect_log host port timeout log :
  snd (tcpConnect net host port timeout log)
  = log ++ [Probe {| call_host := host; call_port := port;
                     call_timeout := default_to 3000 timeout |}].
Proof. unfold tcpConnect. now destruct (isLegalPort port). Qed.

Lemma tcpConnect_resolved host port timeout log r :
  fst (tcpConnect net host port timeout log) = Resolved r ->
  isLegalPort port = true /\
  r = outcome (default_to 3000 timeout)
        (net log {| call_host := host; call_port := port;
                    call_timeout := default_to 3000 timeout |}).
Proof.
  unfold tcpConnect. destruct (isLegalPort port); cbn [fst]; [| discriminate].
  intros [= <-]. split; reflexivity.
Qed.

Lemma outcome_from_connector timeout a : from_connector (outcome timeout a).
Proof.
  unfold outcome, from_connector.
  destruct (settledBy a); cbn [success responseTime error]; eauto 8.
Qed.

Lemma tcpConnect_from_connector host port timeout log r :
  fst (tcpConnect net host port timeout log) = Resolved r -> from_connector r.
Proof.
  intro H. apply tcpConnect_resolved in H as [_ ->]. apply outcome_from_connector.
Qed.

(** *** The loop of [tcping] *)

Lemma attempt_run host port timeout count interval i results log :
  isLegalPort port = true ->
  let call := {| call_host := host; call_port := port; call_timeout := timeout |} in
  attempt net host port timeout count interval i results log
  = (Resolved (results ++ [outcome timeout (net log call)]),
     (log ++ [Probe call]) ++ (if i <? count - 1 then [Sleep interval] else [])).
Proof.
  intros L call. unfold attempt, bind.
  rewrite (tcpConnect_legal host port (Some timeout) log L). cbn [default_to].
  fold call. unfold sleep, ret.
  destruct (i <? count - 1); [reflexivity | now rewrite app_nil_r].
Qed.

Lemma attempt_rejects host port timeout count interval i results log :
  isLegalPort port = false ->
  attempt net host port timeout count interval i results log
  = (Rejected (ERR_SOCKET_BAD_PORT port),
     log ++ [Probe {| call_host := host; call_port := port; call_timeout := timeout |}]).
Proof.
  intro L. unfold attempt, bind.
  now rewrite (tcpConnect_illegal host port (Some timeout) log L).
Qed.

(** The effects of the first [k] turns of the loop. *)
Lemma turns_schedule call interval (m : Z) len start :
  Z.of_nat (start + len) = m ->
  flat_map (fun j => Probe call
                     :: (if Z.of_nat j <? m - 1 then [Sleep interval] else []))
           (seq start len)
  = schedule call interval len.
Proof.
  revert start. induction len as [| len IH]; intros start E; [reflexivity |].
  cbn [seq flat_map]. rewrite (IH (S start)) by lia.
  destruct len as [| len].
  - replace (Z.of_nat start <? m - 1) with false by (symmetry; apply Z.ltb_ge; lia).
    reflexivity.
  - replace (Z.of_nat start <? m - 1) with true by (symmetry; apply Z.ltb_lt; lia).
    reflexivity.
Qed.

(** On a port that [socket.connect] accepts the loop makes its [count]
    turns: one outcome per turn, a pause after each probe but the last. *)
Lemma loop_legal (P : ConnResult -> Prop) host port timeout count interval log :
  let call := {| call_host := host; call_port := port; call_timeout := timeout |} in
  isLegalPort port = true ->
  (forall l, P (outcome timeout (net l call))) ->
  exists rs,
    for_loop (Z.to_nat count) (fun i => i <? count) 0
      (attempt net host port timeout count interval) [] log
    = (Resolved rs, log ++ schedule call interval (Z.to_nat count)) /\
    List.length rs = Z.to_nat count /\ Forall P rs.
Proof.
  intros call L HP.
  destruct (for_loop_counted
              (fun k acc l =>
                 List.length acc = k /\ Forall P acc /\
                 l = log ++ flat_map
                              (fun j => Probe call
                                        :: (if Z.of_nat j <? Z.of_nat (Z.to_nat count) - 1
                                            then [Sleep interval] else []))
                              (seq 0 k))
              (Z.to_nat count) (fun i => i <? count) 0
              (attempt net host port timeout count interval) [] log)
    as (rs & log' & E & Hl & Hf & Hlog).
  - intros k Hk. apply Z.ltb_lt. lia.
  - cbn. rewrite app_nil_r. auto.
  - intros k acc l Hk (Hl & Hf & ->).
    rewrite (attempt_run _ _ _ _ _ _ _ _ L). fold call.
    eexists _, _. split; [reflexivity |]. repeat split.
    + rewrite length_app. cbn [List.length]. lia.
    + apply Forall_app; split; [assumption |]. constructor; [apply HP | constructor].
    + rewrite seq_S, flat_map_app, <- !app_assoc. cbn [flat_map Nat.add app].
      rewrite app_nil_r. do 2 f_equal.
      replace (0 + Z.of_nat k <? count - 1)
        with (Z.of_nat k <? Z.of_nat (Z.to_nat count) - 1); [reflexivity |].
      apply eq_true_iff_eq. rewrite !Z.ltb_lt. lia.
  - exists rs. rewrite E, Hlog. repeat split; try assumption.
    do 2 f_equal. now apply turns_schedule.
Qed.

(** On a port that it refuses the first turn ends the loop. *)
Lemma loop_illegal host port timeout count interval log :
  isLegalPort port = false -> 0 < count ->
  for_loop (Z.to_nat count) (fun i => i <? count) 0
    (attempt net host port timeout count interval) [] log
  = (Rejected (ERR_SOCKET_BAD_PORT port),
     log ++ [Probe {| call_host := host; call_port := port; call_timeout := timeout |}]).
Proof.
  intros L C. destruct (Z.to_nat count) as [| n] eqn:E; [lia |].
  cbn [for_loop]. replace (0 <? count) with true by (symmetry; apply Z.ltb_lt; lia).
  unfold bind. now rewrite (attempt_rejects _ _ _ _ _ _ _ _ L).
Qed.

Lemma tcping_legal (P : ConnResult -> Prop) options log :
  let call := {| call_host := opt_host options; call_port := opt_port options;
                 call_timeout := default_to 3000 (opt_timeout options) |} in
  let count := default_to 4 (opt_count options) in
  isLegalPort (opt_port options) = true ->
  (forall l, P (outcome (default_to 3000 (opt_timeout options)) (net l call))) ->
  exists rs,
    tcping net options log
    = (Resolved (summarise (opt_host options) (opt_port options) count rs),
       log ++ schedule call (default_to 1000 (opt_interval options)) (Z.to_nat count)) /\
    List.length rs = Z.to_nat count /\ Forall P rs.
Proof.
  intros call count L HP.
  destruct (loop_legal P (opt_host options) (opt_port options)
              (default_to 3000 (opt_timeout options)) count
              (default_to 1000 (opt_interval options)) log L HP)
    as (rs & E & Hl & Hf).
  exists rs. unfold tcping, bind. fold count. rewrite E. auto.
Qed.

Lemma tcping_empty options log :
  default_to 4 (opt_count options) <= 0 ->
  tcping net options log
  = (Resolved (summarise (opt_host options) (opt_port options)
                 (default_to 4 (opt_count options)) []), log).
Proof.
  intro C. unfold tcping, bind.
  replace (Z.to_nat (default_to 4 (opt_count options))) with 0%nat by lia.
  reflexivity.
Qed.

Lemma tcping_illegal options log :
  isLegalPort (opt_port options) = false -> 0 < default_to 4 (opt_count options) ->
  tcping net options log
  = (Rejected (ERR_SOCKET_BAD_PORT (opt_port options)),
     log ++ [Probe {| call_host := opt_host options; call_port := opt_port options;
                      call_timeout := default_to 3000 (opt_timeout options) |}]).
Proof.
  intros L C. unfold tcping, bind. now rewrite (loop_illegal _ _ _ _ _ _ L C).
Qed.

(** What [tcping] resolves with is the summary of one outcome per attempt;
    what holds of every outcome of the connector holds of each. *)
Lemma tcping_resolved (P : ConnResult -> Prop) options log r :
  (forall l o, fst (tcpConnect net (opt_host options) (opt_port options)
                      (Some (default_to 3000 (opt_timeout options))) l) = Resolved o ->
               P o) ->
  fst (tcping net options log) = Resolved r ->
  exists rs,
    r = summarise (opt_host options) (opt_port options)
          (default_to 4 (opt_count options)) rs /\
    Z.of_nat (List.length rs) = Z.max 0 (default_to 4 (opt_count options)) /\
    Forall P rs /\ Forall from_connector rs.
Proof.
  intros HP R.
  destruct (Z_le_gt_dec (default_to 4 (opt_count options)) 0) as [C | C].
  - rewrite (tcping_empty options log C) in R. cbn [fst] in R. injection R as <-.
    exists []. cbn [List.length]. repeat split; try constructor. lia.
  - destruct (isLegalPort (opt_port options)) eqn:L.
    + destruct (tcping_legal (fun o => P o /\ from_connector o) options log L)
        as (rs & E & Hl & Hf).
      { intro l. split; [| apply outcome_from_connector].
        apply (HP l). now rewrite tcpConnect_legal. }
      rewrite E in R. cbn [fst] in R. injection R as <-.
      exists rs. repeat split; [lia | |].
      * eapply Forall_impl; [| exact Hf]. now intros a [Ha _].
      * eapply Forall_impl; [| exact Hf]. now intros a [_ Ha].
    + rewrite (tcping_illegal options log L) in R by lia. discriminate.
Qed.

(** The handlers of [tcping] end as [tcping] does. *)
Lemma handleTcping_run options log :
  Server.handleTcping net options log
  = match tcping net options log with
    | (Resolved r, log') => (Resolved (Server.render_tcping r), log')
    | (Rejected e, log') => (Rejected e, log')
    end.
Proof. unfold Server.handleTcping, bind. reflexivity. Qed.

End WithNetwork.

End IOFacts.

(** ** The statistics of the aggregator *)

Module StatsFacts.

Import Tcp Spec.

(** [Math.round] of a quotient of integers, in integer arithmetic. *)
Lemma Math_round_div s n :
  0 < n -> Math_round (inject_Z s / inject_Z n) = (2 * s + n) / (2 * n).
Proof.
  intro Hn. unfold Math_round. rewrite Zdiv_Qdiv. apply Qfloor_comp.
  rewrite !inject_Z_plus, !inject_Z_mult.
  assert (Hq : ~ inject_Z n == 0).
  { intro E. apply (Qeq_bool_neq (inject_Z n) 0); [| exact E].
    unfold Qeq_bool, inject_Z. simpl. destruct n; try lia; reflexivity. }
  field. exact Hq.
Qed.

(** Sum, minimum and maximum accumulated from the left, as [reduce] does. *)
Lemma fold_bounds ts :
  forall n mn mx sum,
    0 <= n -> n * mn <= sum <= n * mx ->
    (n + Z.of_nat (List.length ts)) * fold_left Z.min ts mn
    <= fold_left Z.add ts sum
    <= (n + Z.of_nat (List.length ts)) * fold_left Z.max ts mx.
Proof.
  induction ts as [| t ts IH]; intros n mn mx sum Hn H.
  - cbn [List.length fold_left]. lia.
  - cbn [fold_left]. replace (n + Z.of_nat (List.length (t :: ts)))
      with ((n + 1) + Z.of_nat (List.length ts)) by (cbn [List.length]; lia).
    apply IH; [lia |].
    pose proof (Z.le_min_l mn t). pose proof (Z.le_min_r mn t).
    pose proof (Z.le_max_l mx t). pose proof (Z.le_max_r mx t).
    nia.
Qed.

(** Whenever the three statistics are there, they are ordered. *)
Lemma summarise_ordered host port count rs a mn mx :
  averageTime (summarise host port count rs) = Some a ->
  minTime (summarise host port count rs) = Some mn ->
  maxTime (summarise host port count rs) = Some mx ->
  mn <= a <= mx.
Proof.
  unfold summarise. cbn [averageTime minTime maxTime].
  destruct (responseTimesOf rs) as [| t ts] eqn:E; [discriminate |].
  set (n := Z.of_nat (List.length (t :: ts))).
  assert (Hn : 0 < n) by (subst n; cbn [List.length]; lia).
  replace (n >? 0) with true by (symmetry; apply Z.gtb_lt; lia).
  cbn [reduce option_map]. intros [= <-] [= <-] [= <-].
  rewrite Math_round_div by assumption.
  pose proof (fold_bounds ts 1 t t t ltac:(lia) ltac:(lia)) as B.
  replace (1 + Z.of_nat (List.length ts)) with n in B by (subst n; cbn [List.length]; lia).
  split.
  - apply Z.div_le_lower_bound; lia.
  - apply Z.lt_succ_r, Z.div_lt_upper_bound; lia.
Qed.

(** The three statistics are there together: exactly when some attempt has
    a truthy response time. *)
Lemma summarise_present host port count rs :
  let r := summarise host port count rs in
  (responseTimesOf rs = [] /\
   averageTime r = None /\ minTime r = None /\ maxTime r = None) \/
  (responseTimesOf rs <> [] /\
   exists a mn mx, averageTime r = Some a /\ minTime r = Some mn /\ maxTime r = Some mx).
Proof.
  unfold summarise. cbn [averageTime minTime maxTime].
  destruct (responseTimesOf rs) as [| t ts] eqn:E.
  - left. cbn. auto.
  - right. split; [discriminate |].
    replace (Z.of_nat (List.length (t :: ts)) >? 0) with true
      by (symmetry; apply Z.gtb_lt; cbn [List.length]; lia).
    cbn [reduce option_map]. eauto 6.
Qed.

(** The retained response times are the non-zero ones of the successes. *)
Lemma responseTimesOf_successTimes rs :
  Forall from_connector rs ->
  responseTimesOf rs = filter (fun t => negb (t =? 0)) (successTimes rs).
Proof.
  unfold responseTimesOf, successTimes.
  induction 1 as [| r rs Hr _ IH]; [reflexivity |].
  cbn [filter flat_map].
  destruct Hr as [(S & (t & T) & _) | (S & T & _)]; rewrite S, T; cbn [truthy app].
  - cbn [filter]. destruct (negb (t =? 0)); cbn [map]; rewrite ?T; cbn [default_to];
      now rewrite IH.
  - exact IH.
Qed.

Lemma successfulAttempts_successTimes rs :
  Forall from_connector rs ->
  List.length (filter success rs) = List.length (successTimes rs).
Proof.
  unfold successTimes.
  induction 1 as [| r rs Hr _ IH]; [reflexivity |].
  cbn [filter flat_map].
  destruct Hr as [(S & (t & T) & _) | (S & T & _)]; rewrite S, ?T; cbn; now rewrite IH.
Qed.

(** Statistics are never there without a success. *)
Lemma statistics_need_success host port count rs :
  Forall from_connector rs ->
  averageTime (summarise host port count rs) <> None ->
  successfulAttempts (summarise host port count rs) > 0.
Proof.
  intros F H.
  destruct (summarise_present host port count rs) as [(_ & A & _) | (N & _)];
    [contradiction |].
  cbn [summarise successfulAttempts].
  rewrite (successfulAttempts_successTimes rs F).
  rewrite (responseTimesOf_successTimes rs F) in N.
  destruct (successTimes rs); [now contradiction N | cbn [List.length]; lia].
Qed.

Lemma filter_nonzero ts :
  ~ In 0 ts -> filter (fun t => negb (t =? 0)) ts = ts.
Proof.
  induction ts as [| t ts IH]; [reflexivity |]. cbn [In filter]. intro H.
  replace (t =? 0) with false by (symmetry; apply Z.eqb_neq; intuition).
  cbn [negb]. f_equal. apply IH. intuition.
Qed.

Lemma sum_from_left ts t :
  fold_left Z.add ts t = fold_right Z.add 0 (t :: ts).
Proof.
  rewrite (fold_symmetric Z.add Z.add_assoc t (Z.add_comm t)). cbn [fold_right].
  induction ts as [| x ts IH]; cbn [fold_right]; lia.
Qed.

(** When no successful attempt has measured 0 ms, the aggregate is the one
    the specification describes. *)
Lemma statistics_of_successes host port count rs :
  Forall from_connector rs -> ~ In 0 (successTimes rs) ->
  let r := summarise host port count rs in
  (successfulAttempts r > 0 <-> averageTime r <> None) /\
  (successfulAttempts r > 0 <-> minTime r <> None) /\
  (successfulAttempts r > 0 <-> maxTime r <> None) /\
  (successfulAttempts r > 0 ->
   averageTime r = Some (rounded_mean (successTimes rs)) /\
   minTime r = minimum (successTimes rs) /\
   maxTime r = maximum (successTimes rs)).
Proof.
  intros F NZ. cbn zeta. unfold summarise.
  cbn [successfulAttempts averageTime minTime maxTime].
  rewrite (successfulAttempts_successTimes rs F).
  rewrite (responseTimesOf_successTimes rs F), (filter_nonzero _ NZ).
  destruct (successTimes rs) as [| t ts].
  - cbn. repeat split; try lia; try congruence.
  - replace (Z.of_nat (List.length (t :: ts)) >? 0) with true
      by (symmetry; apply Z.gtb_lt; cbn [List.length]; lia).
    cbn [reduce option_map].
    assert (Pos : Z.of_nat (List.length (t :: ts)) > 0) by (cbn [List.length]; lia).
    split; [split; [discriminate | intros _; exact Pos] |].
    split; [split; [discriminate | intros _; exact Pos] |].
    split; [split; [discriminate | intros _; exact Pos] |].
    intros _. unfold rounded_mean, minimum, maximum.
    rewrite sum_from_left.
    rewrite (fold_symmetric Z.min Z.min_assoc t (Z.min_comm t)).
    rewrite (fold_symmetric Z.max Z.max_assoc t (Z.max_comm t)).
    auto.
Qed.

End StatsFacts.

(** ** The extrema of the statistics *)

Module ExtremaFacts.

Import Tcp Spec.

Lemma fold_min_spec ts t :
  In (fold_left Z.min ts t) (t :: ts) /\ Forall (fun x => fold_left Z.min ts t <= x) (t :: ts).
Proof.
  revert t. induction ts as [| y ts IH]; intro t.
  - cbn. split; [auto | constructor; [lia | constructor]].
  - cbn [fold_left]. destruct (IH (Z.min t y)) as [I F]. split.
    + destruct I as [I | I]; [| right; right; exact I].
      rewrite <- I.
      destruct (Z.min_spec t y) as [[_ E] | [_ E]]; [left | right; left]; lia.
    + inversion F as [| ? ? Hm Ft]; subst.
      constructor; [lia |]. constructor; [lia | exact Ft].
Qed.

Lemma fold_max_spec ts t :
  In (fold_left Z.max ts t) (t :: ts) /\ Forall (fun x => x <= fold_left Z.max ts t) (t :: ts).
Proof.
  revert t. induction ts as [| y ts IH]; intro t.
  - cbn. split; [auto | constructor; [lia | constructor]].
  - cbn [fold_left]. destruct (IH (Z.max t y)) as [I F]. split.
    + destruct I as [I | I]; [| right; right; exact I].
      rewrite <- I.
      destruct (Z.max_spec t y) as [[_ E] | [_ E]]; [right; left | left]; lia.
    + inversion F as [| ? ? Hm Ft]; subst.
      constructor; [lia |]. constructor; [lia | exact Ft].
Qed.

Lemma responseTimesOf_In rs t :
  In t (responseTimesOf rs) <->
  exists o, In o rs /\ responseTime o = Some t /\ t <> 0.
Proof.
  unfold responseTimesOf. rewrite in_map_iff. split.
  - intros (o & E & I). apply filter_In in I as [I T]. exists o.
    destruct (responseTime o) as [u |]; [| discriminate].
    cbn [default_to truthy] in *. subst u.
    repeat split; auto. intros ->. discriminate.
  - intros (o & I & E & N). exists o. rewrite E. split; [reflexivity |].
    apply filter_In. split; [assumption |]. rewrite E. cbn [truthy].
    apply negb_true_iff, Z.eqb_neq. exact N.
Qed.

(** The minimum and the maximum are retained response times, and they bound
    the others. *)
Lemma summarise_extrema host port count rs mn mx :
  minTime (summarise host port count rs) = Some mn ->
  maxTime (summarise host port count rs) = Some mx ->
  In mn (responseTimesOf rs) /\ In mx (responseTimesOf rs) /\
  Forall (fun t => mn <= t <= mx) (responseTimesOf rs).
Proof.
  unfold summarise. cbn [minTime maxTime].
  destruct (responseTimesOf rs) as [| t ts]; [discriminate |].
  replace (Z.of_nat (List.length (t :: ts)) >? 0) with true
    by (symmetry; apply Z.gtb_lt; cbn [List.length]; lia).
  cbn [reduce]. intros [= <-] [= <-].
  destruct (fold_min_spec ts t) as [Imin Fmin].
  destruct (fold_max_spec ts t) as [Imax Fmax].
  repeat split; try assumption.
  rewrite Forall_forall in *. intros x Hx. split; [now apply Fmin | now apply Fmax].
Qed.

(** With response times that are not negative, the average is there and
    not zero as soon as a response time is retained: the two guards of the
    last line of the report agree. *)
Lemma guards_agree host port count rs :
  Forall (fun o => forall t, responseTime o = Some t -> 0 <= t) rs ->
  truthy (averageTime (summarise host port count rs))
  = (Z.of_nat (List.length (responseTimesOf rs)) >? 0).
Proof.
  intro NN.
  destruct (StatsFacts.summarise_present host port count rs)
    as [(E & A & _) | (N & a & mn & mx & A & Mn & Mx)].
  - rewrite A, E. reflexivity.
  - rewrite A.
    destruct (summarise_extrema _ _ _ _ _ _ Mn Mx) as (Imn & _ & _).
    pose proof (StatsFacts.summarise_ordered _ _ _ _ _ _ _ A Mn Mx) as O.
    apply responseTimesOf_In in Imn as (o & Io & Eo & Nz).
    rewrite Forall_forall in NN. pose proof (NN o Io mn Eo) as P.
    cbn [truthy].
    replace (a =? 0) with false by (symmetry; apply Z.eqb_neq; lia).
    destruct (responseTimesOf rs); [contradiction |].
    symmetry. apply Z.gtb_lt. cbn [List.length]. lia.
Qed.

End ExtremaFacts.

(** ** The firewall evaluator and the port scanner *)

Module HandlerFacts.

Import Tcp Server Spec IOFacts.

Lemma append_assoc (a b c : string) : (a +++ b) +++ c = a +++ (b +++ c).
Proof. induction a as [| x a IH]; simpl; [reflexivity | now rewrite IH]. Qed.

Lemma append_empty_r (a : string) : a +++ "" = a.
Proof. induction a as [| x a IH]; simpl; [reflexivity | now rewrite IH]. Qed.

Lemma concat_map_app {X} (f : X -> string) l1 l2 :
  concat_map f (l1 ++ l2) = concat_map f l1 +++ concat_map f l2.
Proof.
  unfold concat_map. induction l1 as [| x l1 IH]; cbn [app fold_right]; [reflexivity |].
  now rewrite IH, append_assoc.
Qed.

Lemma concat_map_one {X} (f : X -> string) x : concat_map f [x] = f x.
Proof. unfold concat_map. cbn [fold_right]. apply append_empty_r. Qed.

Lemma concat_map_cons {X} (f : X -> string) x l :
  concat_map f (x :: l) = f x +++ concat_map f l.
Proof. reflexivity. Qed.

Lemma combine_app {A B} (l1 l2 : list A) (m1 m2 : list B) :
  List.length l1 = List.length m1 ->
  combine (l1 ++ l2) (m1 ++ m2) = combine l1 m1 ++ combine l2 m2.
Proof.
  revert m1. induction l1 as [| a l1 IH]; intros [| b m1] L; try discriminate.
  - reflexivity.
  - simpl. f_equal. apply IH. now injection L.
Qed.

Lemma nth_error_combine {A B} (l : list A) (m : list B) i a b :
  nth_error l i = Some a -> nth_error m i = Some b ->
  nth_error (combine l m) i = Some (a, b).
Proof.
  revert i m. induction l as [| x l IH]; intros [| i] [| y m] Ha Hb;
    try discriminate; cbn in *.
  - congruence.
  - now apply IH.
Qed.

(** *** Ranges of ports *)

Lemma ports_from_S first k :
  ports_from first (S k) = ports_from first k ++ [first + Z.of_nat k].
Proof. unfold ports_from. now rewrite seq_S, map_app. Qed.

Lemma ports_from_length first k : List.length (ports_from first k) = k.
Proof. unfold ports_from. now rewrite length_map, length_seq. Qed.

Lemma ports_from_add first n m :
  ports_from first (n + m) = ports_from first n ++ ports_from (first + Z.of_nat n) m.
Proof.
  induction m as [| m IH].
  - rewrite Nat.add_0_r. cbn. now rewrite app_nil_r.
  - rewrite Nat.add_succ_r, !ports_from_S, IH, <- app_assoc.
    do 3 f_equal. lia.
Qed.

Lemma port_range_split a b c :
  a <= b + 1 -> b <= c ->
  port_range a c = port_range a b ++ port_range (b + 1) c.
Proof.
  intros H1 H2. unfold port_range.
  replace (Z.to_nat (c - a + 1)) with (Z.to_nat (b - a + 1) + Z.to_nat (c - (b + 1) + 1))%nat
    by lia.
  rewrite ports_from_add. do 2 f_equal. lia.
Qed.

Lemma port_range_one p : port_range p p = [p].
Proof.
  unfold port_range, ports_from. replace (Z.to_nat (p - p + 1)) with 1%nat by lia.
  cbn [seq map]. f_equal. cbn. lia.
Qed.

Lemma ports_from_sorted first k : StronglySorted Z.lt (ports_from first k).
Proof.
  induction k as [| k IH]; [constructor |].
  rewrite ports_from_S.
  assert (B : Forall (fun p => p < first + Z.of_nat k) (ports_from first k)).
  { unfold ports_from. apply Forall_forall. intros p Hp.
    apply in_map_iff in Hp as (j & <- & Hj). apply in_seq in Hj. lia. }
  clear - IH B. induction IH as [| a l S IHS F]; cbn [app].
  - constructor; constructor.
  - inversion B; subst. constructor; [now apply IHS |].
    apply Forall_app; split; [assumption | now repeat constructor].
Qed.

Lemma port_range_spec first last p :
  In p (port_range first last) <-> first <= p <= last.
Proof.
  unfold port_range, ports_from. rewrite in_map_iff. split.
  - intros (j & <- & Hj). apply in_seq in Hj. lia.
  - intro H. exists (Z.to_nat (p - first)). split; [lia |]. apply in_seq. lia.
Qed.

(** The ports of a range are all accepted by [socket.connect] exactly when
    the range is empty or lies within [0, 65535]. *)
Lemma legal_range first last :
  forallb isLegalPort (port_range first last) = true <->
  (first <= last -> 0 <= first /\ last <= 65535).
Proof.
  rewrite forallb_forall. split.
  - intros H Le.
    pose proof (H first ltac:(apply port_range_spec; lia)) as H1.
    pose proof (H last ltac:(apply port_range_spec; lia)) as H2.
    apply isLegalPort_spec in H1, H2. lia.
  - intros H p Hp. apply port_range_spec in Hp. apply isLegalPort_spec. lia.
Qed.

Lemma kept_Forall {B} (P : Z -> Prop) (f : Z * B -> bool) l m :
  Forall P l -> Forall P (map fst (filter f (combine l m))).
Proof.
  intro F. revert m. induction F as [| a l Ha _ IH]; intros [| b m]; cbn; try constructor.
  destruct (f (a, b)); cbn; [constructor; [assumption |] |]; apply IH.
Qed.

Lemma kept_sorted {B} (f : Z * B -> bool) l m :
  StronglySorted Z.lt l -> StronglySorted Z.lt (map fst (filter f (combine l m))).
Proof.
  intro S. revert m. induction S as [| a l _ IH F]; intros [| b m]; cbn; try constructor.
  destruct (f (a, b)); cbn; [| apply IH].
  constructor; [apply IH | now apply kept_Forall].
Qed.

Section WithNetwork.

Variable net : Network.

Lemma probe_all_length log calls :
  List.length (probe_all net log calls) = List.length calls.
Proof.
  revert log. induction calls as [| c calls IH]; intro log;
    cbn [probe_all List.length]; [reflexivity |].
  now rewrite IH.
Qed.

Lemma probe_all_split log calls1 calls2 :
  probe_all net log (calls1 ++ calls2)
  = probe_all net log calls1 ++ probe_all net (log ++ map Probe calls1) calls2.
Proof.
  revert log. induction calls1 as [| c calls1 IH]; intro log; cbn [app probe_all map].
  - now rewrite app_nil_r.
  - rewrite IH, <- app_assoc. reflexivity.
Qed.

Lemma probe_all_from_connector log calls :
  Forall from_connector (probe_all net log calls).
Proof.
  revert log. induction calls as [| c calls IH]; intro log;
    cbn [probe_all]; constructor; auto.
  apply outcome_from_connector.
Qed.

(** *** The loop over the rules *)

(** While the ports are accepted, one probe, one result and one block of
    text per rule. *)
Lemma rules_run timeout rules :
  forall results0 output0 log,
    legal_rules rules = true ->
    for_of rules (rule_step net timeout) (results0, output0) log
    = (Resolved
         (results0 ++ map (fun ro => rule_result (fst ro) (snd ro))
                          (combine rules
                             (probe_all net log (map (rule_call timeout) rules))),
          output0 +++ concat_map (fun ro => rule_block (fst ro) (snd ro))
                        (combine rules
                           (probe_all net log (map (rule_call timeout) rules)))),
       log ++ map Probe (map (rule_call timeout) rules)).
Proof.
  unfold legal_rules.
  induction rules as [| rule rules IH]; intros results0 output0 log L.
  - cbn. now rewrite !app_nil_r, append_empty_r.
  - cbn [forallb] in L. apply andb_true_iff in L as [Lr Lrs].
    cbn [for_of]. unfold bind at 1. unfold rule_step at 1. unfold bind at 1.
    rewrite (tcpConnect_legal net _ _ (Some timeout) log Lr).
    cbn [default_to]. unfold ret at 1.
    rewrite (IH _ _ _ Lrs). unfold concat_map.
    cbn [map probe_all combine call_host call_port call_timeout rule_call
           fold_right fst snd].
    now rewrite <- !app_assoc, append_assoc.
Qed.

(** The first rule on a port that is refused ends the loop. *)
Lemma rules_abort timeout good bad rest results0 output0 log :
  legal_rules good = true -> isLegalPort (rule_port bad) = false ->
  for_of (good ++ bad :: rest) (rule_step net timeout) (results0, output0) log
  = (Rejected (ERR_SOCKET_BAD_PORT (rule_port bad)),
     log ++ map Probe (map (rule_call timeout) (good ++ [bad]))).
Proof.
  intros Lg Lb. rewrite for_of_app. unfold bind at 1.
  rewrite (rules_run timeout good _ _ _ Lg).
  cbn [for_of]. unfold bind at 1. unfold rule_step at 1. unfold bind at 1.
  rewrite (tcpConnect_illegal net _ _ (Some timeout) _ Lb).
  cbn [default_to]. rewrite !map_app, <- app_assoc. reflexivity.
Qed.

Lemma firewall_run rules timeout log :
  legal_rules rules = true ->
  handleFirewallValidation net rules timeout log
  = (let outcomes := combine rules
                       (probe_all net log (map (rule_call (default_to 3000 timeout)) rules)) in
     let results := map (fun ro => rule_result (fst ro) (snd ro)) outcomes in
     (Resolved
        (results,
         (("Firewall Rule Validation Results:" +++ newline)
          +++ repeat_string "=" 50 +++ newline +++ newline)
         +++ concat_map (fun ro => rule_block (fst ro) (snd ro)) outcomes
         +++ "Overall Result: "
         +++ show_Z (Z.of_nat (List.length (filter passed results)))
         +++ "/" +++ show_Z (Z.of_nat (List.length results)) +++ " rules passed"
         +++ newline),
      log ++ map Probe (map (rule_call (default_to 3000 timeout)) rules))).
Proof.
  intro L. unfold handleFirewallValidation, bind. cbn zeta.
  rewrite (rules_run _ _ _ _ _ L). unfold ret. cbn [app].
  now rewrite append_assoc.
Qed.

Lemma firewall_abort good bad rest timeout log :
  legal_rules good = true -> isLegalPort (rule_port bad) = false ->
  handleFirewallValidation net (good ++ bad :: rest) timeout log
  = (Rejected (ERR_SOCKET_BAD_PORT (rule_port bad)),
     log ++ map Probe (map (rule_call (default_to 3000 timeout)) (good ++ [bad]))).
Proof.
  intros Lg Lb. unfold handleFirewallValidation, bind. cbn zeta.
  now rewrite (rules_abort _ _ _ _ _ _ _ Lg Lb).
Qed.

(** *** The loop over the ports *)

Lemma scan_step_run host timeout port openPorts output log :
  isLegalPort port = true ->
  let r := outcome timeout (net log (scan_call host timeout port)) in
  let new := if success r then [open_port (port, r)] else [] in
  scan_step net host timeout port (openPorts, output) log
  = (Resolved
       (openPorts ++ new,
        output +++ concat_map (fun op => "Port " +++ show_Z (op_port op) +++ ": OPEN ("
                                         +++ show_opt_Z (op_responseTime op) +++ "ms)"
                                         +++ newline) new),
     log ++ [Probe (scan_call host timeout port)]).
Proof.
  intro L. unfold scan_step, bind. cbn zeta.
  rewrite (tcpConnect_legal net _ _ (Some timeout) log L). cbn [default_to].
  fold (scan_call host timeout port).
  destruct (success _); unfold ret.
  - rewrite concat_map_one. reflexivity.
  - cbn. now rewrite app_nil_r, append_empty_r.
Qed.

Lemma ports_run host timeout ports :
  forall openPorts output log,
    forallb isLegalPort ports = true ->
    for_of ports (scan_step net host timeout) (openPorts, output) log
    = (let new :=
         map open_port
             (filter (fun po => success (snd po))
                (combine ports
                   (probe_all net log (map (scan_call host timeout) ports)))) in
       (Resolved
          (openPorts ++ new,
           output +++ concat_map (fun op => "Port " +++ show_Z (op_port op) +++ ": OPEN ("
                                            +++ show_opt_Z (op_responseTime op) +++ "ms)"
                                            +++ newline) new),
        log ++ map Probe (map (scan_call host timeout) ports))).
Proof.
  induction ports as [| port ports IH]; intros openPorts output log L.
  - cbn. now rewrite !app_nil_r, append_empty_r.
  - cbn [forallb] in L. apply andb_true_iff in L as [Lp Lps].
    cbn [for_of]. unfold bind at 1.
    rewrite (scan_step_run host timeout port openPorts output log Lp). cbn zeta.
    rewrite (IH _ _ _ Lps). cbn zeta.
    cbn [map probe_all combine filter snd call_host call_port call_timeout scan_call].
    fold (scan_call host timeout port).
    destruct (success _); cbn [map app].
    + rewrite concat_map_one, concat_map_cons, <- !app_assoc, append_assoc.
      reflexivity.
    + change (concat_map _ []) with "".
      now rewrite app_nil_r, append_empty_r, <- app_assoc.
Qed.

Lemma ports_abort host timeout good bad rest openPorts output log :
  forallb isLegalPort good = true -> isLegalPort bad = false ->
  for_of (good ++ bad :: rest) (scan_step net host timeout) (openPorts, output) log
  = (Rejected (ERR_SOCKET_BAD_PORT bad),
     log ++ map Probe (map (scan_call host timeout) (good ++ [bad]))).
Proof.
  intros Lg Lb. rewrite for_of_app. unfold bind at 1.
  rewrite (ports_run host timeout good _ _ _ Lg). cbn zeta.
  cbn [for_of]. unfold bind at 1. unfold scan_step at 1. unfold bind at 1.
  rewrite (tcpConnect_illegal net _ _ (Some timeout) _ Lb).
  cbn [default_to]. rewrite !map_app, <- app_assoc. reflexivity.
Qed.

Lemma scan_loop_ports host timeout startPort endPort st log :
  for_loop (Z.to_nat (endPort - startPort + 1)) (fun port => port <=? endPort)
    startPort (scan_step net host timeout) st log
  = for_of (port_range startPort endPort) (scan_step net host timeout) st log.
Proof. unfold port_range. apply for_loop_for_of. lia. Qed.

Lemma scan_run host startPort endPort timeout log :
  forallb isLegalPort (port_range startPort endPort) = true ->
  handleNetworkScan net host startPort endPort timeout log
  = (let ports := port_range startPort endPort in
     let openPorts :=
       map open_port
           (filter (fun po => success (snd po))
              (combine ports
                 (probe_all net log
                    (map (scan_call host (default_to 1000 timeout)) ports)))) in
     (Resolved
        (openPorts,
         ((("Network Scan: " +++ host +++ ":" +++ show_Z startPort +++ "-"
            +++ show_Z endPort +++ newline)
           +++ repeat_string "=" 50 +++ newline +++ newline)
          +++ concat_map (fun op => "Port " +++ show_Z (op_port op) +++ ": OPEN ("
                                    +++ show_opt_Z (op_responseTime op) +++ "ms)"
                                    +++ newline) openPorts)
         +++ (if Nat.eqb (List.length openPorts) 0
              then "No open ports found in the specified range." +++ newline
              else newline +++ "Summary: Found "
                   +++ show_Z (Z.of_nat (List.length openPorts)) +++ " open ports"
                   +++ newline)),
      log ++ map Probe (map (scan_call host (default_to 1000 timeout))
                            (port_range startPort endPort)))).
Proof.
  intro L. unfold handleNetworkScan, bind. cbn zeta.
  rewrite scan_loop_ports, (ports_run _ _ _ _ _ _ L). cbn zeta. unfold ret. cbn [app].
  destruct (Nat.eqb _ 0); reflexivity.
Qed.

Lemma scan_abort host startPort endPort timeout good bad rest log :
  port_range startPort endPort = good ++ bad :: rest ->
  forallb isLegalPort good = true -> isLegalPort bad = false ->
  handleNetworkScan net host startPort endPort timeout log
  = (Rejected (ERR_SOCKET_BAD_PORT bad),
     log ++ map Probe (map (scan_call host (default_to 1000 timeout)) (good ++ [bad]))).
Proof.
  intros E Lg Lb. unfold handleNetworkScan, bind. cbn zeta.
  rewrite scan_loop_ports, E.
  now rewrite (ports_abort _ _ _ _ _ _ _ _ Lg Lb).
Qed.

End WithNetwork.

End HandlerFacts.

(** ** The success rate, in doubles *)

Module RateFacts.

Lemma inject_Z_pos z : 0 < z -> (0 < inject_Z z)%Q.
Proof. intro H. change 0%Q with (inject_Z 0). now rewrite <- Zlt_Qlt. Qed.

Lemma inject_Z_nonneg z : 0 <= z -> (0 <= inject_Z z)%Q.
Proof. intro H. change 0%Q with (inject_Z 0). now rewrite <- Zle_Qle. Qed.

Lemma round_half_even_nonneg y : (0 <= y)%Q -> 0 <= round_half_even y.
Proof.
  intro H. unfold round_half_even.
  assert (F : 0 <= Qfloor y).
  { change 0 with (Qfloor 0). now apply Qfloor_resp_le. }
  destruct (y - inject_Z (Qfloor y) ?= 1 # 2)%Q; [destruct (Z.even _) | |]; lia.
Qed.

Lemma round_half_even_below y (N : Z) : (y <= inject_Z N)%Q -> round_half_even y <= N.
Proof.
  intro H. unfold round_half_even.
  assert (F : Qfloor y <= N).
  { rewrite <- (Qfloor_Z N). now apply Qfloor_resp_le. }
  assert (G : (1 # 2 <= y - inject_Z (Qfloor y))%Q -> Qfloor y + 1 <= N).
  { intro Half.
    assert (L : (inject_Z (Qfloor y) < inject_Z N)%Q).
    { apply Qlt_le_trans with (y := y); [| exact H].
      apply Qlt_le_trans with (y := (inject_Z (Qfloor y) + (1 # 2))%Q).
      - rewrite <- (Qplus_0_r (inject_Z (Qfloor y))) at 1.
        apply Qplus_lt_r. reflexivity.
      - apply Qplus_le_r with (z := (- inject_Z (Qfloor y))%Q).
        rewrite Qplus_assoc, (Qplus_comm (- inject_Z (Qfloor y))), Qplus_opp_r, Qplus_0_l.
        rewrite Qplus_comm. exact Half. }
    rewrite <- Zlt_Qlt in L. lia. }
  destruct (y - inject_Z (Qfloor y) ?= 1 # 2)%Q eqn:C.
  - apply Qeq_alt in C. destruct (Z.even _); [exact F |].
    apply G. rewrite C. apply Qle_refl.
  - exact F.
  - apply Qgt_alt in C. apply G. now apply Qlt_le_weak.
Qed.

Lemma Qabs_nonneg q : 0 <= Qnum q -> Qabs q = q.
Proof. destruct q as [n d]. cbn. intro H. now rewrite Z.abs_eq. Qed.

Lemma floor_log2_below q (k : Z) :
  0 < Qnum q -> 0 <= k -> (q <= inject_Z (2 ^ k))%Q -> floor_log2 q <= k.
Proof.
  intros Pos K H. unfold floor_log2.
  assert (L : Z.log2 (Qnum q) - Z.log2 (Z.pos (Qden q)) <= k).
  { unfold Qle in H. cbn [Qnum Qden inject_Z] in H. rewrite Z.mul_1_r in H.
    apply Z.log2_le_mono in H.
    rewrite Z.mul_comm, Z.log2_mul_pow2 in H by lia. lia. }
  destruct (if 0 <=? _ then _ else _); lia.
Qed.

(** The double nearest to a rational of [[0, B]] lies in [[0, B]], for an
    integer [B] of at most 53 bits. *)
Lemma round_double_within q (B : Z) :
  (0 <= q)%Q -> (q <= inject_Z B)%Q -> 0 < B <= 2 ^ 52 ->
  exists r, round_double q = Finite r /\ (0 <= r)%Q /\ (r <= inject_Z B)%Q.
Proof.
  intros Lo Hi HB. unfold round_double.
  destruct (Qnum q =? 0) eqn:Z0.
  - exists 0%Q. split; [reflexivity |]. split; [apply Qle_refl |].
    apply inject_Z_nonneg. lia.
  - apply Z.eqb_neq in Z0.
    assert (Pos : 0 < Qnum q).
    { unfold Qle in Lo. cbn in Lo. lia. }
    replace (0 <? Qnum q) with true by (symmetry; apply Z.ltb_lt; exact Pos).
    rewrite (Qabs_nonneg q) by lia.
    set (e := Z.max (-1074) (floor_log2 q - 52)).
    assert (E : e <= 0).
    { assert (floor_log2 q <= 52); [| subst e; lia].
      apply floor_log2_below; [exact Pos | lia |].
      apply Qle_trans with (y := inject_Z B); [exact Hi |].
      rewrite <- Zle_Qle. lia. }
    replace ((971 <? e) || ((e =? 971) && _)) with false.
    2:{ replace (971 <? e) with false by (symmetry; apply Z.ltb_ge; lia).
        replace (e =? 971) with false by (symmetry; apply Z.eqb_neq; lia).
        reflexivity. }
    eexists. split; [reflexivity |].
    unfold scale_down. replace (e <=? 0) with true by (symmetry; apply Z.leb_le; lia).
    set (p := 2 ^ (- e)).
    assert (P : 0 < p) by (subst p; apply Z.pow_pos_nonneg; lia).
    assert (Pq : (0 < inject_Z p)%Q) by (apply inject_Z_pos; exact P).
    set (m := round_half_even (q * inject_Z p)).
    assert (M0 : 0 <= m).
    { apply round_half_even_nonneg. apply Qmult_le_0_compat; [exact Lo |].
      now apply Qlt_le_weak. }
    assert (M1 : m <= B * p).
    { apply round_half_even_below. rewrite inject_Z_mult.
      apply Qmult_le_compat_r; [exact Hi | now apply Qlt_le_weak]. }
    unfold scale_up. destruct (0 <=? e) eqn:E0.
    + apply Z.leb_le in E0. assert (e = 0) by lia.
      replace (2 ^ e) with 1 by (subst e; rewrite H; reflexivity).
      replace p with 1 in M1 by (subst p; rewrite H; reflexivity).
      split; [apply inject_Z_nonneg; lia | rewrite <- Zle_Qle; lia].
    + fold p. split.
      * apply Qle_shift_div_l; [exact Pq |]. rewrite Qmult_0_l.
        now apply inject_Z_nonneg.
      * apply Qle_shift_div_r; [exact Pq |].
        rewrite <- inject_Z_mult, <- Zle_Qle. exact M1.
Qed.

(** The percentage of the summary is a number between 0 and 100 when the
    attempts counted are at least one and at most [2^52]. *)
Lemma rate_bounds s c :
  0 <= s <= c -> 0 < c ->
  exists q, js_mul (js_div s c) 100 = Finite q /\ 0 <= Math_round q <= 100.
Proof.
  intros Hs Hc. unfold js_div.
  replace (c =? 0) with false by (symmetry; apply Z.eqb_neq; lia).
  assert (Cq : (0 < inject_Z c)%Q) by (apply inject_Z_pos; exact Hc).
  destruct (round_double_within (inject_Z s / inject_Z c) 1) as (r1 & E1 & L1 & U1).
  - apply Qle_shift_div_l; [exact Cq |]. rewrite Qmult_0_l.
    apply inject_Z_nonneg. lia.
  - apply Qle_shift_div_r; [exact Cq |]. rewrite Qmult_1_l, <- Zle_Qle. lia.
  - cbn. lia.
  - rewrite E1. cbn [js_mul].
    destruct (round_double_within (r1 * inject_Z 100) 100) as (r2 & E2 & L2 & U2).
    + apply Qmult_le_0_compat; [exact L1 | discriminate].
    + rewrite <- (Qmult_1_l (inject_Z 100)) at 2.
      apply Qmult_le_compat_r; [exact U1 | discriminate].
    + cbn. lia.
    + exists r2. split; [exact E2 |]. unfold Math_round. split.
      * change 0 with (Qfloor 0). apply Qfloor_resp_le.
        apply Qle_trans with (y := r2); [exact L2 |].
        rewrite <- (Qplus_0_r r2) at 1. apply Qplus_le_r. discriminate.
      * change 100 with (Qfloor (inject_Z 100 + (1 # 2))). apply Qfloor_resp_le.
        apply Qplus_le_l. exact U2.
Qed.

(** Zero successes over a negative count: [0 / count * 100] is [-0]. *)
Lemma rate_of_none count :
  count < 0 -> show_rounded (js_mul (js_div 0 count) 100) = "0".
Proof.
  intro H. unfold js_div.
  replace (count =? 0) with false by (symmetry; apply Z.eqb_neq; lia).
  unfold round_double at 1.
  change (Qnum (inject_Z 0 / inject_Z count)) with 0.
  reflexivity.
Qed.

End RateFacts.

(* ================================================================== *)
(** * Part III: the statements of the specification                    *)
(* ================================================================== *)

Import Tcp Server Spec.

(** ** Input validator *)

(** C5, as amended.  A host of shape (a) (four decimal octets in [0, 255]),
    of shape (b) as the validator knows it (eight groups, or the groups
    around one [::]; the last two groups as a dotted quad after [::],
    [::ffff:], [::ffff:0:] or one to four groups and [::]; [fe80:] with a
    zone), or of shape (c) (dot-separated labels) that is not a string of
    digits and dots, together with an integer port in [1, 65535], is
    accepted: [validateConnection] returns [{isValid: true}]. *)
Theorem validateConnection_accepts (h : string) (p : Z) :
  ipv4_shape h = true \/ ipv6_shape h \/
    (hostname_shape h = true /\ digits_and_dots h = false) ->
  1 <= p <= 65535 ->
  validateConnection h (JInt p) = {| isValid := true; Validators.error := None |}.
Proof.
  intros Shape Port.
  assert (V : isValidHost h = true).
  { destruct Shape as [S | [S | [S L]]].
    - now apply HostFacts.isValidHost_ipv4_shape.
    - now apply MixedFacts.isValidHost_ipv6_shape.
    - now apply MixedFacts.isValidHost_named. }
  unfold validateConnection.
  destruct (String.eqb h "") eqn:E.
  - apply String.eqb_eq in E. subst h. discriminate V.
  - rewrite V. cbn [negb isValidPort Number_isInteger andb].
    replace (p >=? 1) with true by (symmetry; apply Z.geb_le; lia).
    replace (p <=? 65535) with true by (symmetry; apply Z.leb_le; lia).
    reflexivity.
Qed.

(** C5 at five targets: a dotted quad, a compressed IPv6 literal, an
    IPv4-mapped one, a link-local one with its zone, and a hostname. *)
Lemma validateConnection_accepts_witness :
  (ipv4_shape "192.168.1.1" = true /\ 1 <= 80 <= 65535 /\
   validateConnection "192.168.1.1" (JInt 80)
     = {| isValid := true; Validators.error := None |}) /\
  (ipv6_shape "2001:db8::1" /\ 1 <= 443 <= 65535 /\
   validateConnection "2001:db8::1" (JInt 443)
     = {| isValid := true; Validators.error := None |}) /\
  (ipv6_shape "::ffff:192.168.1.1" /\ 1 <= 443 <= 65535 /\
   validateConnection "::ffff:192.168.1.1" (JInt 443)
     = {| isValid := true; Validators.error := None |}) /\
  (ipv6_shape "fe80::1%eth0" /\ 1 <= 22 <= 65535 /\
   validateConnection "fe80::1%eth0" (JInt 22)
     = {| isValid := true; Validators.error := None |}) /\
  (hostname_shape "sub-domain.example.com" = true /\
   digits_and_dots "sub-domain.example.com" = false /\ 1 <= 65535 <= 65535 /\
   validateConnection "sub-domain.example.com" (JInt 65535)
     = {| isValid := true; Validators.error := None |}).
Proof.
  assert (V6 : ipv6_shape "2001:db8::1").
  { left. right. exists [chars "2001"; chars "db8"], [chars "1"].
    repeat split; [cbn; lia]. }
  assert (M6 : ipv6_shape "::ffff:192.168.1.1").
  { right. left. exists (chars "::ffff:"), [chars "192"; chars "168"; chars "1"; chars "1"].
    repeat split. right. left. reflexivity. }
  assert (Z6 : ipv6_shape "fe80::1%eth0").
  { right. right. exists [chars "1"], (chars "eth0").
    repeat split; [cbn; lia | discriminate]. }
  split; [| split; [| split; [| split]]].
  - split; [reflexivity |]. split; [lia |].
    apply validateConnection_accepts; [left; reflexivity | lia].
  - split; [exact V6 |]. split; [lia |].
    apply validateConnection_accepts; [right; left; exact V6 | lia].
  - split; [exact M6 |]. split; [lia |].
    apply validateConnection_accepts; [right; left; exact M6 | lia].
  - split; [exact Z6 |]. split; [lia |].
    apply validateConnection_accepts; [right; left; exact Z6 | lia].
  - split; [reflexivity |]. split; [reflexivity |]. split; [lia |].
    apply validateConnection_accepts; [right; right; split; reflexivity | lia].
Defined.

(** C5 as stated fails: "300.0.0.1" and "192.168.1" are made of labels of
    shape (c), the port 80 is in range, and both are refused.  So is the
    IPv6 literal "1:2:3:4:5:6:1.2.3.4", whose last two groups are written as
    a dotted quad after six groups. *)
Lemma hostname_of_numerals_refused :
  hostname_shape "300.0.0.1" = true /\
  hostname_shape "192.168.1" = true /\
  1 <= 80 <= 65535 /\
  isValidHost "1:2:3:4:5:6:1.2.3.4" = false /\
  validateConnection "300.0.0.1" (JInt 80)
    = {| isValid := false;
         Validators.error := Some "Invalid hostname or IP address format" |} /\
  validateConnection "192.168.1" (JInt 80)
    = {| isValid := false;
         Validators.error := Some "Invalid hostname or IP address format" |}.
Proof. repeat split; try reflexivity; lia. Qed.

(** C6 at "1000.0.0.1" and "1.2.3.4.5555": strings of digits and dots, the
    first with an octet above 255, the second with five octets, and
    [isValidHost] answers true for both. *)
Theorem isValidHost_accepts_long_octets :
  forallb (fun c => is_digit c || is_char "." c) (chars "1000.0.0.1") = true /\
  map decimal (split_on "." (chars "1000.0.0.1")) = [1000; 0; 0; 1] /\
  isValidHost "1000.0.0.1" = true /\
  forallb (fun c => is_digit c || is_char "." c) (chars "1.2.3.4.5555") = true /\
  map decimal (split_on "." (chars "1.2.3.4.5555")) = [1; 2; 3; 4; 5555] /\
  isValidHost "1.2.3.4.5555" = true.
Proof. repeat split; vm_compute; reflexivity. Qed.

(** X4.  On a string made only of numerals of one to three digits
    separated by dots, [isValidHost] is true exactly when there are four
    numerals and none exceeds 255. *)
Theorem isValidHost_on_short_numerals (h : string) :
  ipv4_like h = true ->
  isValidHost h =
  Nat.eqb (List.length (split_on "." (chars h))) 4
  && forallb (fun p => decimal p <=? 255) (split_on "." (chars h)).
Proof. apply NumeralFacts.isValidHost_numerals. Qed.

Lemma isValidHost_on_short_numerals_witness :
  (ipv4_like "999.1.1.1" = true /\ ipv4_like "1.2.3" = true /\
   ipv4_like "1.2.3.4.5" = true /\ ipv4_like "000.00.0.255" = true) /\
  isValidHost "999.1.1.1" = false /\ isValidHost "1.2.3" = false /\
  isValidHost "1.2.3.4.5" = false /\ isValidHost "000.00.0.255" = true.
Proof.
  split; [repeat split |]. split; [| split; [| split]].
  - rewrite (isValidHost_on_short_numerals "999.1.1.1") by reflexivity. reflexivity.
  - rewrite (isValidHost_on_short_numerals "1.2.3") by reflexivity. reflexivity.
  - rewrite (isValidHost_on_short_numerals "1.2.3.4.5") by reflexivity. reflexivity.
  - rewrite (isValidHost_on_short_numerals "000.00.0.255") by reflexivity. reflexivity.
Defined.

(** X5.  Four decimal octets with values in [0, 255], of any number of
    digits, separated by dots are accepted by [isValidHost]. *)
Theorem isValidHost_four_octets (h : string) :
  ipv4_shape h = true -> isValidHost h = true.
Proof. apply HostFacts.isValidHost_ipv4_shape. Qed.

Lemma isValidHost_four_octets_witness :
  (ipv4_shape "10.0.1.5" = true /\ isValidHost "10.0.1.5" = true) /\
  (ipv4_shape "0010.0.01.5" = true /\ isValidHost "0010.0.01.5" = true).
Proof.
  split; (split; [reflexivity | apply isValidHost_four_octets; reflexivity]).
Defined.

(** ** Single-probe connector *)

(** C9.  Whatever settles a connection attempt, a failed outcome carries a
    message and no response time, a successful one a response time and no
    message, and when the timer runs first the message is
    ["Connection timeout after {timeout}ms"].  There is an outcome exactly
    when [socket.connect] accepts the port; otherwise the promise rejects
    with ERR_SOCKET_BAD_PORT. *)
Theorem tcpConnect_outcome (net : Network) (host : string) (port : Z)
  (timeout : option Z) (log : list Effect) :
  let t := default_to 3000 timeout in
  let call := {| call_host := host; call_port := port; call_timeout := t |} in
  (forall r, fst (tcpConnect net host port timeout log) = Resolved r ->
     (success r = false -> (exists m, error r = Some m) /\ responseTime r = None) /\
     (success r = true -> (exists ms, responseTime r = Some ms) /\ error r = None) /\
     (settledBy (net log call) = OnTimeout ->
      success r = false /\
      error r = Some ("Connection timeout after " +++ show_Z t +++ "ms"))) /\
  (isLegalPort port = true ->
   exists r, fst (tcpConnect net host port timeout log) = Resolved r) /\
  (isLegalPort port = false ->
   fst (tcpConnect net host port timeout log) = Rejected (ERR_SOCKET_BAD_PORT port)).
Proof.
  intros t call. split; [| split].
  - intros r R. apply IOFacts.tcpConnect_resolved in R as [_ ->].
    subst t call. unfold outcome.
    destruct (settledBy _) eqn:S; cbn [success responseTime error];
      repeat split; intros; try discriminate; eauto.
  - intro L. rewrite (IOFacts.tcpConnect_legal net host port timeout log L).
    cbn [fst]. eauto.
  - intro L. now rewrite (IOFacts.tcpConnect_illegal net host port timeout log L).
Qed.

(** The scenario of the specification: a deadline of 100 ms on a target that
    never answers. *)
Example tcpConnect_timeout_100 :
  fst (tcpConnect Scenario.silent "10.255.255.1" 81 (Some 100) [])
  = Resolved {| success := false; responseTime := None;
                error := Some "Connection timeout after 100ms" |}.
Proof. reflexivity. Qed.

(** ** Repeated-probe aggregator *)

(** X1.  For an integer [count]: on a port that [socket.connect] accepts,
    whether the target passes the validator or not, [tcping] resolves and
    has called the connector [count] times (not at all for [count <= 0]),
    each time with the host, the port and the timeout of the options; on a
    port that is refused, with [count > 0], the first call is the only one
    and [tcping] rejects with what it threw. *)
Theorem tcping_probes (net : Network) (options : TcpingOptions) (log : list Effect) :
  let call := {| call_host := opt_host options; call_port := opt_port options;
                 call_timeout := default_to 3000 (opt_timeout options) |} in
  let count := default_to 4 (opt_count options) in
  (isLegalPort (opt_port options) = true \/ count <= 0 ->
   (exists r, fst (tcping net options log) = Resolved r) /\
   probes (snd (tcping net options log)) = probes log ++ repeat call (Z.to_nat count)) /\
  (isLegalPort (opt_port options) = false /\ 0 < count ->
   tcping net options log
   = (Rejected (ERR_SOCKET_BAD_PORT (opt_port options)), log ++ [Probe call])).
Proof.
  intros call count. split.
  - intros [L | C].
    + destruct (IOFacts.tcping_legal net (fun _ => True) options log L) as (rs & E & _);
        [auto |].
      rewrite E. cbn [fst snd]. split; [eauto |].
      rewrite IOFacts.probes_app. f_equal. fold call. fold count.
      generalize (default_to 1000 (opt_interval options)). intro interval.
      induction (Z.to_nat count) as [| [| n] IH]; [reflexivity | reflexivity |].
      change (schedule call interval (S (S n)))
        with (Probe call :: Sleep interval :: schedule call interval (S n)).
      cbn [probes repeat]. f_equal. exact IH.
    + rewrite (IOFacts.tcping_empty net options log C). cbn [fst snd].
      split; [eauto |]. replace (Z.to_nat count) with 0%nat by (subst count; lia).
      cbn [repeat]. now rewrite app_nil_r.
  - intros [L C]. now apply IOFacts.tcping_illegal.
Qed.

Lemma handlers_share_the_loop (net : Network) (options : TcpingOptions) (log : list Effect) :
  snd (handleTcping net options log) = snd (tcping net options log) /\
  snd (handleTcping_inline net options log) = snd (tcping net options log).
Proof.
  unfold handleTcping, handleTcping_inline, tcping, bind.
  destruct (for_loop _ _ _ _ _ _) as [[rs | e] log']; split; reflexivity.
Qed.

(** C1 at [{host: "", port: 80, count: 2}], the input of the test "validates
    input parameters": the target fails validation, and [tcping] makes two
    calls to the connector and reports [attempts = 2] with two outcomes. *)
Theorem tcping_probes_invalid_target (net : Network) :
  let options := {| opt_host := ""; opt_port := 80; opt_timeout := None;
                    opt_count := Some 2; opt_interval := None |} in
  let call := {| call_host := ""; call_port := 80; call_timeout := 3000 |} in
  validateConnection "" (JInt 80)
    = {| isValid := false;
         Validators.error := Some "Host must be a non-empty string" |} /\
  (exists r, fst (tcping net options []) = Resolved r /\
             attempts r = 2 /\ List.length (results r) = 2%nat) /\
  probes (snd (tcping net options [])) = [call; call] /\
  probes (snd (handleTcping net options [])) = [call; call] /\
  probes (snd (handleTcping_inline net options [])) = [call; call].
Proof.
  intros options call.
  destruct (handlers_share_the_loop net options []) as [-> ->].
  destruct (IOFacts.tcping_legal net (fun _ => True) options [] eq_refl) as (rs & E & L & _);
    [auto |].
  rewrite E. cbn [fst snd]. split; [reflexivity |]. split.
  - eexists. split; [reflexivity |]. cbn [summarise attempts results]. split;
      [reflexivity | exact L].
  - repeat split.
Qed.

(** C3 at one attempt that succeeds within the millisecond it started in:
    [successfulAttempts = 1], and none of the three statistics is there. *)
Theorem tcping_zero_ms_success_has_no_statistics :
  let options := {| opt_host := "localhost"; opt_port := 8080; opt_timeout := None;
                    opt_count := Some 1; opt_interval := None |} in
  exists r,
    fst (tcping Scenario.local_listener options []) = Resolved r /\
    results r = [{| success := true; responseTime := Some 0; error := None |}] /\
    successfulAttempts r = 1 /\
    ok r = true /\
    averageTime r = None /\ minTime r = None /\ maxTime r = None.
Proof. eexists. split; [reflexivity |]. repeat split. Qed.

(** C4 at two successful attempts, of 0 ms and of 10 ms: the statistics are
    there and read 10, 10, 10, while the mean of the response times of the
    successful attempts is 5 and their minimum is 0. *)
Theorem tcping_statistics_skip_zero_ms_success :
  let options := {| opt_host := "localhost"; opt_port := 8080; opt_timeout := None;
                    opt_count := Some 2; opt_interval := Some 0 |} in
  exists r,
    fst (tcping Scenario.local_listener options []) = Resolved r /\
    successfulAttempts r = 2 /\
    successTimes (results r) = [0; 10] /\
    averageTime r = Some 10 /\ minTime r = Some 10 /\ maxTime r = Some 10 /\
    rounded_mean (successTimes (results r)) = 5 /\
    minimum (successTimes (results r)) = Some 0 /\
    maximum (successTimes (results r)) = Some 10.
Proof. eexists. split; [reflexivity |]. repeat split. Qed.

(** X2.  On every run where no successful attempt has measured 0 ms, each
    of the three statistics is there exactly when [successfulAttempts > 0],
    and they are then the rounded mean, the minimum and the maximum of the
    response times of the successful attempts. *)
Theorem tcping_statistics_of_successes (net : Network) (options : TcpingOptions)
  (log : list Effect) (r : TcpingResult) :
  fst (tcping net options log) = Resolved r ->
  ~ In 0 (successTimes (results r)) ->
  (successfulAttempts r > 0 <-> averageTime r <> None) /\
  (successfulAttempts r > 0 <-> minTime r <> None) /\
  (successfulAttempts r > 0 <-> maxTime r <> None) /\
  (successfulAttempts r > 0 ->
   averageTime r = Some (rounded_mean (successTimes (results r))) /\
   minTime r = minimum (successTimes (results r)) /\
   maxTime r = maximum (successTimes (results r))).
Proof.
  intros R.
  destruct (IOFacts.tcping_resolved net (fun _ => True) options log r) as (rs & -> & _ & _ & F);
    [auto | exact R |].
  cbn [summarise results]. intro NZ.
  now apply StatsFacts.statistics_of_successes.
Qed.

Lemma tcping_statistics_of_successes_witness :
  let options := {| opt_host := "example.com"; opt_port := 80; opt_timeout := None;
                    opt_count := Some 3; opt_interval := None |} in
  exists r,
    (fst (tcping Scenario.steady options []) = Resolved r /\
     ~ In 0 (successTimes (results r))) /\
    (successfulAttempts r > 0 <-> averageTime r <> None) /\
    (successfulAttempts r > 0 <-> minTime r <> None) /\
    (successfulAttempts r > 0 <-> maxTime r <> None) /\
    (successfulAttempts r > 0 ->
     averageTime r = Some (rounded_mean (successTimes (results r))) /\
     minTime r = minimum (successTimes (results r)) /\
     maxTime r = maximum (successTimes (results r))).
Proof.
  intro options. eexists.
  assert (R : fst (tcping Scenario.steady options []) = Resolved _) by reflexivity.
  assert (NZ : ~ In 0 (successTimes (results
                 (summarise "example.com" 80 3
                    (let o := {| success := true; responseTime := Some 42;
                                 error := None |} in [o; o; o]))))).
  { cbn. intros [H | [H | [H | []]]]; discriminate. }
  split; [split; [exact R | exact NZ] |].
  exact (tcping_statistics_of_successes Scenario.steady options [] _ R NZ).
Defined.

(** X3.  On every run whatever: when the three statistics are there,
    [minTime <= averageTime <= maxTime], and some attempt has succeeded. *)
Theorem tcping_statistics_ordered (net : Network) (options : TcpingOptions)
  (log : list Effect) (r : TcpingResult) (a mn mx : Z) :
  fst (tcping net options log) = Resolved r ->
  averageTime r = Some a -> minTime r = Some mn -> maxTime r = Some mx ->
  mn <= a <= mx /\ successfulAttempts r > 0.
Proof.
  intros R.
  destruct (IOFacts.tcping_resolved net (fun _ => True) options log r) as (rs & -> & _ & _ & F);
    [auto | exact R |].
  intros A Mn Mx. split.
  - eapply StatsFacts.summarise_ordered; eassumption.
  - apply StatsFacts.statistics_need_success; [assumption | congruence].
Qed.

Lemma tcping_statistics_ordered_witness :
  let options := {| opt_host := "localhost"; opt_port := 8080; opt_timeout := None;
                    opt_count := Some 3; opt_interval := Some 0 |} in
  exists r,
    (fst (tcping Scenario.local_listener options []) = Resolved r /\
     averageTime r = Some 10 /\ minTime r = Some 10 /\ maxTime r = Some 10) /\
    10 <= 10 <= 10 /\ successfulAttempts r > 0.
Proof.
  intro options. eexists.
  assert (R : fst (tcping Scenario.local_listener options []) = Resolved _)
    by reflexivity.
  split; [split; [exact R | repeat split] |].
  exact (tcping_statistics_ordered Scenario.local_listener options [] _ 10 10 10
           R eq_refl eq_refl eq_refl).
Defined.

(** C10.  With [count <= 0] the loop of [tcping] is not entered: no call to
    the connector (nor any other effect), [attempts = count],
    [successfulAttempts = 0], [success = false], no outcome and no
    statistics; and the summary prints the rate as 0 divided by [count],
    times 100, rounded: "NaN" for [count = 0], "0" below. *)
Theorem tcping_without_attempts (net : Network) (options : TcpingOptions)
  (log : list Effect) :
  default_to 4 (opt_count options) <= 0 ->
  let count := default_to 4 (opt_count options) in
  snd (tcping net options log) = log /\
  (exists r,
      fst (tcping net options log) = Resolved r /\
      attempts r = count /\ successfulAttempts r = 0 /\ ok r = false /\
      results r = [] /\
      averageTime r = None /\ minTime r = None /\ maxTime r = None) /\
  snd (handleTcping net options log) = log /\
  fst (handleTcping net options log)
  = Resolved
      ("TCPING " +++ opt_host options +++ ":" +++ show_Z (opt_port options) +++ newline
       +++ newline +++ "Results:" +++ newline
       +++ newline +++ "Summary:" +++ newline
       +++ "  Success Rate: 0/" +++ show_Z count +++ " ("
       +++ show_rounded (js_mul (js_div 0 count) 100) +++ "%)" +++ newline) /\
  show_rounded (js_mul (js_div 0 count) 100) = (if count =? 0 then "NaN" else "0").
Proof.
  intros H count.
  rewrite IOFacts.handleTcping_run, (IOFacts.tcping_empty net options log H).
  fold count. cbn [fst snd].
  split; [reflexivity |]. split; [| split; [reflexivity | split]].
  - eexists. split; [reflexivity |]. repeat split.
  - f_equal. unfold render_tcping, success_rate_line, summarise.
    cbn -[String.append show_Z show_rounded js_div js_mul newline count].
    change (show_Z 0) with "0".
    rewrite !HandlerFacts.append_assoc. reflexivity.
  - destruct (count =? 0) eqn:E.
    + apply Z.eqb_eq in E. rewrite E. reflexivity.
    + apply Z.eqb_neq in E. apply RateFacts.rate_of_none. lia.
Qed.

(** C10 at [count = 0] and at [count = -1], on a target that never answers. *)
Lemma tcping_without_attempts_witness :
  let zero := {| opt_host := "example.com"; opt_port := 80; opt_timeout := None;
                 opt_count := Some 0; opt_interval := None |} in
  let minus := {| opt_host := "example.com"; opt_port := 80; opt_timeout := None;
                  opt_count := Some (-1); opt_interval := None |} in
  (default_to 4 (opt_count zero) <= 0 /\
   snd (tcping Scenario.silent zero []) = [] /\
   (exists r, fst (tcping Scenario.silent zero []) = Resolved r /\ attempts r = 0) /\
   fst (handleTcping Scenario.silent zero [])
   = Resolved
       ("TCPING example.com:80" +++ newline +++ newline +++ "Results:" +++ newline
        +++ newline +++ "Summary:" +++ newline
        +++ "  Success Rate: 0/0 (NaN%)" +++ newline)) /\
  (default_to 4 (opt_count minus) <= 0 /\
   snd (tcping Scenario.silent minus []) = [] /\
   (exists r, fst (tcping Scenario.silent minus []) = Resolved r /\ attempts r = -1) /\
   fst (handleTcping Scenario.silent minus [])
   = Resolved
       ("TCPING example.com:80" +++ newline +++ newline +++ "Results:" +++ newline
        +++ newline +++ "Summary:" +++ newline
        +++ "  Success Rate: 0/-1 (0%)" +++ newline)).
Proof.
  intros zero minus.
  assert (Hz : default_to 4 (opt_count zero) <= 0) by (cbn; lia).
  assert (Hm : default_to 4 (opt_count minus) <= 0) by (cbn; lia).
  split.
  - destruct (tcping_without_attempts Scenario.silent zero [] Hz) as
      (H1 & (r & R & A & _) & _ & H3 & _).
    split; [exact Hz | split; [exact H1 | split; [exists r; split; [exact R | exact A] |
                                                  exact H3]]].
  - destruct (tcping_without_attempts Scenario.silent minus [] Hm) as
      (H1 & (r & R & A & _) & _ & H3 & _).
    split; [exact Hm | split; [exact H1 | split; [exists r; split; [exact R | exact A] |
                                                  exact H3]]].
Defined.

(** ** Firewall rule evaluator *)

(** C7.  On rules whose ports [socket.connect] accepts (a port of a
    ConnectionTarget lies in [1, 65535]), the evaluator probes the rules
    once each, in input order, and pushes one result per rule in that
    order, carrying the rule and the outcome of its probe; [passed] is
    [actual == expected], so a rule that expects blocked traffic passes
    exactly when its probe fails and one that expects reachable traffic
    exactly when its probe succeeds; the report ends with [passed]/[total]
    rules passed. *)
Theorem firewall_report (net : Network) (rules : list FirewallRule)
  (timeout : option Z) (log : list Effect) :
  legal_rules rules = true ->
  let t := default_to 3000 timeout in
  let outcomes := probe_all net log (map (rule_call t) rules) in
  exists results output,
    handleFirewallValidation net rules timeout log
      = (Resolved (results, output), log ++ map Probe (map (rule_call t) rules)) /\
    List.length results = List.length rules /\
    (forall i rule,
        nth_error rules i = Some rule ->
        exists res outcome,
          nth_error results i = Some res /\ nth_error outcomes i = Some outcome /\
          name res = rule_name rule /\ fw_host res = rule_host rule /\
          fw_port res = rule_port rule /\ expected res = rule_expected rule /\
          actual res = success outcome /\
          passed res = Bool.eqb (actual res) (expected res) /\
          (expected res = false -> (passed res = true <-> success outcome = false)) /\
          (expected res = true -> (passed res = true <-> success outcome = true))) /\
    exists body,
      output = body +++ "Overall Result: "
               +++ show_Z (Z.of_nat (List.length (filter passed results))) +++ "/"
               +++ show_Z (Z.of_nat (List.length rules)) +++ " rules passed" +++ newline.
Proof.
  intros Legal t outcomes.
  rewrite (HandlerFacts.firewall_run net rules timeout log Legal). cbn zeta.
  fold t. fold outcomes.
  assert (L : List.length
                (map (fun ro => rule_result (fst ro) (snd ro)) (combine rules outcomes))
              = List.length rules).
  { rewrite length_map, length_combine. subst outcomes.
    rewrite HandlerFacts.probe_all_length, length_map. lia. }
  eexists _, _. split; [reflexivity |]. split; [exact L |]. split.
  - intros i rule Hi.
    assert (Ho : exists outcome, nth_error outcomes i = Some outcome).
    { destruct (nth_error outcomes i) eqn:N; [eauto |].
      apply nth_error_None in N. subst outcomes.
      rewrite HandlerFacts.probe_all_length, length_map in N.
      assert (i < List.length rules)%nat by (apply nth_error_Some; congruence). lia. }
    destruct Ho as (outcome & Ho).
    exists (rule_result rule outcome), outcome.
    split.
    { apply (map_nth_error (fun ro => rule_result (fst ro) (snd ro)) i
               (combine rules outcomes) (d := (rule, outcome))).
      now apply HandlerFacts.nth_error_combine. }
    cbn [rule_result name fw_host fw_port expected actual passed].
    repeat split; try reflexivity; try assumption;
      destruct (success outcome), (rule_expected rule); cbn;
      intros; try reflexivity; try discriminate; try congruence.
  - rewrite L. eexists.
    rewrite <- !HandlerFacts.append_assoc. reflexivity.
Qed.

(** C7 on the rule of the specification and a second one, against a target
    that refuses every connection. *)
Lemma firewall_report_witness :
  let rules := [{| rule_name := "SSH"; rule_host := "10.0.1.5"; rule_port := 22;
                   rule_expected := false |};
                {| rule_name := "web"; rule_host := "10.0.1.5"; rule_port := 443;
                   rule_expected := true |}] in
  legal_rules rules = true /\
  exists results output,
    handleFirewallValidation Scenario.refusing rules None []
      = (Resolved (results, output), map Probe (map (rule_call 3000) rules)) /\
    map (fun res => (name res, actual res, passed res)) results
      = [("SSH", false, true); ("web", false, false)].
Proof.
  intro rules.
  assert (L : legal_rules rules = true) by reflexivity.
  split; [exact L |].
  destruct (firewall_report Scenario.refusing rules None [] L)
    as (results & output & E & _).
  exists results, output. split; [exact E |].
  assert (R : fst (handleFirewallValidation Scenario.refusing rules None [])
              = Resolved (results, output)) by now rewrite E.
  vm_compute in R. injection R as <- _. reflexivity.
Defined.

(** The scenario of the specification: the rule SSH on 10.0.1.5:22 expects
    blocked traffic, the target refuses the connection, the rule passes. *)
Example firewall_ssh_blocked :
  exists results output,
    fst (handleFirewallValidation Scenario.refusing
           [{| rule_name := "SSH"; rule_host := "10.0.1.5"; rule_port := 22;
               rule_expected := false |}] None [])
    = Resolved (results, output) /\
    map (fun r => (name r, actual r, passed r)) results = [("SSH", false, true)].
Proof. eexists _, _. split; reflexivity. Qed.

(** ** Port-range scanner *)

(** C8.  A scan whose range, if not empty, lies within the ports that
    [socket.connect] accepts probes the ports of [startPort..endPort] and no
    other, one call each, in ascending order; [openPorts] holds, in that
    order, the ports whose probe succeeded, with the response time of the
    probe; and when [startPort > endPort] there is no probe and [openPorts]
    is empty. *)
Theorem scan_report (net : Network) (host : string) (startPort endPort : Z)
  (timeout : option Z) (log : list Effect) :
  (startPort <= endPort -> 0 <= startPort /\ endPort <= 65535) ->
  let t := default_to 1000 timeout in
  let ports := port_range startPort endPort in
  let outcomes := probe_all net log (map (scan_call host t) ports) in
  exists openPorts output,
    handleNetworkScan net host startPort endPort timeout log
      = (Resolved (openPorts, output), log ++ map Probe (map (scan_call host t) ports)) /\
    (forall p, In p ports <-> startPort <= p <= endPort) /\
    StronglySorted Z.lt ports /\
    openPorts = map open_port (filter (fun po => success (snd po)) (combine ports outcomes)) /\
    StronglySorted Z.lt (map op_port openPorts) /\
    (forall p, In p (map op_port openPorts) -> startPort <= p <= endPort) /\
    (startPort > endPort ->
     snd (handleNetworkScan net host startPort endPort timeout log) = log /\
     openPorts = []).
Proof.
  intros Range t ports outcomes.
  rewrite (HandlerFacts.scan_run net host startPort endPort timeout log)
    by (now apply HandlerFacts.legal_range).
  cbn zeta. fold t. fold ports. fold outcomes.
  eexists _, _. split; [reflexivity |].
  assert (M : map op_port (map open_port
                (filter (fun po => success (snd po)) (combine ports outcomes)))
              = map fst (filter (fun po => success (snd po)) (combine ports outcomes))).
  { rewrite map_map. reflexivity. }
  assert (S : StronglySorted Z.lt ports) by apply HandlerFacts.ports_from_sorted.
  split; [intro p; apply HandlerFacts.port_range_spec |].
  split; [exact S |].
  split; [reflexivity |].
  split; [rewrite M; now apply HandlerFacts.kept_sorted |].
  split.
  - intros p Hp. rewrite M in Hp.
    apply (HandlerFacts.port_range_spec startPort endPort p).
    assert (F : Forall (fun q => In q ports)
                  (map fst (filter (fun po => success (snd po)) (combine ports outcomes)))).
    { apply HandlerFacts.kept_Forall. apply Forall_forall. auto. }
    rewrite Forall_forall in F. now apply F.
  - intro H. cbn [snd]. subst outcomes ports. unfold port_range.
    replace (Z.to_nat (endPort - startPort + 1)) with 0%nat by lia.
    cbn. now rewrite app_nil_r.
Qed.

(** C8 on the ports 8080 and 8081 of a listener of the machine itself. *)
Lemma scan_report_witness :
  (8080 <= 8081 -> 0 <= 8080 /\ 8081 <= 65535) /\
  exists openPorts output,
    handleNetworkScan Scenario.local_listener "localhost" 8080 8081 None []
      = (Resolved (openPorts, output),
         [Probe (scan_call "localhost" 1000 8080);
          Probe (scan_call "localhost" 1000 8081)]) /\
    openPorts = [{| op_port := 8080; op_responseTime := Some 0 |};
                 {| op_port := 8081; op_responseTime := Some 10 |}].
Proof.
  assert (R : 8080 <= 8081 -> 0 <= 8080 /\ 8081 <= 65535) by lia.
  split; [exact R |].
  destruct (scan_report Scenario.local_listener "localhost" 8080 8081 None [] R)
    as (openPorts & output & E & _ & _ & O & _).
  exists openPorts, output. split; [exact E | exact O].
Defined.

(** The scenario of the specification: [network_scan(host, 20, 19)]. *)
Example scan_empty_range (net : Network) :
  handleNetworkScan net "example.com" 20 19 None []
  = (Resolved
       ([], "Network Scan: example.com:20-19" +++ newline
            +++ repeat_string "=" 50 +++ newline +++ newline
            +++ "No open ports found in the specified range." +++ newline), []).
Proof. reflexivity. Qed.

(** ** The validator and the handlers *)

(** C2 at a rule and at a scan on the host "300.0.0.1", which the validator
    refuses: the evaluator calls the connector for the rule, and the scanner
    for each port of the range. *)
Theorem handlers_probe_invalid_targets (net : Network) :
  let rule := {| rule_name := "db"; rule_host := "300.0.0.1"; rule_port := 5432;
                 rule_expected := false |} in
  Validators.isValid (validateConnection "300.0.0.1" (JInt 5432)) = false /\
  Validators.isValid (validateConnection "300.0.0.1" (JInt 80)) = false /\
  snd (handleFirewallValidation net [rule] None [])
    = [Probe {| call_host := "300.0.0.1"; call_port := 5432; call_timeout := 3000 |}] /\
  snd (handleNetworkScan net "300.0.0.1" 80 81 None [])
    = [Probe {| call_host := "300.0.0.1"; call_port := 80; call_timeout := 1000 |};
       Probe {| call_host := "300.0.0.1"; call_port := 81; call_timeout := 1000 |}].
Proof.
  intro rule. split; [reflexivity |]. split; [reflexivity |]. split.
  - now rewrite (HandlerFacts.firewall_run net [rule] None [] eq_refl).
  - now rewrite (HandlerFacts.scan_run net "300.0.0.1" 80 81 None [] eq_refl).
Qed.

(** ** The loops run to their end *)

(** The guard of the loop of [tcping] fails after [count] turns, and that of
    the scanner after the last port: fuel beyond that changes nothing. *)
Lemma tcping_loop_fuel (net : Network) (host : string)
  (port timeout count interval : Z) (extra : nat) (log : list Effect) :
  for_loop (Z.to_nat count + extra) (fun i => i <? count) 0
    (attempt net host port timeout count interval) [] log
  = for_loop (Z.to_nat count) (fun i => i <? count) 0
      (attempt net host port timeout count interval) [] log.
Proof. apply IOFacts.for_loop_fuel. apply Z.ltb_ge. lia. Qed.

Lemma scan_loop_fuel (net : Network) (host : string)
  (timeout startPort endPort : Z) (extra : nat) (st : list OpenPort * string)
  (log : list Effect) :
  for_loop (Z.to_nat (endPort - startPort + 1) + extra) (fun port => port <=? endPort)
    startPort (scan_step net host timeout) st log
  = for_loop (Z.to_nat (endPort - startPort + 1)) (fun port => port <=? endPort)
      startPort (scan_step net host timeout) st log.
Proof. apply IOFacts.for_loop_fuel. apply Z.leb_gt. lia. Qed.

(** ** The expectations of the test suite of the validators *)

Example valid_ipv4_addresses :
  map isValidHost ["192.168.1.1"; "10.0.0.1"; "127.0.0.1"; "255.255.255.255"]
  = [true; true; true; true].
Proof. vm_compute. reflexivity. Qed.

Example invalid_ipv4_addresses :
  map isValidHost ["300.0.0.1"; "192.168.1"; "192.168.1.1.1"; "192.168.1.-1"]
  = [false; false; false; false].
Proof. vm_compute. reflexivity. Qed.

Example valid_hostnames :
  map isValidHost ["localhost"; "example.com"; "sub.example.com"; "sub-domain.example.com"]
  = [true; true; true; true].
Proof. vm_compute. reflexivity. Qed.

Example invalid_hostnames :
  map isValidHost [""; "example..com"; "-example.com"; "example-.com"]
  = [false; false; false; false].
Proof. vm_compute. reflexivity. Qed.

Example ipv6_literals :
  map isValidHost ["::1"; "::"; "2001:db8::ff00:42:8329"; "1:2:3:4:5:6:7:8";
                   "fe80::1%eth0"; "::ffff:192.168.1.1"; "1:2:3:4:5:6:1.2.3.4";
                   "1:2:3:4:5:6:7:8:9"]
  = [true; true; true; true; true; true; false; false].
Proof. vm_compute. reflexivity. Qed.

Example ports :
  map isValidPort [JInt 1; JInt 80; JInt 65535; JInt 0; JInt (-1); JInt 65536; JNotInt]
  = [true; true; true; false; false; false; false].
Proof. reflexivity. Qed.

(** The scenario of the specification: three attempts on a target that
    answers in 42 ms. *)
Example tcping_42 :
  exists r,
    fst (tcping Scenario.steady
           {| opt_host := "example.com"; opt_port := 80;
              opt_timeout := None; opt_count := Some 3;
              opt_interval := None |} []) = Resolved r /\
    (attempts r, successfulAttempts r, averageTime r, minTime r, maxTime r)
    = (3, 3, Some 42, Some 42, Some 42).
Proof. eexists. split; reflexivity. Qed.

(** The success rate is computed in doubles: 23 successes out of 40 print
    57%, the product of the double nearest to 0.575 by 100 lying just below
    57.5. *)
Example rate_23_of_40 :
  show_rounded (js_mul (js_div 23 40) 100) = "57" /\
  Math_round (inject_Z 23 / inject_Z 40 * inject_Z 100) = 58.
Proof. split; vm_compute; reflexivity. Qed.

(* ================================================================== *)
(** * Part IV: further properties of the code                          *)
(* ================================================================== *)

(** ** The validator, decided by shape *)

Import DecisionFacts.

(** X6.  [isValidHost] is decided by the shape of the host: a host with a
    colon is accepted exactly when the IPv6 pattern matches it; a host
    without one exactly when it is made of dot-separated labels
    [[A-Za-z0-9]([A-Za-z0-9-]*[A-Za-z0-9])?] and, if these are all numerals
    of one to three digits, there are four of them and none is above 255. *)
Theorem isValidHost_decided (h : string) :
  isValidHost h =
  if existsb (is_char ":") (chars h) then test ipv6Regex h
  else hostname_shape h && (negb (ipv4_like h) || ipv4_shape h).
Proof.
  destruct (existsb (is_char ":") (chars h)) eqn:C.
  - pose proof (no_colon_in_hostname h C) as Hn.
    pose proof (no_colon_in_numerals h C) as Hl. unfold ipv4_like in Hl.
    assert (NE : String.eqb h "" = false).
    { apply String.eqb_neq. intros ->. discriminate C. }
    unfold isValidHost, match_ipv4.
    rewrite NE, HostFacts.ipv4Pattern_test, HostFacts.incompleteIpv4_test,
      HostFacts.overlongIpv4_test, Hl, !andb_false_r.
    cbn [andb]. rewrite hostnameRegex_decides, Hn.
    now destruct (test ipv6Regex h).
  - destruct (ipv4_like h) eqn:L.
    + rewrite (NumeralFacts.isValidHost_numerals h L).
      rewrite (short_numerals_are_labels h L). cbn [negb orb andb].
      unfold ipv4_shape. now rewrite (short_numerals_octets h L).
    + cbn [negb orb]. rewrite andb_true_r.
      destruct (String.eqb h "") eqn:NE.
      * apply String.eqb_eq in NE. subst h. reflexivity.
      * unfold ipv4_like in L. unfold isValidHost, match_ipv4.
        rewrite NE, HostFacts.ipv4Pattern_test, HostFacts.incompleteIpv4_test,
          HostFacts.overlongIpv4_test, L, !andb_false_r.
        cbn [andb]. rewrite (ipv6Regex_needs_a_colon h C).
        apply hostnameRegex_decides.
Qed.

(** X7.  A host that [isValidHost] accepts is written with letters, digits,
    hyphens, dots, colons and percent signs only: no blank, no slash, no
    other character gets through. *)
Theorem isValidHost_host_chars (h : string) :
  isValidHost h = true -> forallb host_char (chars h) = true.
Proof.
  intro V. destruct patterns_within as (W4 & W6 & Wh & _).
  destruct (accepted_by_a_pattern h V) as [T | [T | T]];
    apply HostFacts.test_true in T.
  - exact (within_sound _ _ _ W4 T).
  - exact (within_sound _ _ _ W6 T).
  - exact (within_sound _ _ _ Wh T).
Qed.

Lemma isValidHost_host_chars_witness :
  isValidHost "fe80::1%eth0" = true /\
  forallb host_char (chars "fe80::1%eth0") = true.
Proof.
  assert (V : isValidHost "fe80::1%eth0" = true) by (vm_compute; reflexivity).
  split; [exact V | exact (isValidHost_host_chars "fe80::1%eth0" V)].
Defined.

(** X8.  [validateConnection] accepts exactly the targets that [isValidHost]
    and [isValidPort] both accept, and it gives a message exactly when it
    refuses: the one on the host when the host is at fault (whatever the
    port), the one on the port otherwise. *)
Theorem validateConnection_verdict (h : string) (port : jsnumber) :
  let v := validateConnection h port in
  isValid v = isValidHost h && isValidPort port /\
  Validators.error v =
    (if String.eqb h "" then Some "Host must be a non-empty string"
     else if negb (isValidHost h) then Some "Invalid hostname or IP address format"
     else if negb (isValidPort port)
          then Some "Port must be an integer between 1 and 65535"
     else None) /\
  (isValid v = true <-> Validators.error v = None).
Proof.
  unfold validateConnection.
  destruct (String.eqb h "") eqn:E.
  - apply String.eqb_eq in E. subst h. cbn. repeat split; discriminate.
  - destruct (isValidHost h), (isValidPort port); cbn; repeat split; discriminate.
Qed.

(** ** Repeated-probe aggregator, continued *)

(** X9.  For an integer [count]: on a port that [socket.connect] accepts
    (or with [count <= 0]) the effects of [tcping], and of both revisions
    of its handler, are the [count] calls of the connector with a pause of
    [interval] after each of them but the last: never a pause after the
    last attempt, none at all for a single attempt.  On a port that is
    refused, with [count > 0], the one effect is the call that throws. *)
Theorem tcping_schedule (net : Network) (options : TcpingOptions) (log : list Effect) :
  let call := {| call_host := opt_host options; call_port := opt_port options;
                 call_timeout := default_to 3000 (opt_timeout options) |} in
  let count := default_to 4 (opt_count options) in
  let plan := schedule call (default_to 1000 (opt_interval options)) (Z.to_nat count) in
  (isLegalPort (opt_port options) = true \/ count <= 0 ->
   snd (tcping net options log) = log ++ plan /\
   snd (handleTcping net options log) = log ++ plan /\
   snd (handleTcping_inline net options log) = log ++ plan) /\
  (isLegalPort (opt_port options) = false /\ 0 < count ->
   snd (tcping net options log) = log ++ [Probe call] /\
   snd (handleTcping net options log) = log ++ [Probe call] /\
   snd (handleTcping_inline net options log) = log ++ [Probe call]).
Proof.
  intros call count plan.
  destruct (handlers_share_the_loop net options log) as [-> ->].
  split.
  - intro H.
    assert (E : snd (tcping net options log) = log ++ plan).
    { destruct H as [L | C].
      - destruct (IOFacts.tcping_legal net (fun _ => True) options log L)
          as (rs & E & _); [auto |].
        now rewrite E.
      - rewrite (IOFacts.tcping_empty net options log C). cbn [snd].
        subst plan. replace (Z.to_nat count) with 0%nat by (subst count; lia).
        cbn [schedule]. now rewrite app_nil_r. }
    auto.
  - intros [L C]. rewrite (IOFacts.tcping_illegal net options log L C). auto.
Qed.

(** X10.  For an integer [count], in every result of [tcping], [attempts]
    is [count] as given, [results] holds one outcome per attempt made
    ([count] of them, none when [count] is negative),
    [successfulAttempts] is the number of successful outcomes, hence
    between 0 and the number of attempts made, and [success] says whether
    there is one. *)
Theorem tcping_counts (net : Network) (options : TcpingOptions) (log : list Effect)
  (r : TcpingResult) :
  fst (tcping net options log) = Resolved r ->
  let count := default_to 4 (opt_count options) in
  attempts r = count /\
  Z.of_nat (List.length (results r)) = Z.max 0 count /\
  successfulAttempts r = Z.of_nat (List.length (filter success (results r))) /\
  0 <= successfulAttempts r <= Z.max 0 count /\
  (ok r = true <-> exists o, In o (results r) /\ success o = true).
Proof.
  intros R count.
  destruct (IOFacts.tcping_resolved net (fun _ => True) options log r)
    as (rs & -> & L & _ & _); [auto | exact R |].
  fold count in L. cbn [summarise attempts successfulAttempts ok results].
  pose proof (filter_length_le success rs) as Le.
  repeat split; try lia.
  - intro H. apply Z.gtb_lt in H.
    destruct (filter success rs) as [| o os] eqn:F; [cbn in H; lia |].
    assert (I : In o (filter success rs)) by (rewrite F; now left).
    apply filter_In in I. eauto.
  - intros (o & I & S). apply Z.gtb_lt.
    assert (I' : In o (filter success rs)) by (apply filter_In; auto).
    destruct (filter success rs); [contradiction | cbn [List.length]; lia].
Qed.

Lemma tcping_counts_witness :
  let options := {| opt_host := "localhost"; opt_port := 8080; opt_timeout := None;
                    opt_count := Some 3; opt_interval := Some 0 |} in
  exists r,
    fst (tcping Scenario.local_listener options []) = Resolved r /\
    attempts r = 3 /\
    Z.of_nat (List.length (results r)) = Z.max 0 3 /\
    successfulAttempts r = Z.of_nat (List.length (filter success (results r))) /\
    0 <= successfulAttempts r <= Z.max 0 3 /\
    (ok r = true <-> exists o, In o (results r) /\ success o = true).
Proof.
  intro options. eexists.
  assert (R : fst (tcping Scenario.local_listener options []) = Resolved _)
    by reflexivity.
  split; [exact R |].
  exact (tcping_counts Scenario.local_listener options [] _ R).
Defined.

(** X11.  When no attempt on the target connects, what [tcping] resolves
    with reports no success: [success] is false, [successfulAttempts] is 0,
    the three statistics are absent, and every outcome carries a message
    and no response time. *)
Theorem tcping_unreachable (net : Network) (options : TcpingOptions) (log : list Effect)
  (r : TcpingResult) :
  (forall l o, fst (tcpConnect net (opt_host options) (opt_port options)
                      (Some (default_to 3000 (opt_timeout options))) l) = Resolved o ->
               success o = false) ->
  fst (tcping net options log) = Resolved r ->
  ok r = false /\ successfulAttempts r = 0 /\
  averageTime r = None /\ minTime r = None /\ maxTime r = None /\
  Forall (fun o => success o = false /\ responseTime o = None /\
                   exists m, error o = Some m) (results r).
Proof.
  intros Hf R.
  destruct (IOFacts.tcping_resolved net (fun o => success o = false) options log r
              Hf R) as (rs & -> & _ & Fs & Fc).
  assert (F : Forall (fun o => success o = false /\ responseTime o = None /\
                               exists m, error o = Some m) rs).
  { rewrite Forall_forall in *. intros o I.
    destruct (Fc o I) as [(S & _) | (S & T & M)]; [| auto].
    rewrite (Fs o I) in S. discriminate. }
  cbn [summarise ok successfulAttempts averageTime minTime maxTime results].
  assert (E1 : filter success rs = []).
  { clear - F. induction F as [| o rs (S & _) _ IH]; [reflexivity |].
    cbn [filter]. now rewrite S. }
  assert (E2 : responseTimesOf rs = []).
  { unfold responseTimesOf. clear - F.
    induction F as [| o rs (_ & T & _) _ IH]; [reflexivity |].
    cbn [filter]. rewrite T. exact IH. }
  rewrite E1, E2. cbn. repeat split. exact F.
Qed.

Lemma tcping_unreachable_witness :
  let options := {| opt_host := "blocked-host.com"; opt_port := 80; opt_timeout := None;
                    opt_count := Some 2; opt_interval := None |} in
  exists r,
    ((forall l o, fst (tcpConnect Scenario.refusing "blocked-host.com" 80
                         (Some 3000) l) = Resolved o -> success o = false) /\
     fst (tcping Scenario.refusing options []) = Resolved r) /\
    ok r = false /\ successfulAttempts r = 0 /\
    averageTime r = None /\ minTime r = None /\ maxTime r = None /\
    Forall (fun o => success o = false /\ responseTime o = None /\
                     exists m, error o = Some m) (results r).
Proof.
  intro options. eexists.
  assert (H : forall l o, fst (tcpConnect Scenario.refusing "blocked-host.com" 80
                                 (Some 3000) l) = Resolved o -> success o = false).
  { intros l o [= <-]. reflexivity. }
  assert (R : fst (tcping Scenario.refusing options []) = Resolved _) by reflexivity.
  split; [split; [exact H | exact R] |].
  exact (tcping_unreachable Scenario.refusing options [] _ H R).
Defined.

(** X12.  When the statistics are there, [minTime] and [maxTime] are the
    response times of two successful attempts, and every non-zero response
    time of the run lies between them. *)
Theorem tcping_extrema (net : Network) (options : TcpingOptions) (log : list Effect)
  (r : TcpingResult) (mn mx : Z) :
  fst (tcping net options log) = Resolved r ->
  minTime r = Some mn -> maxTime r = Some mx ->
  (exists o, In o (results r) /\ success o = true /\ responseTime o = Some mn) /\
  (exists o, In o (results r) /\ success o = true /\ responseTime o = Some mx) /\
  (forall o t, In o (results r) -> responseTime o = Some t -> t <> 0 -> mn <= t <= mx).
Proof.
  intros R.
  destruct (IOFacts.tcping_resolved net (fun _ => True) options log r)
    as (rs & -> & _ & _ & F); [auto | exact R |].
  cbn [results]. intros Mn Mx.
  destruct (ExtremaFacts.summarise_extrema _ _ _ _ _ _ Mn Mx) as (Imn & Imx & B).
  assert (S : forall o t, In o rs -> responseTime o = Some t -> success o = true).
  { intros o t I T. rewrite Forall_forall in F.
    destruct (F o I) as [(S & _) | (_ & N & _)]; [exact S | congruence]. }
  apply ExtremaFacts.responseTimesOf_In in Imn as (o1 & I1 & E1 & _).
  apply ExtremaFacts.responseTimesOf_In in Imx as (o2 & I2 & E2 & _).
  split; [exists o1; eauto |]. split; [exists o2; eauto |].
  intros o t I T N. rewrite Forall_forall in B. apply B.
  apply ExtremaFacts.responseTimesOf_In. eauto.
Qed.

Lemma tcping_extrema_witness :
  let options := {| opt_host := "localhost"; opt_port := 8080; opt_timeout := None;
                    opt_count := Some 3; opt_interval := Some 0 |} in
  exists r,
    (fst (tcping Scenario.local_listener options []) = Resolved r /\
     minTime r = Some 10 /\ maxTime r = Some 10) /\
    (exists o, In o (results r) /\ success o = true /\ responseTime o = Some 10) /\
    (exists o, In o (results r) /\ success o = true /\ responseTime o = Some 10) /\
    (forall o t, In o (results r) -> responseTime o = Some t -> t <> 0 -> 10 <= t <= 10).
Proof.
  intro options. eexists.
  assert (R : fst (tcping Scenario.local_listener options []) = Resolved _)
    by reflexivity.
  split; [split; [exact R | split; reflexivity] |].
  exact (tcping_extrema Scenario.local_listener options [] _ 10 10 R eq_refl eq_refl).
Defined.

(** X13.  The two revisions of [handleTcping] return the same text, or
    reject alike, and leave the same effects whenever no attempt measures a
    negative response time (the clock does not go back between the start of
    an attempt and its connection). *)
Theorem handleTcping_revisions_agree (net : Network) (options : TcpingOptions)
  (log : list Effect) :
  (forall l c now, settledBy (net l c) = OnConnect now -> startTime (net l c) <= now) ->
  handleTcping net options log = handleTcping_inline net options log.
Proof.
  intro Clock.
  assert (F : forall r, fst (tcping net options log) = Resolved r ->
                        Forall (fun o => forall t, responseTime o = Some t -> 0 <= t)
                               (results r)).
  { intros r R.
    destruct (IOFacts.tcping_resolved net
                (fun o => forall t, responseTime o = Some t -> 0 <= t) options log r)
      as (rs & -> & _ & Fs & _); [| exact R | exact Fs].
    intros l o Ho t. apply IOFacts.tcpConnect_resolved in Ho as [_ ->].
    cbn [default_to]. unfold outcome. destruct (settledBy _) eqn:S; cbn [responseTime]; try discriminate.
    intros [= <-]. apply Clock in S. lia. }
  unfold handleTcping, handleTcping_inline, tcping, bind in *.
  destruct (for_loop _ _ _ _ _ _) as [[rs | e] log']; [| reflexivity].
  specialize (F _ eq_refl). cbn [results summarise] in F.
  unfold ret. f_equal. f_equal. unfold render_tcping.
  rewrite (ExtremaFacts.guards_agree _ _ _ rs F).
  reflexivity.
Qed.

Lemma handleTcping_revisions_agree_witness :
  let options := {| opt_host := "example.com"; opt_port := 80; opt_timeout := None;
                    opt_count := Some 3; opt_interval := None |} in
  (forall l c now, settledBy (Scenario.steady l c) = OnConnect now ->
                   startTime (Scenario.steady l c) <= now) /\
  handleTcping Scenario.steady options [] = handleTcping_inline Scenario.steady options [].
Proof.
  intro options.
  assert (H : forall l c now, settledBy (Scenario.steady l c) = OnConnect now ->
                              startTime (Scenario.steady l c) <= now).
  { intros l c now [= <-]. cbn. lia. }
  split; [exact H | exact (handleTcping_revisions_agree Scenario.steady options [] H)].
Defined.

(** X20.  For an integer [count > 0], the percentage of the "Success Rate"
    line, computed in doubles, is a number between 0 and 100: it is neither
    [NaN] nor infinite. *)
Theorem tcping_success_rate (net : Network) (options : TcpingOptions) (log : list Effect)
  (r : TcpingResult) :
  0 < default_to 4 (opt_count options) ->
  fst (tcping net options log) = Resolved r ->
  exists q, js_mul (js_div (successfulAttempts r) (attempts r)) 100 = Finite q /\
            0 <= Math_round q <= 100.
Proof.
  intros Hc R.
  destruct (IOFacts.tcping_resolved net (fun _ => True) options log r)
    as (rs & -> & L & _ & _); [auto | exact R |].
  cbn [summarise successfulAttempts attempts].
  apply RateFacts.rate_bounds; [| exact Hc].
  pose proof (filter_length_le success rs). lia.
Qed.

Lemma tcping_success_rate_witness :
  let options := {| opt_host := "localhost"; opt_port := 8080; opt_timeout := None;
                    opt_count := Some 3; opt_interval := None |} in
  exists r,
    (0 < 3 /\ fst (tcping Scenario.steady options []) = Resolved r) /\
    successfulAttempts r = 3 /\
    exists q, js_mul (js_div (successfulAttempts r) (attempts r)) 100 = Finite q /\
              0 <= Math_round q <= 100.
Proof.
  intro options. eexists.
  assert (R : fst (tcping Scenario.steady options []) = Resolved _) by reflexivity.
  split; [split; [lia | exact R] |]. split; [reflexivity |].
  exact (tcping_success_rate Scenario.steady options [] _ ltac:(cbn; lia) R).
Defined.

(** ** Firewall rule evaluator, continued *)

(** X14.  The whole reply of the evaluator.  On rules whose ports
    [socket.connect] accepts: the results are the rules paired with the
    outcomes of their probes, and the text is the heading, one block per
    rule in input order, and the line counting the rules passed out of the
    rules evaluated.  Otherwise the handler rejects at the first rule whose
    port is refused, with what the call threw: no report, and the rules
    after that one are not probed. *)
Theorem firewall_text (net : Network) (rules : list FirewallRule)
  (timeout : option Z) (log : list Effect) :
  (legal_rules rules = true ->
   handleFirewallValidation net rules timeout log
   = (let outcomes := combine rules
                        (probe_all net log (map (rule_call (default_to 3000 timeout)) rules)) in
      let results := map (fun ro => rule_result (fst ro) (snd ro)) outcomes in
      (Resolved
         (results,
          (("Firewall Rule Validation Results:" +++ newline)
           +++ repeat_string "=" 50 +++ newline +++ newline)
          +++ concat_map (fun ro => rule_block (fst ro) (snd ro)) outcomes
          +++ "Overall Result: "
          +++ show_Z (Z.of_nat (List.length (filter passed results)))
          +++ "/" +++ show_Z (Z.of_nat (List.length results)) +++ " rules passed"
          +++ newline),
       log ++ map Probe (map (rule_call (default_to 3000 timeout)) rules)))) /\
  (forall good bad rest,
      rules = good ++ bad :: rest ->
      legal_rules good = true -> isLegalPort (rule_port bad) = false ->
      handleFirewallValidation net rules timeout log
      = (Rejected (ERR_SOCKET_BAD_PORT (rule_port bad)),
         log ++ map Probe (map (rule_call (default_to 3000 timeout)) (good ++ [bad])))).
Proof.
  split.
  - apply HandlerFacts.firewall_run.
  - intros good bad rest -> Lg Lb. now apply HandlerFacts.firewall_abort.
Qed.

(** X15.  Evaluating [rules1 ++ rules2] is evaluating [rules1] and then
    [rules2] on what the first run left behind.  When the first run
    rejects, so does the whole, in the same way; otherwise the effects are
    those of the two runs, and the whole rejects as the second run does or
    resolves with the results of the two runs one after the other. *)
Theorem firewall_composition (net : Network) (rules1 rules2 : list FirewallRule)
  (timeout : option Z) (log : list Effect) :
  let first := handleFirewallValidation net rules1 timeout log in
  let second := handleFirewallValidation net rules2 timeout (snd first) in
  let whole := handleFirewallValidation net (rules1 ++ rules2) timeout log in
  (forall e, fst first = Rejected e -> whole = first) /\
  (forall results1 output1,
      fst first = Resolved (results1, output1) ->
      snd whole = snd second /\
      (forall e, fst second = Rejected e -> fst whole = Rejected e) /\
      (forall results2 output2,
          fst second = Resolved (results2, output2) ->
          exists output, fst whole = Resolved (results1 ++ results2, output))).
Proof.
  cbn zeta.
  destruct (IOFacts.first_illegal (fun rule => isLegalPort (rule_port rule)) rules1)
    as [L1 | (good & bad & rest & -> & Lg & Lb)].
  - rewrite (HandlerFacts.firewall_run net rules1 timeout log L1). cbn zeta. cbn [fst snd].
    split; [discriminate |]. intros results1 output1 [= <- _].
    destruct (IOFacts.first_illegal (fun rule => isLegalPort (rule_port rule)) rules2)
      as [L2 | (good & bad & rest & -> & Lg & Lb)].
    + assert (L : legal_rules (rules1 ++ rules2) = true).
      { unfold legal_rules. rewrite forallb_app. now rewrite L1, L2. }
      rewrite (HandlerFacts.firewall_run net rules2 timeout _ L2),
        (HandlerFacts.firewall_run net _ timeout log L).
      cbn zeta. cbn [fst snd].
      rewrite !map_app, HandlerFacts.probe_all_split, HandlerFacts.combine_app
        by (now rewrite HandlerFacts.probe_all_length, length_map).
      rewrite map_app, <- app_assoc.
      split; [reflexivity |]. split; [discriminate |].
      intros results2 output2 [= <- _]. eexists. reflexivity.
    + assert (L : legal_rules (rules1 ++ good) = true).
      { unfold legal_rules. rewrite forallb_app. now rewrite L1, Lg. }
      rewrite (HandlerFacts.firewall_abort net good bad rest timeout _ Lg Lb).
      rewrite app_assoc, (HandlerFacts.firewall_abort net _ bad rest timeout log L Lb).
      cbn [fst snd]. rewrite <- ?app_assoc, !map_app, <- ?app_assoc.
      split; [reflexivity |]. split; [| discriminate].
      now intros e [= <-].
  - rewrite (HandlerFacts.firewall_abort net good bad rest timeout log Lg Lb).
    cbn [fst snd]. split; [| discriminate].
    intros e _. rewrite <- app_assoc. cbn [app].
    now rewrite (HandlerFacts.firewall_abort net good bad (rest ++ rules2) timeout log Lg Lb).
Qed.

(** X16.  Every result of the evaluator is either a connection, with a
    response time and no error, or a failure, with an error and no response
    time; and no more rules pass than there are. *)
Theorem firewall_results_well_formed (net : Network) (rules : list FirewallRule)
  (timeout : option Z) (log : list Effect)
  (results : list FirewallRuleResult) (output : string) :
  fst (handleFirewallValidation net rules timeout log) = Resolved (results, output) ->
  Forall (fun res =>
            (actual res = true /\ (exists t, fw_responseTime res = Some t) /\
             fw_error res = None) \/
            (actual res = false /\ fw_responseTime res = None /\
             exists m, fw_error res = Some m))
         results /\
  (List.length (filter passed results) <= List.length rules)%nat.
Proof.
  destruct (IOFacts.first_illegal (fun rule => isLegalPort (rule_port rule)) rules)
    as [L | (good & bad & rest & -> & Lg & Lb)].
  2:{ rewrite (HandlerFacts.firewall_abort net good bad rest timeout log Lg Lb).
      discriminate. }
  rewrite (HandlerFacts.firewall_run net rules timeout log L). cbn zeta. cbn [fst].
  intros [= <- _]. split.
  - apply Forall_forall. intros res Hres.
    apply in_map_iff in Hres as ([rule outcome] & <- & Hin).
    apply in_combine_r in Hin.
    pose proof (HandlerFacts.probe_all_from_connector net log
                  (map (rule_call (default_to 3000 timeout)) rules)) as F.
    rewrite Forall_forall in F. exact (F outcome Hin).
  - etransitivity; [apply filter_length_le |].
    rewrite length_map, length_combine. lia.
Qed.

Lemma firewall_results_well_formed_witness :
  let rules := [{| rule_name := "web"; rule_host := "example.com"; rule_port := 443;
                   rule_expected := true |};
                {| rule_name := "SSH"; rule_host := "example.com"; rule_port := 22;
                   rule_expected := false |}] in
  exists results output,
    fst (handleFirewallValidation Scenario.steady rules None []) = Resolved (results, output) /\
    Forall (fun res =>
              (actual res = true /\ (exists t, fw_responseTime res = Some t) /\
               fw_error res = None) \/
              (actual res = false /\ fw_responseTime res = None /\
               exists m, fw_error res = Some m))
           results /\
    (List.length (filter passed results) <= List.length rules)%nat.
Proof.
  intro rules. eexists _, _.
  assert (R : fst (handleFirewallValidation Scenario.steady rules None [])
              = Resolved (_, _)) by reflexivity.
  split; [exact R |].
  exact (firewall_results_well_formed Scenario.steady rules None [] _ _ R).
Defined.

(** ** Port-range scanner, continued *)

(** X17.  The whole reply of the scanner.  On a range that, if not empty,
    lies within the ports [socket.connect] accepts: the text is the
    heading, one line per entry of [openPorts] in order, and then either
    the sentence that says no port is open, when [openPorts] is empty, or
    the number of entries.  Otherwise the handler rejects at the first port
    of the range that is refused, with what the call threw: no report, and
    the ports above that one are not probed. *)
Theorem scan_text (net : Network) (host : string) (startPort endPort : Z)
  (timeout : option Z) (log : list Effect) :
  ((startPort <= endPort -> 0 <= startPort /\ endPort <= 65535) ->
   handleNetworkScan net host startPort endPort timeout log
   = (let ports := port_range startPort endPort in
      let openPorts :=
        map open_port
            (filter (fun po => success (snd po))
               (combine ports
                  (probe_all net log
                     (map (scan_call host (default_to 1000 timeout)) ports)))) in
      (Resolved
         (openPorts,
          ((("Network Scan: " +++ host +++ ":" +++ show_Z startPort +++ "-"
             +++ show_Z endPort +++ newline)
            +++ repeat_string "=" 50 +++ newline +++ newline)
           +++ concat_map (fun op => "Port " +++ show_Z (op_port op) +++ ": OPEN ("
                                     +++ show_opt_Z (op_responseTime op) +++ "ms)"
                                     +++ newline) openPorts)
          +++ (if Nat.eqb (List.length openPorts) 0
               then "No open ports found in the specified range." +++ newline
               else newline +++ "Summary: Found "
                    +++ show_Z (Z.of_nat (List.length openPorts)) +++ " open ports"
                    +++ newline)),
       log ++ map Probe (map (scan_call host (default_to 1000 timeout))
                             (port_range startPort endPort))))) /\
  (forall p,
      startPort <= p <= endPort ->
      (forall q, startPort <= q < p -> isLegalPort q = true) ->
      isLegalPort p = false ->
      handleNetworkScan net host startPort endPort timeout log
      = (Rejected (ERR_SOCKET_BAD_PORT p),
         log ++ map Probe (map (scan_call host (default_to 1000 timeout))
                               (port_range startPort p)))).
Proof.
  split.
  - intro R. apply HandlerFacts.scan_run. now apply HandlerFacts.legal_range.
  - intros p Hp Below Lp.
    assert (G : forallb isLegalPort (port_range startPort (p - 1)) = true).
    { apply forallb_forall. intros q Hq. apply HandlerFacts.port_range_spec in Hq.
      apply Below. lia. }
    assert (E1 : port_range startPort p = port_range startPort (p - 1) ++ [p]).
    { rewrite (HandlerFacts.port_range_split startPort (p - 1) p) by lia.
      replace (p - 1 + 1) with p by lia. now rewrite HandlerFacts.port_range_one. }
    assert (E2 : port_range startPort endPort
                 = port_range startPort (p - 1) ++ p :: port_range (p + 1) endPort).
    { rewrite (HandlerFacts.port_range_split startPort p endPort) by lia.
      rewrite E1, <- app_assoc. reflexivity. }
    rewrite E1. now apply (HandlerFacts.scan_abort net host startPort endPort timeout
                              _ p _ log E2).
Qed.

(** X18.  For a cut [b] with [a - 1 <= b <= c], a scan of [a..c] is the scan
    of [a..b] followed by the scan of [b+1..c].  When the first scan
    rejects, so does the whole, in the same way; otherwise the effects are
    those of the two scans, and the whole rejects as the second scan does
    or resolves with the open ports of the two scans one after the
    other. *)
Theorem scan_composition (net : Network) (host : string) (a b c : Z)
  (timeout : option Z) (log : list Effect) :
  a <= b + 1 -> b <= c ->
  let first := handleNetworkScan net host a b timeout log in
  let second := handleNetworkScan net host (b + 1) c timeout (snd first) in
  let whole := handleNetworkScan net host a c timeout log in
  (forall e, fst first = Rejected e -> whole = first) /\
  (forall openPorts1 output1,
      fst first = Resolved (openPorts1, output1) ->
      snd whole = snd second /\
      (forall e, fst second = Rejected e -> fst whole = Rejected e) /\
      (forall openPorts2 output2,
          fst second = Resolved (openPorts2, output2) ->
          exists output, fst whole = Resolved (openPorts1 ++ openPorts2, output))).
Proof.
  intros H1 H2. cbn zeta.
  pose proof (HandlerFacts.port_range_split a b c H1 H2) as Split.
  destruct (IOFacts.first_illegal isLegalPort (port_range a b))
    as [L1 | (good & bad & rest & E1 & Lg & Lb)].
  - rewrite (HandlerFacts.scan_run net host a b timeout log L1). cbn zeta. cbn [fst snd].
    split; [discriminate |]. intros openPorts1 output1 [= <- _].
    destruct (IOFacts.first_illegal isLegalPort (port_range (b + 1) c))
      as [L2 | (good & bad & rest & E2 & Lg & Lb)].
    + assert (L : forallb isLegalPort (port_range a c) = true).
      { rewrite Split, forallb_app. now rewrite L1, L2. }
      rewrite (HandlerFacts.scan_run net host (b + 1) c timeout _ L2),
        (HandlerFacts.scan_run net host a c timeout log L).
      cbn zeta. cbn [fst snd]. rewrite Split.
      rewrite !map_app, HandlerFacts.probe_all_split, HandlerFacts.combine_app
        by (now rewrite HandlerFacts.probe_all_length, length_map).
      rewrite filter_app, map_app, <- app_assoc.
      split; [reflexivity |]. split; [discriminate |].
      intros openPorts2 output2 [= <- _]. eexists. reflexivity.
    + assert (L : forallb isLegalPort (port_range a b ++ good) = true).
      { rewrite forallb_app. now rewrite L1, Lg. }
      rewrite (HandlerFacts.scan_abort net host (b + 1) c timeout good bad rest _ E2 Lg Lb).
      rewrite (HandlerFacts.scan_abort net host a c timeout
                 (port_range a b ++ good) bad rest log)
        by (try assumption; rewrite Split, E2, <- app_assoc; reflexivity).
      cbn [fst snd]. rewrite <- ?app_assoc, !map_app, <- ?app_assoc.
      split; [reflexivity |]. split; [| discriminate].
      now intros e [= <-].
  - rewrite (HandlerFacts.scan_abort net host a b timeout good bad rest log E1 Lg Lb).
    cbn [fst snd]. split; [| discriminate].
    intros e _.
    now rewrite (HandlerFacts.scan_abort net host a c timeout good bad
                   (rest ++ port_range (b + 1) c) log)
      by (try assumption; rewrite Split, E1, <- app_assoc; reflexivity).
Qed.

Lemma scan_composition_witness :
  let net := Scenario.local_listener in
  let first := handleNetworkScan net "localhost" 65534 65535 None [] in
  let second := handleNetworkScan net "localhost" 65536 65537 None (snd first) in
  let whole := handleNetworkScan net "localhost" 65534 65537 None [] in
  (65534 <= 65535 + 1 /\ 65535 <= 65537) /\
  (exists openPorts1 output1, fst first = Resolved (openPorts1, output1)) /\
  fst second = Rejected (ERR_SOCKET_BAD_PORT 65536) /\
  fst whole = Rejected (ERR_SOCKET_BAD_PORT 65536) /\
  snd whole = snd second.
Proof.
  cbn zeta. split; [lia |].
  destruct (scan_composition Scenario.local_listener "localhost" 65534 65535 65537 None []
              ltac:(lia) ltac:(lia)) as [_ H].
  assert (R1 : fst (handleNetworkScan Scenario.local_listener "localhost" 65534 65535
                      None []) = Resolved (_, _)) by reflexivity.
  destruct (H _ _ R1) as (E & Rej & _).
  assert (R2 : fst (handleNetworkScan Scenario.local_listener "localhost" 65536 65537 None
                      (snd (handleNetworkScan Scenario.local_listener "localhost"
                              65534 65535 None [])))
               = Rejected (ERR_SOCKET_BAD_PORT 65536)) by reflexivity.
  split; [eexists _, _; exact R1 |].
  split; [exact R2 |]. split; [exact (Rej _ R2) | exact E].
Defined.

(** X19.  Every entry of [openPorts] has a response time, so that no line
    of the report reads [undefined], and there are at most as many entries
    as ports in the range. *)
Theorem scan_open_ports_well_formed (net : Network) (host : string)
  (startPort endPort : Z) (timeout : option Z) (log : list Effect)
  (openPorts : list OpenPort) (output : string) :
  fst (handleNetworkScan net host startPort endPort timeout log)
    = Resolved (openPorts, output) ->
  Forall (fun op => exists t, op_responseTime op = Some t) openPorts /\
  Z.of_nat (List.length openPorts) <= Z.max 0 (endPort - startPort + 1).
Proof.
  destruct (IOFacts.first_illegal isLegalPort (port_range startPort endPort))
    as [L | (good & bad & rest & E & Lg & Lb)].
  2:{ rewrite (HandlerFacts.scan_abort net host startPort endPort timeout
                 good bad rest log E Lg Lb).
      discriminate. }
  rewrite (HandlerFacts.scan_run net host startPort endPort timeout log L).
  cbn zeta. cbn [fst]. intros [= <- _]. split.
  - apply Forall_forall. intros op Hop.
    apply in_map_iff in Hop as ([p outcome] & <- & Hin).
    apply filter_In in Hin as [Hin S]. cbn [snd] in S.
    apply in_combine_r in Hin.
    pose proof (HandlerFacts.probe_all_from_connector net log
                  (map (scan_call host (default_to 1000 timeout))
                       (port_range startPort endPort))) as F.
    rewrite Forall_forall in F.
    destruct (F outcome Hin) as [(_ & T & _) | (S' & _)]; [exact T | congruence].
  - rewrite length_map.
    pose proof (filter_length_le (fun po : Z * ConnResult => success (snd po))
                  (combine (port_range startPort endPort)
                     (probe_all net log
                        (map (scan_call host (default_to 1000 timeout))
                             (port_range startPort endPort))))) as Le.
    rewrite length_combine in Le. unfold port_range in *.
    rewrite HandlerFacts.ports_from_length in Le. lia.
Qed.

Lemma scan_open_ports_well_formed_witness :
  exists openPorts output,
    fst (handleNetworkScan Scenario.local_listener "localhost" 8080 8082 None [])
      = Resolved (openPorts, output) /\
    List.length openPorts = 3%nat /\
    Forall (fun op => exists t, op_responseTime op = Some t) openPorts /\
    Z.of_nat (List.length openPorts) <= Z.max 0 (8082 - 8080 + 1).
Proof.
  eexists _, _.
  assert (R : fst (handleNetworkScan Scenario.local_listener "localhost" 8080 8082 None [])
              = Resolved (_, _)) by reflexivity.
  split; [exact R |]. split; [reflexivity |].
  exact (scan_open_ports_well_formed Scenario.local_listener "localhost" 8080 8082
           None [] _ _ R).
Defined.

(** ** The dispatcher *)


(** X22.  The defaults of the schemas are the defaults of the handlers: a
    request that leaves out a numeric property for which its tool
    advertises a default is answered as the request that gives that
    default. *)
Theorem advertised_defaults_applied (net : Network) (badPortMessage : Z -> string)
  (tool property : string) (d : Z) (args : ToolArguments) (log : list Effect) :
  default_of tool property = Some d ->
  CallTool net badPortMessage tool (with_number property None args) log
  = CallTool net badPortMessage tool (with_number property (Some d) args) log.
Proof.
  unfold default_of. cbn [find ListTools tool_name inputSchema].
  destruct (String.eqb_spec "tcping" tool) as [<- | _].
  { cbn [find fst].
    repeat match goal with
           | |- context [String.eqb ?a property] =>
               destruct (String.eqb_spec a property) as [<- | _];
               [intro D; try discriminate D; injection D as <-; reflexivity |]
           end.
    discriminate. }
  destruct (String.eqb_spec "validate_firewall_rule" tool) as [<- | _].
  { cbn [find fst].
    repeat match goal with
           | |- context [String.eqb ?a property] =>
               destruct (String.eqb_spec a property) as [<- | _];
               [intro D; try discriminate D; injection D as <-; reflexivity |]
           end.
    discriminate. }
  destruct (String.eqb_spec "network_scan" tool) as [<- | _].
  { cbn [find fst].
    repeat match goal with
           | |- context [String.eqb ?a property] =>
               destruct (String.eqb_spec a property) as [<- | _];
               [intro D; try discriminate D; injection D as <-; reflexivity |]
           end.
    discriminate. }
  discriminate.
Qed.

Lemma advertised_defaults_applied_witness :
  let args := {| arg_host := "localhost"; arg_port := 0; arg_timeout := Some 250;
                 arg_count := None; arg_interval := None; arg_rules := [];
                 arg_startPort := 8080; arg_endPort := 8082 |} in
  default_of "network_scan" "timeout" = Some 1000 /\
  CallTool Scenario.local_listener show_Z "network_scan"
    (with_number "timeout" None args) []
  = CallTool Scenario.local_listener show_Z "network_scan"
      (with_number "timeout" (Some 1000) args) [].
Proof.
  intro args. split; [reflexivity |].
  exact (advertised_defaults_applied Scenario.local_listener show_Z "network_scan"
           "timeout" 1000 args [] eq_refl).
Defined.
